(** * Moog ladder filter family: shallow embedding and verified properties

    The development follows the C++ sources of the filter family:

    - [Int32] and [MoogLadderFilterFixedPoint]: the Q16.16 integer backend
      (DEV/MoogLadderFilterFixedPoint.h and .cpp).  A C++ [int] is a [Z]
      kept in the 32-bit two's-complement range by an explicit [wrap].
    - [ZDFMoogLadderFilter]: the trapezoidal ladder (zdf_moogladder_v2.h
      and .cpp).
    - [MoogLadderFilterBase], [NeonMoogFilter], [MoogLadderFilterScalar],
      [MoogLadderFilterSIMD], [MSPMoogLadderFilter]: the nonlinear
      dual-iteration model, its vector helpers and its double-precision
      sibling (DEV/...).
    - [DEV_ZDFMoogLadderFilter]: the earlier trapezoidal ladder
      (DEV/ZDFMoogLadderFilter.cpp); [MoogFilter] and
      [NeonMoogFilterBlock]: the empirically tuned ladder and its
      four-at-a-time block routine (DEV/EmpiricallyTunedMoogFilter.cpp,
      DEV/NeonMoogFilter.cpp).
    - [MoogLadderFilter]: the bilinear-transform ladder with tanh stages
      (DEV/BilinearTransformMoogLadderFilter.cpp).
    - [ResonanceRamp], [KeyFollow], [PortamentoFilter], [PortamentoPlayer],
      [MidiHandler]: the control-rate classes the audio callback drives
      the filter with.  The two [std::queue]s of the MIDI handler are
      lists, front first.

    Values of type [float] and [double] are read as real numbers and every
    floating-point operation as the exact real operation: the statements
    below concern the dataflow of the filters, not rounding.  The hardware
    reciprocal estimate of the vector code is a parameter.

    The first part holds the definitions, one module per source class; the
    second part holds the facts, grouped by component. *)

From Stdlib Require Import ZArith List Lia Reals Lra.
Import ListNotations.

(* ================================================================== *)
(** * 32-bit signed integers *)
(* ================================================================== *)

Module Int32.
Local Open Scope Z_scope.

Definition min_int : Z := - 2 ^ 31.
Definition max_int : Z := 2 ^ 31 - 1.

(** Two's-complement reduction into [min_int .. max_int]. *)
Definition wrap (x : Z) : Z := (x + 2 ^ 31) mod 2 ^ 32 - 2 ^ 31.

Definition add (a b : Z) : Z := wrap (a + b).
Definition sub (a b : Z) : Z := wrap (a - b).
Definition mul (a b : Z) : Z := wrap (a * b).
(** C++ [/] truncates toward zero; a zero divisor is left at [Z.quot]'s
    value 0. *)
Definition div (a b : Z) : Z := wrap (Z.quot a b).
Definition shl (a n : Z) : Z := wrap (Z.shiftl a n).
(** [>>] on a signed operand is the arithmetic shift. *)
Definition shr (a n : Z) : Z := Z.shiftr a n.

Definition in_range (x : Z) : Prop := min_int <= x <= max_int.
End Int32.

(* ================================================================== *)
(** * Q16.16 fixed-point backend *)
(* ================================================================== *)

Module MoogLadderFilterFixedPoint.
Local Open Scope Z_scope.
Import Int32.

Definition clamp_int (x minVal maxVal : Z) : Z :=
  if x <? minVal then minVal else if x >? maxVal then maxVal else x.

(** The private members of the class; [s] is the array [int s[4]]. *)
Record state := mkState {
  sampleRate : Z;
  alpha : Z;
  feedbackAmount : Z;
  fc : Z;
  rc : Z;
  prevIn : Z;
  s : list Z
}.

Definition reset (st : state) : state :=
  mkState (sampleRate st) (alpha st) (feedbackAmount st) (fc st) (rc st)
          0 [0; 0; 0; 0].

(** The constructor stores the sample rate and calls [reset]; the other
    members keep whatever the object's memory [raw] held. *)
Definition new (raw : state) (sampleRate_ : Z) : state :=
  reset (mkState sampleRate_ (alpha raw) (feedbackAmount raw) (fc raw)
                 (rc raw) (prevIn raw) (s raw)).

Definition setCutoff (st : state) (frequency : Z) : state :=
  let fc' := clamp_int frequency 20 (div (sampleRate st) 2) in
  let normFreq := div (shl fc' 16) (sampleRate st) in
  let g := shr (mul normFreq normFreq) 16 in
  let alpha' := div g (add 1 g) in
  let feedbackAmount' := shr (mul alpha' alpha') 16 in
  mkState (sampleRate st) alpha' feedbackAmount' fc' (rc st)
          (prevIn st) (s st).

Definition setResonance (st : state) (resonance : Z) : state :=
  mkState (sampleRate st) (alpha st) (feedbackAmount st) (fc st)
          (shr (clamp_int resonance 0 255) 2) (prevIn st) (s st).

Definition tanh_approx (x : Z) : Z :=
  let x := clamp_int x (-32768) 32767 in
  sub x (shr (mul x x) 16).

Definition process (st : state) (in_ : Z) : Z * state :=
  let input := add in_ 1 in
  let feedback := tanh_approx (mul (rc st) (sub (nth 3 (s st) 0) input)) in
  let s1 := add (shr (mul (sub input feedback) (alpha st)) 16)
                (shr (mul (feedbackAmount st) (nth 0 (s st) 0)) 16) in
  let s2 := add (shr (mul s1 (alpha st)) 16)
                (shr (mul (feedbackAmount st) (nth 1 (s st) 0)) 16) in
  let s3 := add (shr (mul s2 (alpha st)) 16)
                (shr (mul (feedbackAmount st) (nth 2 (s st) 0)) 16) in
  let s4 := add (shr (mul s3 (alpha st)) 16)
                (shr (mul (feedbackAmount st) (nth 3 (s st) 0)) 16) in
  (s4, mkState (sampleRate st) (alpha st) (feedbackAmount st) (fc st)
               (rc st) (prevIn st) [s1; s2; s3; s4]).

(** Feeding a whole input sequence, collecting the outputs. *)
Fixpoint run (st : state) (ins : list Z) : list Z * state :=
  match ins with
  | [] => ([], st)
  | x :: rest =>
      let '(y, st1) := process st x in
      let '(ys, st2) := run st1 rest in
      (y :: ys, st2)
  end.

(** An object whose memory was all zero before construction. *)
Definition zero_mem : state := mkState 0 0 0 0 0 0 [].
End MoogLadderFilterFixedPoint.


(* ================================================================== *)
(** * Zero-delay-feedback ladder (zdf_moogladder_v2) *)
(* ================================================================== *)

Module ZDFMoogLadderFilter.
Local Open Scope R_scope.

Definition clamp_float (x minVal maxVal : R) : R :=
  if Rlt_dec x minVal then minVal
  else if Rgt_dec x maxVal then maxVal else x.

(** [enum FilterMode], by its underlying integer. *)
Definition LP24 : Z := 0%Z.
Definition BP12 : Z := 1%Z.
Definition HP24 : Z := 2%Z.

(** A C array [float a[4]] is a map from indices to values; [upd] is the
    assignment [a[i] = v]. *)
Definition upd (a : nat -> R) (i : nat) (v : R) : nat -> R :=
  fun j => if Nat.eqb j i then v else a j.

Record state := mkState {
  sampleRate : R;
  resonance : R;
  feedbackGain : R;
  G : R;
  drive : R;
  mode : Z;
  stage : nat -> R;
  z : nat -> R
}.

Definition reset (st : state) : state :=
  let clear (sz : (nat -> R) * (nat -> R)) (i : nat) :=
    (upd (fst sz) i 0, upd (snd sz) i 0) in
  let sz := fold_left clear (seq 0 4) (stage st, z st) in
  mkState (sampleRate st) (resonance st) (feedbackGain st) (G st) (drive st)
          (mode st) (fst sz) (snd sz).

Definition setCutoff (st : state) (cutoffHz : R) : state :=
  let cutoffHz := clamp_float cutoffHz 20 (sampleRate st * 0.45) in
  mkState (sampleRate st) (resonance st)
          (resonance st * 4)
          (tan (PI * cutoffHz / sampleRate st))
          (drive st) (mode st) (stage st) (z st).

Definition setResonance (st : state) (r : R) : state :=
  let resonance' := clamp_float r 0 1 in
  mkState (sampleRate st) resonance' (resonance' * 4) (G st) (drive st)
          (mode st) (stage st) (z st).

Definition setMode (st : state) (newMode : Z) : state :=
  if ((0 <=? newMode)%Z && (newMode <=? 2)%Z)%bool
  then mkState (sampleRate st) (resonance st) (feedbackGain st) (G st)
               (drive st) newMode (stage st) (z st)
  else st.

Definition setDrive (st : state) (driveAmount : R) : state :=
  mkState (sampleRate st) (resonance st) (feedbackGain st) (G st)
          (clamp_float driveAmount 0 1) (mode st) (stage st) (z st).

(** The constructor: member initialisers, [reset], then the two default
    settings.  [raw] is the object's memory before construction. *)
Definition new (raw : state) (sampleRate_ : R) : state :=
  let st := mkState sampleRate_ (resonance raw) (feedbackGain raw) (G raw)
                    1 LP24 (stage raw) (z raw) in
  setResonance (setCutoff (reset st) 1000) 0.5.

(** One turn of the stage loop: the running input [u] and both arrays. *)
Definition ladder_stage (g : R) (acc : R * (nat -> R) * (nat -> R)) (i : nat)
  : R * (nat -> R) * (nat -> R) :=
  let '(u, stage_, z_) := acc in
  let v := (u - z_ i) / (1 + g) in
  let stage' := upd stage_ i (v + z_ i) in
  let z' := upd z_ i (stage' i + v) in
  (stage' i, stage', z').

Definition select_output (mode_ : Z) (stage_ : nat -> R) (input : R) : R :=
  match mode_ with
  | 0%Z => stage_ 3%nat
  | 1%Z => stage_ 2%nat - stage_ 3%nat
  | 2%Z => input - stage_ 3%nat
  | _ => stage_ 3%nat
  end.

Definition process (st : state) (input : R) : R * state :=
  let fb := if Rgt_dec (drive st) 0.001
            then tanh (stage st 3%nat * drive st)
            else stage st 3%nat in
  let u := input - feedbackGain st * fb in
  let '(_, stage', z') :=
    fold_left (ladder_stage (G st)) (seq 0 4) (u, stage st, z st) in
  (select_output (mode st) stage' input,
   mkState (sampleRate st) (resonance st) (feedbackGain st) (G st)
           (drive st) (mode st) stage' z').

(** The per-sample call as the specification words it: the feedback sample
    is saturated as soon as the drive is positive. *)
Definition process_spec (st : state) (input : R) : R * state :=
  let fb := if Rgt_dec (drive st) 0
            then tanh (stage st 3%nat * drive st)
            else stage st 3%nat in
  let u := input - feedbackGain st * fb in
  let '(_, stage', z') :=
    fold_left (ladder_stage (G st)) (seq 0 4) (u, stage st, z st) in
  (select_output (mode st) stage' input,
   mkState (sampleRate st) (resonance st) (feedbackGain st) (G st)
           (drive st) (mode st) stage' z').

(** Feeding an input sequence; the state after the last sample. *)
Definition run (st : state) (ins : list R) : state :=
  fold_left (fun s x => snd (process s x)) ins st.

(** Largest finite single-precision value. *)
Definition FLT_MAX : R := (2 - / 2 ^ 23) * 2 ^ 127.

(** An object whose memory was all zero before construction. *)
Definition zero_mem : state :=
  mkState 0 0 0 0 0 0%Z (fun _ => 0) (fun _ => 0).

(** A filter at 44.1 kHz with the cutoff at a quarter of the sample rate
    and full resonance; the drive is left open. *)
Definition quarter_rate (d : R) : state :=
  setDrive (setResonance (setCutoff (new zero_mem 44100) 11025) 1) d.

(** In that configuration with the saturation bypassed the per-sample map
    is linear with dyadic coefficients.  [dyadic] holds the numerators of
    stage[3] and z[0..3] over the common denominator [den]; [dyadic_step]
    is the image of one call of [process] on an integer input, with the
    denominator multiplied by 16. *)
Record dyadic := mkDyadic {
  den : Z;
  num_stage3 : Z;
  num_z0 : Z;
  num_z1 : Z;
  num_z2 : Z;
  num_z3 : Z
}.

Definition dyadic_step (d : dyadic) (x : Z) : dyadic :=
  let X := (x * den d)%Z in
  let a := num_stage3 d in
  let b0 := num_z0 d in
  let b1 := num_z1 d in
  let b2 := num_z2 d in
  let b3 := num_z3 d in
  mkDyadic (16 * den d)
           (X - 4 * a + b0 + 2 * b1 + 4 * b2 + 8 * b3)
           (16 * X - 64 * a)
           (8 * X - 32 * a + 8 * b0)
           (4 * X - 16 * a + 4 * b0 + 8 * b1)
           (2 * X - 8 * a + 2 * b0 + 4 * b1 + 8 * b2).

Definition dyadic_run (ins : list Z) : dyadic :=
  fold_left dyadic_step ins (mkDyadic 1 0 0 0 0 0).

(** A unit impulse followed by [n] samples of silence. *)
Definition impulse (n : nat) : list Z := 1%Z :: repeat 0%Z n.

(** [d] holds the exact values stored in [st]. *)
Definition represents (d : dyadic) (st : state) : Prop :=
  (0 < den d)%Z /\
  ~ drive st > 0.001 /\ G st = 1 /\ feedbackGain st = 4 /\
  stage st 3%nat = IZR (num_stage3 d) / IZR (den d) /\
  z st 0%nat = IZR (num_z0 d) / IZR (den d) /\
  z st 1%nat = IZR (num_z1 d) / IZR (den d) /\
  z st 2%nat = IZR (num_z2 d) / IZR (den d) /\
  z st 3%nat = IZR (num_z3 d) / IZR (den d).

(** The outputs of feeding an input sequence. *)
Fixpoint outputs (st : state) (ins : list R) : list R :=
  match ins with
  | [] => []
  | x :: rest => fst (process st x) :: outputs (snd (process st x)) rest
  end.

(** The states a program reaches through the public interface. *)
Inductive reachable : state -> Prop :=
| reach_new raw sampleRate_ : reachable (new raw sampleRate_)
| reach_setCutoff st cutoffHz :
    reachable st -> reachable (setCutoff st cutoffHz)
| reach_setResonance st r : reachable st -> reachable (setResonance st r)
| reach_setMode st newMode : reachable st -> reachable (setMode st newMode)
| reach_setDrive st driveAmount :
    reachable st -> reachable (setDrive st driveAmount)
| reach_reset st : reachable st -> reachable (reset st)
| reach_process st input :
    reachable st -> reachable (snd (process st input)).

End ZDFMoogLadderFilter.

(* ================================================================== *)
(** * Shared helpers of the nonlinear model (MoogLadderFilterBase.h) *)
(* ================================================================== *)

Module MoogLadderFilterBase.
Local Open Scope R_scope.

(** [std::min(std::max(x, a), b)]. *)
Definition clamp (x a b : R) : R := Rmin (Rmax x a) b.

Definition fixdenorm (val : R) : R :=
  if Rlt_dec (Rabs val) 1e-30 then 0 else val.

(** A NEON register of four single-precision lanes. *)
Definition float32x4_t : Type := (R * R * R * R)%type.

Definition lane_map (f : R -> R) (a : float32x4_t) : float32x4_t :=
  let '(a0, a1, a2, a3) := a in (f a0, f a1, f a2, f a3).

Definition lane_map2 (f : R -> R -> R) (a b : float32x4_t) : float32x4_t :=
  let '(a0, a1, a2, a3) := a in
  let '(b0, b1, b2, b3) := b in
  (f a0 b0, f a1 b1, f a2 b2, f a3 b3).

(** The arm_neon.h intrinsics used by the sources, lane by lane. *)
Definition vdupq_n_f32 (x : R) : float32x4_t := (x, x, x, x).
Definition vaddq_f32 : float32x4_t -> float32x4_t -> float32x4_t :=
  lane_map2 Rplus.
Definition vsubq_f32 : float32x4_t -> float32x4_t -> float32x4_t :=
  lane_map2 Rminus.
Definition vmulq_f32 : float32x4_t -> float32x4_t -> float32x4_t :=
  lane_map2 Rmult.
Definition vmaxq_f32 : float32x4_t -> float32x4_t -> float32x4_t :=
  lane_map2 Rmax.
Definition vminq_f32 : float32x4_t -> float32x4_t -> float32x4_t :=
  lane_map2 Rmin.
(** [vmlaq_f32(a, b, c)] is a + b*c. *)
Definition vmlaq_f32 (a b c : float32x4_t) : float32x4_t :=
  vaddq_f32 a (vmulq_f32 b c).
(** [vrecpsq_f32(a, b)] is the Newton-Raphson step factor 2 - a*b. *)
Definition vrecpsq_f32 : float32x4_t -> float32x4_t -> float32x4_t :=
  lane_map2 (fun a b => 2 - a * b).
(** [vrecpeq_f32] is the hardware reciprocal estimate; its per-lane
    function [recpe] is a parameter of everything that uses it. *)
Definition vrecpeq_f32 (recpe : R -> R) : float32x4_t -> float32x4_t :=
  lane_map recpe.

Definition clamp_f32x4 (x : float32x4_t) (min_val max_val : R)
  : float32x4_t :=
  vminq_f32 (vmaxq_f32 x (vdupq_n_f32 min_val)) (vdupq_n_f32 max_val).

Definition vdivq_f32 (recpe : R -> R) (a b : float32x4_t) : float32x4_t :=
  let reciprocal := vrecpeq_f32 recpe b in
  let reciprocal := vmulq_f32 (vrecpsq_f32 b reciprocal) reciprocal in
  vmulq_f32 a reciprocal.

End MoogLadderFilterBase.

(* ================================================================== *)
(** * Vector division of the hybrid filter (NeonMoogFilter.cpp) *)
(* ================================================================== *)

Module NeonMoogFilter.
Import MoogLadderFilterBase.
Local Open Scope R_scope.

Definition neon_divide_f32 (recpe : R -> R) (num den : float32x4_t)
  : float32x4_t :=
  let recip := vrecpeq_f32 recpe den in
  let recip := vmulq_f32 (vrecpsq_f32 den recip) recip in
  let recip := vmulq_f32 (vrecpsq_f32 den recip) recip in
  vmulq_f32 num recip.

(** One Newton-Raphson refinement of a reciprocal [x] of [b]. *)
Definition newton_raphson (b x : R) : R := x * (2 - b * x).

(** A lane division as the specification words it: the estimate refined by
    exactly two Newton-Raphson iterations, then multiplied. *)
Definition divide_spec (recpe : R -> R) (a b : R) : R :=
  a * newton_raphson b (newton_raphson b (recpe b)).

End NeonMoogFilter.

(* ================================================================== *)
(** * Scalar nonlinear dual-iteration filter (MoogLadderFilterScalar) *)
(* ================================================================== *)

Module MoogLadderFilterScalar.
Import MoogLadderFilterBase.
Local Open Scope R_scope.

Record state := mkState {
  s1 : R; s2 : R; s3 : R; s4 : R; s5 : R; s6 : R; s7 : R; s8 : R;
  slim : R;
  previn : R;
  rc : R;
  fc : R;
  mode : Z;
  sr : R;
  expr1 : R;
  expr2 : R
}.

Definition reset (st : state) : state :=
  mkState 0 0 0 0 0 0 0 0 0 0 0 1 0%Z (sr st) (expr1 st) (expr2 st).

Definition setSampleRate (st : state) (sr_ : R) : state :=
  let expr1' := sqrt (clamp (12.5 / sr_) 0.0001 1) in
  mkState (s1 st) (s2 st) (s3 st) (s4 st) (s5 st) (s6 st) (s7 st) (s8 st)
          (slim st) (previn st) (rc st) (fc st) (mode st)
          sr_ expr1' (- ln expr1').

(** The constructor; [raw] is the object's memory before construction. *)
Definition new (raw : state) (sampleRate : R) : state :=
  reset (setSampleRate raw sampleRate).

Definition setParams (st : state) (cutoffHz resonanceVal : R) (modeSel : Z)
  : state :=
  mkState (s1 st) (s2 st) (s3 st) (s4 st) (s5 st) (s6 st) (s7 st) (s8 st)
          (slim st) (previn st)
          (clamp resonanceVal 0 1) (fixdenorm cutoffHz) modeSel
          (sr st) (expr1 st) (expr2 st).

(** Sections 2 and 3 of [process]: modulated resonance and the polynomial
    coefficients. *)
Record coefficients := mkCoefficients {
  rc_mod : R; expr6 : R; expr7 : R; expr8 : R; rsub9 : R
}.

Definition section3 (st : state) (in3 : R) : coefficients :=
  let rc_mod := rc st + clamp (((1.05 * Rmax in3 1e-5) - rc st) / 4) (-1) 1 in
  let expr3 := fc st * fc st in
  let expr4 := expr3 * (1 - rc_mod) in
  let expr5 := expr3 + (expr4 * expr4) in
  let expr6 := (1.25 + ((-0.74375 + (0.3 * expr5)) * expr5)) * expr5 in
  let expr7 :=
    rc_mod * (1.4 + ((0.108 + ((-0.164 - 0.069 * expr6) * expr6)) * expr6)) in
  let expr8 := 0.18 + 0.25 * (expr7 * expr7) in
  let rsub9 := 1 - expr6 in
  mkCoefficients rc_mod expr6 expr7 expr8 rsub9.

(** Section 4: the first iteration. *)
Record first_iteration := mkFirst {
  expr12 : R; expr13 : R; expr14 : R; expr15 : R; expr23 : R;
  expr30 : R; expr32 : R; add33 : R
}.

Definition section4 (st : state) (c : coefficients) : first_iteration :=
  let expr12 := fixdenorm (previn st) * expr8 c - expr7 c * s5 st in
  let expr13 :=
    clamp (((0.062 * expr12) * expr12 + (0.993 * slim st))) (-1) 1 in
  let expr14 := expr12 * ((1 - expr13) + ((0.5 * expr13) * expr13)) in
  let expr15 := expr14 * expr6 c + rsub9 c * s1 st in
  let add22 := expr15 + s1 st * 0.3 in
  let expr23 := add22 * expr6 c + rsub9 c * s2 st in
  let add27 := expr23 + s2 st * 0.3 in
  let clamp28 := clamp add27 (-1) 1 in
  let expr29 := clamp28 * (1 - (0.3333333 * clamp28 * clamp28)) in
  let expr30 := expr29 * expr6 c + rsub9 c * s3 st in
  let add31 := expr30 + s3 st * 0.3 in
  let expr32 := add31 * expr6 c + rsub9 c * s4 st in
  let add33 := expr32 + s4 st * 0.3 in
  mkFirst expr12 expr13 expr14 expr15 expr23 expr30 expr32 add33.

(** Section 5: the second iteration. *)
Record second_iteration := mkSecond {
  expr34 : R; expr35 : R; expr37 : R; add38 : R; expr39 : R; add40 : R;
  expr44 : R; add48 : R; expr49 : R; add50 : R
}.

Definition section5 (c : coefficients) (p : first_iteration) (expr10 : R)
  : second_iteration :=
  let expr34 := expr10 * expr8 c - expr7 c * add33 p in
  let expr35 :=
    clamp (((0.062 * expr34) * expr34 + (0.993 * expr13 p))) (-1) 1 in
  let expr36 := expr34 * ((1 - expr35) + ((0.5 * expr35) * expr35)) in
  let expr37 := expr36 * expr6 c + rsub9 c * expr15 p in
  let add38 := expr37 + expr15 p * 0.3 in
  let expr39 := add38 * expr6 c + rsub9 c * expr23 p in
  let add40 := expr39 + expr23 p * 0.3 in
  let clamp42 := clamp add40 (-1) 1 in
  let expr43 := clamp42 * (1 - (0.3333333 * clamp42 * clamp42)) in
  let expr44 := expr43 * expr6 c + rsub9 c * expr30 p in
  let add48 := expr44 + expr30 p * 0.3 in
  let expr49 := add48 * expr6 c + rsub9 c * expr32 p in
  let add50 := expr49 + expr32 p * 0.3 in
  mkSecond expr34 expr35 expr37 add38 expr39 add40 expr44 add48 expr49 add50.

(** Section 6: the six mode combinations. *)
Record mode_outputs := mkModes {
  expr51 : R; expr52 : R; expr53 : R; expr45 : R; expr41 : R
}.

Definition section6 (st : state) (p : first_iteration) (q : second_iteration)
  : mode_outputs :=
  let expr51 :=
    (0.19 * (add50 q + s8 st)) + (0.57 * (add33 p + s7 st)) - (0.52 * s6 st) in
  let expr52 := (expr14 p - 4 * (add38 q + add48 q) + 6 * add40 q) + expr51 in
  let expr53 := 4 * (add40 q + expr51) - 8 * add48 q in
  let expr45 := (expr14 p - 2 * add38 q) + add40 q in
  let expr41 := 2 * (add38 q - add40 q) in
  mkModes expr51 expr52 expr53 expr45 expr41.

(** Section 7: the mode switch. *)
Definition section7 (mode_ : Z) (q : second_iteration) (m : mode_outputs)
  : R :=
  match mode_ with
  | 0%Z => expr51 m
  | 1%Z => expr52 m
  | 2%Z => expr53 m
  | 3%Z => add40 q
  | 4%Z => expr45 m
  | 5%Z => expr41 m
  | _ => add40 q
  end.

Definition process (st : state) (in1 in2 in3 in4 : R) : R * state :=
  let expr10 := in1 + (1e-11 * in4) in
  let c := section3 st in3 in
  let p := section4 st c in
  let q := section5 c p expr10 in
  let m := section6 st p q in
  let output := section7 (mode st) q m in
  (output,
   mkState (expr15 p) (expr39 q) (expr44 q) (expr49 q)
           (add50 q) (expr51 m) (add50 q) (add33 p)
           (expr35 q) expr10
           (rc st) (fc st) (mode st) (sr st) (expr1 st) (expr2 st)).

(** An object whose memory was all zero before construction. *)
Definition zero_mem : state :=
  mkState 0 0 0 0 0 0 0 0 0 0 0 0 0%Z 0 0 0.

(** A filter whose memory is all zero. *)
Definition at_rest (st : state) : Prop :=
  s1 st = 0 /\ s2 st = 0 /\ s3 st = 0 /\ s4 st = 0 /\ s5 st = 0 /\
  s6 st = 0 /\ s7 st = 0 /\ s8 st = 0 /\ slim st = 0 /\ previn st = 0.

(** The outputs of feeding a sequence of (in1, in2, in3, in4). *)
Fixpoint outputs (st : state) (ins : list (R * R * R * R)) : list R :=
  match ins with
  | [] => []
  | (in1, in2, in3, in4) :: rest =>
      fst (process st in1 in2 in3 in4)
      :: outputs (snd (process st in1 in2 in3 in4)) rest
  end.

End MoogLadderFilterScalar.

(* ================================================================== *)
(** * Four-lane nonlinear filter (MoogLadderFilterSIMD) *)
(* ================================================================== *)

Module MoogLadderFilterSIMD.
Import MoogLadderFilterBase.
Local Open Scope R_scope.

Record state := mkState {
  s1 : float32x4_t; s2 : float32x4_t; s3 : float32x4_t; s4 : float32x4_t;
  s5 : float32x4_t; s6 : float32x4_t; s7 : float32x4_t; s8 : float32x4_t;
  slim : float32x4_t;
  previn : float32x4_t;
  fc : float32x4_t;
  rc : float32x4_t;
  expr1 : float32x4_t;
  expr2 : float32x4_t;
  expr1_scalar : R;
  expr2_scalar : R;
  sr : R;
  mode : Z
}.

(** The member function of the class, which the members call. *)
Definition clamp_f32x4 (input : float32x4_t) (minVal maxVal : R)
  : float32x4_t :=
  vmaxq_f32 (vminq_f32 input (vdupq_n_f32 maxVal)) (vdupq_n_f32 minVal).

Definition reset (st : state) : state :=
  let zero := vdupq_n_f32 0 in
  mkState zero zero zero zero zero zero zero zero zero zero
          (vdupq_n_f32 1) zero (expr1 st) (expr2 st)
          (expr1_scalar st) (expr2_scalar st) (sr st) 0%Z.

Definition setSampleRate (st : state) (sr_ : R) : state :=
  let expr1_scalar' := sqrt (clamp (12.5 / sr_) 0.0001 1) in
  let expr2_scalar' := - ln expr1_scalar' in
  mkState (s1 st) (s2 st) (s3 st) (s4 st) (s5 st) (s6 st) (s7 st) (s8 st)
          (slim st) (previn st) (fc st) (rc st)
          (vdupq_n_f32 expr1_scalar') (vdupq_n_f32 expr2_scalar')
          expr1_scalar' expr2_scalar' sr_ (mode st).

Definition new (raw : state) (sampleRate : R) : state :=
  reset (setSampleRate raw sampleRate).

Definition setParams (st : state) (cutoff resonance : float32x4_t)
  (modeSel : Z) : state :=
  mkState (s1 st) (s2 st) (s3 st) (s4 st) (s5 st) (s6 st) (s7 st) (s8 st)
          (slim st) (previn st) cutoff (clamp_f32x4 resonance 0 1)
          (expr1 st) (expr2 st) (expr1_scalar st) (expr2_scalar st)
          (sr st) modeSel.

Definition process (recpe : R -> R) (st : state)
  (in1 in2 in3 in4 : float32x4_t) : float32x4_t * state :=
  let expr10 := vmlaq_f32 in1 (vdupq_n_f32 1e-11) in4 in
  let envShaped :=
    vdivq_f32 recpe
      (vsubq_f32 (vmulq_f32 (vdupq_n_f32 1.05)
                            (vmaxq_f32 in3 (vdupq_n_f32 1e-5)))
                 (rc st))
      (vdupq_n_f32 4) in
  let envShaped := clamp_f32x4 envShaped (-1) 1 in
  let rc_mod := vaddq_f32 (rc st) envShaped in
  let expr3 := vmulq_f32 (fc st) (fc st) in
  let expr4 := vmulq_f32 expr3 (vsubq_f32 (vdupq_n_f32 1) rc_mod) in
  let expr5 := vaddq_f32 expr3 (vmulq_f32 expr4 expr4) in
  let expr6 :=
    vmulq_f32 (vaddq_f32 (vdupq_n_f32 1.25)
      (vmulq_f32 (vsubq_f32 (vdupq_n_f32 (-0.74375))
        (vmulq_f32 (vdupq_n_f32 (-0.3)) expr5)) expr5)) expr5 in
  let expr7 :=
    vmulq_f32 rc_mod (vaddq_f32 (vdupq_n_f32 1.4)
      (vmulq_f32 (vaddq_f32 (vdupq_n_f32 0.108)
        (vmulq_f32 (vaddq_f32 (vdupq_n_f32 (-0.164))
          (vmulq_f32 (vdupq_n_f32 (-0.069)) expr6)) expr6)) expr6)) in
  let expr8 :=
    vaddq_f32 (vdupq_n_f32 0.18)
      (vmulq_f32 (vdupq_n_f32 0.25) (vmulq_f32 expr7 expr7)) in
  let rsub9 := vsubq_f32 (vdupq_n_f32 1) expr6 in
  let expr12 :=
    vsubq_f32 (vmulq_f32 (previn st) expr8) (vmulq_f32 expr7 (s5 st)) in
  let expr13 :=
    clamp_f32x4 (vaddq_f32
      (vmulq_f32 (vmulq_f32 (vdupq_n_f32 0.062) expr12) expr12)
      (vmulq_f32 (vdupq_n_f32 0.993) (slim st))) (-1) 1 in
  let expr14 :=
    vmulq_f32 expr12 (vaddq_f32
      (vsubq_f32 (vdupq_n_f32 1) expr13)
      (vmulq_f32 (vmulq_f32 (vdupq_n_f32 0.5) expr13) expr13)) in
  let expr15 :=
    vaddq_f32 (vmulq_f32 expr14 expr6) (vmulq_f32 rsub9 (s1 st)) in
  let expr23 :=
    vaddq_f32 (vmulq_f32
      (vaddq_f32 expr15 (vmulq_f32 (s1 st) (vdupq_n_f32 0.3))) expr6)
      (vmulq_f32 rsub9 (s2 st)) in
  let add27 := vaddq_f32 expr23 (vmulq_f32 (s2 st) (vdupq_n_f32 0.3)) in
  let clamp28 := clamp_f32x4 add27 (-1) 1 in
  let expr29 :=
    vmulq_f32 clamp28 (vsubq_f32 (vdupq_n_f32 1)
      (vmulq_f32 (vmulq_f32 (vdupq_n_f32 0.3333333) clamp28) clamp28)) in
  let expr30 :=
    vaddq_f32 (vmulq_f32 expr29 expr6) (vmulq_f32 rsub9 (s3 st)) in
  let output :=
    match mode st with
    | 0%Z => expr30
    | _ => expr30
    end in
  (output,
   mkState expr15 expr23 expr30 (s4 st) (s5 st) (s6 st) (s7 st) (s8 st)
           expr13 expr10 (fc st) (rc st) (expr1 st) (expr2 st)
           (expr1_scalar st) (expr2_scalar st) (sr st) (mode st)).

Definition zero_mem : state :=
  let zero := vdupq_n_f32 0 in
  mkState zero zero zero zero zero zero zero zero zero zero zero zero
          zero zero 0 0 0 0%Z.

End MoogLadderFilterSIMD.

(* ================================================================== *)
(** * Double-precision nonlinear filter (MSPMoogLadderFilter) *)
(* ================================================================== *)

Module MSPMoogLadderFilter.
Local Open Scope R_scope.

Record state := mkState {
  previousInput : R;
  resonanceCoefficient : R;
  cutoffFrequency : R;
  stage1State : R;
  stage2State : R;
  stage3State : R;
  stage4State : R;
  saturationState : R;
  stage4DelayedOutput : R;
  combinedOutput1 : R;
  combinedOutput2 : R;
  finalFilterOutput : R;
  sampleRate : R;
  frequencyScaleFactor : R;
  frequencyWarpFactor : R
}.

Definition fixDenormalNumbers (value : R) : R :=
  if Rlt_dec (Rabs value) 1e-18 then 0 else value.

(** [std::clamp(v, lo, hi)]. *)
Definition std_clamp (v lo hi : R) : R :=
  if Rlt_dec v lo then lo else if Rlt_dec hi v then hi else v.

Definition new (sampleRate_ : R) : state :=
  let maxFreqRatio := Rmin 1 (Rmax 0.0001 (12.5 / sampleRate_)) in
  let frequencyScaleFactor_ := sqrt maxFreqRatio in
  mkState 0 0 1 0 0 0 0 0 0 0 0 0 sampleRate_
          frequencyScaleFactor_ (- ln frequencyScaleFactor_).

(** Sections 1 and 2 of [processSample]: smoothed cutoff and the
    resonance-dependent coefficients. *)
Record coefficients := mkCoefficients {
  nextCutoffFrequency : R;
  resonanceScaling : R;
  feedbackStrength : R;
  inputScaling : R;
  inverseResonanceScaling : R;
  smoothedResonanceCoeff : R
}.

Definition section1 (st : state) (envelopeControl : R) : R :=
  let scaledEnvelope := envelopeControl * 0.90193 in
  let offsetEnvelope := scaledEnvelope + 7.29 in
  let normalizedEnv := offsetEnvelope / 127 in
  let clampedEnvelope := std_clamp normalizedEnv 0 0.99 in
  let warpedFrequency := clampedEnvelope * frequencyWarpFactor st in
  let freqTerm1 := 0.031261316 * warpedFrequency in
  let freqTerm2 := 0.00048274797 * warpedFrequency * warpedFrequency in
  let freqTerm3 :=
    5.949053e-06 * warpedFrequency * warpedFrequency * warpedFrequency in
  let frequencyPolynomial := 0.99999636 + freqTerm1 + freqTerm2 + freqTerm3 in
  let freqSquared := frequencyPolynomial * frequencyPolynomial in
  let freqToThe4th := freqSquared * freqSquared in
  let freqToThe8th := freqToThe4th * freqToThe4th in
  let freqToThe16th := freqToThe8th * freqToThe8th in
  let freqToThe32nd := freqToThe16th * freqToThe16th in
  let scaledCutoffFreq := freqToThe32nd * frequencyScaleFactor st in
  let frequencyChange := scaledCutoffFreq - cutoffFrequency st in
  let smoothedFreqChange := frequencyChange / 2 in
  let newCutoffFrequency := cutoffFrequency st + smoothedFreqChange in
  fixDenormalNumbers newCutoffFrequency.

Definition section2 (st : state) (nextCutoffFrequency_ resonanceControl : R)
  : coefficients :=
  let cutoffSquared := nextCutoffFrequency_ * nextCutoffFrequency_ in
  let resonanceCompensation :=
    cutoffSquared * (1 - resonanceCoefficient st) in
  let compensatedResonance :=
    cutoffSquared + (resonanceCompensation * resonanceCompensation) in
  let resonanceTerm1 := -0.74375 + 0.3 * compensatedResonance in
  let resonanceTerm2 :=
    (1.25 + resonanceTerm1 * compensatedResonance) * compensatedResonance in
  let resonanceScaling_ := resonanceTerm2 in
  let feedbackTerm1 :=
    0.108 + (-0.164 - 0.069 * resonanceScaling_) * resonanceScaling_ in
  let feedbackTerm2 :=
    (1.4 + feedbackTerm1 * resonanceScaling_) * resonanceScaling_ in
  let feedbackStrength_ := resonanceCoefficient st * feedbackTerm2 in
  let inputScaling_ := 0.18 + 0.25 * (feedbackStrength_ * feedbackStrength_) in
  let inverseResonanceScaling_ := 1 - resonanceScaling_ in
  let targetResonance := 1.05 * Rmin 1 (Rmax 1e-05 resonanceControl) in
  let resonanceChange := (targetResonance - resonanceCoefficient st) / 4 in
  let nextResonanceCoeff := resonanceCoefficient st + resonanceChange in
  let smoothedResonanceCoeff_ := fixDenormalNumbers nextResonanceCoeff in
  mkCoefficients nextCutoffFrequency_ resonanceScaling_ feedbackStrength_
                 inputScaling_ inverseResonanceScaling_
                 smoothedResonanceCoeff_.

(** Section 3: the first iteration. *)
Record first_iteration := mkFirst {
  feedbackSignal : R;
  currentSaturation : R;
  saturatedFeedback : R;
  stage1Input : R;
  stage2Output : R;
  stage3Output : R;
  stage4Output : R;
  stage4FinalOutput : R
}.

Definition section3 (st : state) (c : coefficients) : first_iteration :=
  let cleanPreviousInput := fixDenormalNumbers (previousInput st) in
  let feedbackSignal_ :=
    cleanPreviousInput * inputScaling c
    - feedbackStrength c * combinedOutput1 st in
  let saturationInput :=
    0.062 * feedbackSignal_ * feedbackSignal_ + 0.993 * saturationState st in
  let currentSaturation_ := Rmin 1 (Rmax (-1) saturationInput) in
  let saturationCurve :=
    1 - currentSaturation_ + 0.5 * currentSaturation_ * currentSaturation_ in
  let saturatedFeedback_ := feedbackSignal_ * saturationCurve in
  let stage1Input_ :=
    saturatedFeedback_ * resonanceScaling c
    + inverseResonanceScaling c * stage1State st in
  let stage1State_scaled := stage1State st * 0.3 in
  let stage3State_scaled := stage3State st * 0.3 in
  let stage4State_scaled := stage4State st * 0.3 in
  let stage2Input := stage1Input_ + stage1State_scaled in
  let stage2Output_ :=
    stage2Input * resonanceScaling c
    + inverseResonanceScaling c * stage2State st in
  let stage2State_scaled := stage2State st * 0.3 in
  let stage3Input := stage2Output_ + stage2State_scaled in
  let clampedStage3Input := std_clamp stage3Input (-1) 1 in
  let cubicSaturation :=
    clampedStage3Input
    * (1 - 0.3333333 * clampedStage3Input * clampedStage3Input) in
  let stage3Output_ :=
    cubicSaturation * resonanceScaling c
    + inverseResonanceScaling c * stage3State st in
  let stage4Input := stage3Output_ + stage3State_scaled in
  let stage4Output_ :=
    stage4Input * resonanceScaling c
    + inverseResonanceScaling c * stage4State st in
  let stage4FinalOutput_ := stage4Output_ + stage4State_scaled in
  mkFirst feedbackSignal_ currentSaturation_ saturatedFeedback_ stage1Input_
          stage2Output_ stage3Output_ stage4Output_ stage4FinalOutput_.

(** Section 4: the second iteration. *)
Record second_iteration := mkSecond {
  improvedFeedback : R;
  updatedSaturation : R;
  updatedStage1 : R;
  updatedStage1_withState : R;
  updatedStage2 : R;
  updatedStage2_withState : R;
  updatedStage3 : R;
  updatedStage3_withState : R;
  updatedStage4 : R;
  updatedStage4_withState : R
}.

Definition section4 (c : coefficients) (p : first_iteration) (noisyInput : R)
  : second_iteration :=
  let stage1Output_scaled := stage1Input p * 0.3 in
  let stage2Output_scaled := stage2Output p * 0.3 in
  let improvedFeedback_ :=
    noisyInput * inputScaling c - feedbackStrength c * stage4FinalOutput p in
  let newSaturationInput :=
    0.062 * improvedFeedback_ * improvedFeedback_
    + 0.993 * currentSaturation p in
  let updatedSaturation_ := Rmin 1 (Rmax (-1) newSaturationInput) in
  let updatedSaturationCurve :=
    1 - updatedSaturation_ + 0.5 * updatedSaturation_ * updatedSaturation_ in
  let updatedSaturatedFeedback := improvedFeedback_ * updatedSaturationCurve in
  let updatedStage1_ :=
    updatedSaturatedFeedback * resonanceScaling c
    + inverseResonanceScaling c * stage1Input p in
  let updatedStage1_withState_ := updatedStage1_ + stage1Output_scaled in
  let updatedStage2_ :=
    updatedStage1_withState_ * resonanceScaling c
    + inverseResonanceScaling c * stage2Output p in
  let updatedStage2_withState_ := updatedStage2_ + stage2Output_scaled in
  let clampedUpdatedStage2 := std_clamp updatedStage2_withState_ (-1) 1 in
  let updatedCubicSat :=
    clampedUpdatedStage2
    * (1 - 0.3333333 * clampedUpdatedStage2 * clampedUpdatedStage2) in
  let updatedStage3_ :=
    updatedCubicSat * resonanceScaling c
    + inverseResonanceScaling c * stage3Output p in
  let stage4State_scaled_updated := stage4Output p * 0.3 in
  let stage3State_scaled_updated := stage3Output p * 0.3 in
  let updatedStage3_withState_ := updatedStage3_ + stage3State_scaled_updated in
  let updatedStage4_ :=
    updatedStage3_withState_ * resonanceScaling c
    + inverseResonanceScaling c * stage4Output p in
  let updatedStage4_withState_ := updatedStage4_ + stage4State_scaled_updated in
  mkSecond improvedFeedback_ updatedSaturation_ updatedStage1_
           updatedStage1_withState_ updatedStage2_ updatedStage2_withState_
           updatedStage3_ updatedStage3_withState_ updatedStage4_
           updatedStage4_withState_.

(** Section 5: the mode combinations. *)
Record responses := mkResponses {
  stageDifference : R;
  stageSum : R;
  lowpass24Response : R;
  complexResponse1 : R;
  complexResponse2 : R
}.

Definition section5 (st : state) (p : first_iteration) (q : second_iteration)
  : responses :=
  let stageDifference_ :=
    2 * (updatedStage1_withState q - updatedStage2_withState q) in
  let stageSum_ :=
    saturatedFeedback p + (-2 * updatedStage1_withState q)
    + updatedStage2_withState q in
  let lowpass24Response_ :=
    0.19 * (updatedStage4_withState q + stage4DelayedOutput st)
    + 0.57 * (stage4FinalOutput p + combinedOutput1 st)
    - 0.52 * combinedOutput2 st in
  let complexResponse1_ :=
    saturatedFeedback p
    + (-4 * (updatedStage1_withState q + updatedStage3_withState q))
    + 6 * updatedStage2_withState q + lowpass24Response_ in
  let complexResponse2_ :=
    4 * (updatedStage2_withState q + lowpass24Response_)
    - 8 * updatedStage3_withState q in
  mkResponses stageDifference_ stageSum_ lowpass24Response_
              complexResponse1_ complexResponse2_.

(** Section 6: [switch (filterMode + 1)]. *)
Definition section6 (filterMode : Z) (q : second_iteration) (r : responses)
  : R :=
  match (filterMode + 1)%Z with
  | 1%Z => lowpass24Response r
  | 2%Z => complexResponse1 r
  | 3%Z => complexResponse2 r
  | 4%Z => updatedStage2_withState q
  | 5%Z => stageSum r
  | 6%Z => stageDifference r
  | _ => lowpass24Response r
  end.

Definition processSample (st : state)
  (inputSignal envelopeControl resonanceControl thermalNoise : R)
  (filterMode : Z) : R * state :=
  let c := section2 st (section1 st envelopeControl) resonanceControl in
  let noisyInput := inputSignal + 1e-11 * thermalNoise in
  let p := section3 st c in
  let q := section4 c p noisyInput in
  let r := section5 st p q in
  let selectedOutput := section6 filterMode q r in
  (selectedOutput,
   mkState (fixDenormalNumbers noisyInput)
           (smoothedResonanceCoeff c)
           (nextCutoffFrequency c)
           (fixDenormalNumbers (updatedStage1 q))
           (fixDenormalNumbers (updatedStage2 q))
           (fixDenormalNumbers (updatedStage3 q))
           (fixDenormalNumbers (updatedStage4 q))
           (fixDenormalNumbers (updatedSaturation q))
           (fixDenormalNumbers (stage4FinalOutput p))
           (fixDenormalNumbers (updatedStage4_withState q))
           (fixDenormalNumbers (lowpass24Response r))
           (finalFilterOutput st)
           (sampleRate st) (frequencyScaleFactor st)
           (frequencyWarpFactor st)).

(** "Zero, or at least [threshold] in magnitude". *)
Definition flushed (threshold v : R) : Prop := v = 0 \/ threshold <= Rabs v.

(** Every stored value of the filter memory is flushed. *)
Definition state_flushed (st : state) : Prop :=
  flushed 1e-18 (previousInput st) /\
  flushed 1e-18 (cutoffFrequency st) /\
  flushed 1e-18 (resonanceCoefficient st) /\
  flushed 1e-18 (stage1State st) /\
  flushed 1e-18 (stage2State st) /\
  flushed 1e-18 (stage3State st) /\
  flushed 1e-18 (stage4State st) /\
  flushed 1e-18 (saturationState st) /\
  flushed 1e-18 (stage4DelayedOutput st) /\
  flushed 1e-18 (combinedOutput1 st) /\
  flushed 1e-18 (combinedOutput2 st) /\
  flushed 1e-18 (finalFilterOutput st).

(** No signal is stored: every register that holds a signal value is 0
    (the two smoothed control values are left open). *)
Definition quiet (st : state) : Prop :=
  previousInput st = 0 /\ stage1State st = 0 /\ stage2State st = 0 /\
  stage3State st = 0 /\ stage4State st = 0 /\ saturationState st = 0 /\
  stage4DelayedOutput st = 0 /\ combinedOutput1 st = 0 /\
  combinedOutput2 st = 0.

(** The arguments of one [processSample] call. *)
Record sample := mkSample {
  inputSignal : R;
  envelopeControl : R;
  resonanceControl : R;
  thermalNoise : R;
  filterMode : Z
}.

(** The state after feeding a sequence of calls. *)
Definition run (st : state) (ins : list sample) : state :=
  fold_left
    (fun s a =>
       snd (processSample s (inputSignal a) (envelopeControl a)
              (resonanceControl a) (thermalNoise a) (filterMode a)))
    ins st.

End MSPMoogLadderFilter.

(* ================================================================== *)
(** * Earlier ZDF ladder (DEV/ZDFMoogLadderFilter) *)
(* ================================================================== *)

Module DEV_ZDFMoogLadderFilter.
Local Open Scope R_scope.

Record state := mkState {
  sampleRate : R;
  resonance : R;
  feedbackGain : R;
  G : R;
  stage : nat -> R;
  z : nat -> R
}.

Definition reset (st : state) : state :=
  let clear (sz : (nat -> R) * (nat -> R)) (i : nat) :=
    (ZDFMoogLadderFilter.upd (fst sz) i 0,
     ZDFMoogLadderFilter.upd (snd sz) i 0) in
  let sz := fold_left clear (seq 0 4) (stage st, z st) in
  mkState (sampleRate st) (resonance st) (feedbackGain st) (G st)
          (fst sz) (snd sz).

Definition setCutoff (st : state) (cutoffHz : R) : state :=
  let cutoffHz :=
    ZDFMoogLadderFilter.clamp_float cutoffHz 20 (sampleRate st * 0.45) in
  let wd := 2 * PI * cutoffHz in
  let T := 1 / sampleRate st in
  let wa := (2 / T) * tan (wd * T / 2) in
  mkState (sampleRate st) (resonance st) (resonance st * 4)
          (wa * T / 2) (stage st) (z st).

Definition setResonance (st : state) (r : R) : state :=
  let resonance' := ZDFMoogLadderFilter.clamp_float r 0 1 in
  mkState (sampleRate st) resonance' (resonance' * 4) (G st)
          (stage st) (z st).

Definition process (st : state) (input : R) : R * state :=
  let u := input - feedbackGain st * stage st 3%nat in
  let '(_, stage', z') :=
    fold_left (ZDFMoogLadderFilter.ladder_stage (G st)) (seq 0 4)
              (u, stage st, z st) in
  (stage' 3%nat,
   mkState (sampleRate st) (resonance st) (feedbackGain st) (G st)
           stage' z').

(** The outputs of feeding an input sequence. *)
Fixpoint outputs (st : state) (ins : list R) : list R :=
  match ins with
  | [] => []
  | x :: rest => fst (process st x) :: outputs (snd (process st x)) rest
  end.

End DEV_ZDFMoogLadderFilter.

(* ================================================================== *)
(** * Empirically tuned ladder (DEV/EmpiricallyTunedMoogFilter) *)
(* ================================================================== *)

Module MoogFilter.
Local Open Scope R_scope.

Definition fastTanh (x : R) : R :=
  let x2 := x * x in
  x * (27 + x2) / (27 + 9 * x2).

Record state := mkState {
  cutoff : R;
  resonance : R;
  sampleRate : R;
  fc : R;
  f : R;
  k : R;
  p : R;
  scale : R;
  stage : nat -> R;
  delay : nat -> R
}.

Definition updateCoefficients (st : state) : state :=
  let fc' := cutoff st / sampleRate st in
  let f' := fc' * 1.16 in
  let k' := 4 * (resonance st) * (1 - 0.15 * f' * f') in
  let p' := f' * (1.8 - 0.8 * f') in
  let scale' := 1 - p' in
  mkState (cutoff st) (resonance st) (sampleRate st) fc' f' k' p' scale'
          (stage st) (delay st).

(** The constructor; both arrays carry zero initialisers. *)
Definition new (sr : R) : state :=
  updateCoefficients
    (mkState 1000 0 sr 0 0 0 0 0 (fun _ => 0) (fun _ => 0)).

Definition setCutoff (st : state) (frequency : R) : state :=
  let cutoff' := frequency in
  let cutoff' := if Rlt_dec cutoff' 20 then 20 else cutoff' in
  let cutoff' :=
    if Rgt_dec cutoff' (sampleRate st / 2.5) then sampleRate st / 2.5
    else cutoff' in
  updateCoefficients
    (mkState cutoff' (resonance st) (sampleRate st) (fc st) (f st) (k st)
             (p st) (scale st) (stage st) (delay st)).

Definition setResonance (st : state) (r : R) : state :=
  let resonance' := r in
  let resonance' := if Rlt_dec resonance' 0 then 0 else resonance' in
  let resonance' := if Rgt_dec resonance' 1 then 1 else resonance' in
  updateCoefficients
    (mkState (cutoff st) resonance' (sampleRate st) (fc st) (f st) (k st)
             (p st) (scale st) (stage st) (delay st)).

Definition getCutoff (st : state) : R := cutoff st.
Definition getResonance (st : state) : R := resonance st.

(** The body of [process], with the saturation it applies after every
    stage as the parameter [sat]. *)
Definition process_with (sat : R -> R) (st : state) (input : R)
  : R * state :=
  let upd := ZDFMoogLadderFilter.upd in
  let x := input - k st * delay st 3%nat in
  let stage_ := upd (stage st) 0%nat (x * p st + delay st 0%nat * scale st) in
  let stage_ := upd stage_ 0%nat (sat (stage_ 0%nat)) in
  let delay_ := upd (delay st) 0%nat (stage_ 0%nat) in
  let stage_ :=
    upd stage_ 1%nat (stage_ 0%nat * p st + delay_ 1%nat * scale st) in
  let stage_ := upd stage_ 1%nat (sat (stage_ 1%nat)) in
  let delay_ := upd delay_ 1%nat (stage_ 1%nat) in
  let stage_ :=
    upd stage_ 2%nat (stage_ 1%nat * p st + delay_ 2%nat * scale st) in
  let stage_ := upd stage_ 2%nat (sat (stage_ 2%nat)) in
  let delay_ := upd delay_ 2%nat (stage_ 2%nat) in
  let stage_ :=
    upd stage_ 3%nat (stage_ 2%nat * p st + delay_ 3%nat * scale st) in
  let stage_ := upd stage_ 3%nat (sat (stage_ 3%nat)) in
  let delay_ := upd delay_ 3%nat (stage_ 3%nat) in
  (stage_ 3%nat,
   mkState (cutoff st) (resonance st) (sampleRate st) (fc st) (f st) (k st)
           (p st) (scale st) stage_ delay_).

(** [MoogFilter::process]: the saturation is [fastTanh]. *)
Definition process (st : state) (input : R) : R * state :=
  process_with fastTanh st input.

(** [processBlock] over the [numSamples] entries of [input]. *)
Fixpoint processBlock (st : state) (input : list R) : list R * state :=
  match input with
  | [] => ([], st)
  | x :: rest =>
      let '(y, st1) := process st x in
      let '(ys, st2) := processBlock st1 rest in
      (y :: ys, st2)
  end.

Definition reset (st : state) : state :=
  let clear (sd : (nat -> R) * (nat -> R)) (i : nat) :=
    (ZDFMoogLadderFilter.upd (fst sd) i 0,
     ZDFMoogLadderFilter.upd (snd sd) i 0) in
  let sd := fold_left clear (seq 0 4) (stage st, delay st) in
  mkState (cutoff st) (resonance st) (sampleRate st) (fc st) (f st) (k st)
          (p st) (scale st) (fst sd) (snd sd).

End MoogFilter.

(* ================================================================== *)
(** * Four-at-a-time block processing (DEV/NeonMoogFilter.cpp) *)
(* ================================================================== *)

Module NeonMoogFilterBlock.
Import MoogLadderFilterBase.
Local Open Scope R_scope.

Definition vgetq_lane_f32_0 (v : float32x4_t) : R :=
  let '(v0, _, _, _) := v in v0.

Definition fastTanhSIMD (recpe : R -> R) (x : float32x4_t) : float32x4_t :=
  let twentySeven := vdupq_n_f32 27 in
  let nine := vdupq_n_f32 9 in
  let x2 := vmulq_f32 x x in
  let num := vmulq_f32 x (vaddq_f32 twentySeven x2) in
  let den := vaddq_f32 twentySeven (vmulq_f32 nine x2) in
  NeonMoogFilter.neon_divide_f32 recpe num den.

(** One lane of [fastTanhSIMD]. *)
Definition fastTanhLane (recpe : R -> R) (x : R) : R :=
  let den := 27 + 9 * (x * x) in
  x * (27 + x * x)
  * NeonMoogFilter.newton_raphson den
      (NeonMoogFilter.newton_raphson den (recpe den)).

(** [processBlockSIMD]: groups of four samples while at least four are
    left, then the scalar loop for the remainder. *)
Fixpoint processBlockSIMD (recpe : R -> R) (st : MoogFilter.state)
  (input : list R) : list R * MoogFilter.state :=
  match input with
  | x0 :: x1 :: x2 :: x3 :: rest =>
      let upd := ZDFMoogLadderFilter.upd in
      let pVec := vdupq_n_f32 (MoogFilter.p st) in
      let scaleVec := vdupq_n_f32 (MoogFilter.scale st) in
      let kVec := vdupq_n_f32 (MoogFilter.k st) in
      let delay_ := MoogFilter.delay st in
      let inputVec := (x0, x1, x2, x3) in
      let xVec :=
        vsubq_f32 inputVec (vmulq_f32 kVec (vdupq_n_f32 (delay_ 3%nat))) in
      let stage0Vec :=
        vaddq_f32 (vmulq_f32 xVec pVec)
                  (vmulq_f32 (vdupq_n_f32 (delay_ 0%nat)) scaleVec) in
      let stage0Vec := fastTanhSIMD recpe stage0Vec in
      let delay_ := upd delay_ 0%nat (vgetq_lane_f32_0 stage0Vec) in
      let stage1Vec :=
        vaddq_f32 (vmulq_f32 stage0Vec pVec)
                  (vmulq_f32 (vdupq_n_f32 (delay_ 1%nat)) scaleVec) in
      let stage1Vec := fastTanhSIMD recpe stage1Vec in
      let delay_ := upd delay_ 1%nat (vgetq_lane_f32_0 stage1Vec) in
      let stage2Vec :=
        vaddq_f32 (vmulq_f32 stage1Vec pVec)
                  (vmulq_f32 (vdupq_n_f32 (delay_ 2%nat)) scaleVec) in
      let stage2Vec := fastTanhSIMD recpe stage2Vec in
      let delay_ := upd delay_ 2%nat (vgetq_lane_f32_0 stage2Vec) in
      let stage3Vec :=
        vaddq_f32 (vmulq_f32 stage2Vec pVec)
                  (vmulq_f32 (vdupq_n_f32 (delay_ 3%nat)) scaleVec) in
      let stage3Vec := fastTanhSIMD recpe stage3Vec in
      let delay_ := upd delay_ 3%nat (vgetq_lane_f32_0 stage3Vec) in
      let st1 :=
        MoogFilter.mkState (MoogFilter.cutoff st) (MoogFilter.resonance st)
          (MoogFilter.sampleRate st) (MoogFilter.fc st) (MoogFilter.f st)
          (MoogFilter.k st) (MoogFilter.p st) (MoogFilter.scale st)
          (MoogFilter.stage st) delay_ in
      let '(y0, y1, y2, y3) := stage3Vec in
      let '(ys, st2) := processBlockSIMD recpe st1 rest in
      (y0 :: y1 :: y2 :: y3 :: ys, st2)
  | _ => MoogFilter.processBlock st input
  end.

End NeonMoogFilterBlock.

(* ================================================================== *)
(** * Resonance ramp (ResonanceRamp) *)
(* ================================================================== *)

Module ResonanceRamp.
Local Open Scope R_scope.

Record state := mkState {
  sampleRate : R;
  currentValue : R;
  targetValue : R;
  incrementPerSample : R
}.

Definition new (rate rampTimeMs : R) : state :=
  mkState rate 0.5 0.5 (1 / (rampTimeMs * 0.001 * rate)).

Definition setTarget (st : state) (targetRes : R) : state :=
  mkState (sampleRate st) (currentValue st) targetRes
          (incrementPerSample st).

Definition process (st : state) : R * state :=
  let update c :=
    (c, mkState (sampleRate st) c (targetValue st) (incrementPerSample st)) in
  if Rlt_dec (currentValue st) (targetValue st) then
    let c := currentValue st + incrementPerSample st in
    update (if Rgt_dec c (targetValue st) then targetValue st else c)
  else if Rgt_dec (currentValue st) (targetValue st) then
    let c := currentValue st - incrementPerSample st in
    update (if Rlt_dec c (targetValue st) then targetValue st else c)
  else (currentValue st, st).

(** The ramp after [n] calls of [process]. *)
Definition after (n : nat) (st : state) : state :=
  Nat.iter n (fun s => snd (process s)) st.

End ResonanceRamp.

(* ================================================================== *)
(** * Keyboard tracking (KeyFollow) *)
(* ================================================================== *)

Module KeyFollow.
Local Open Scope R_scope.

Record state := mkState { keyFollowAmount : R }.

Definition new (amount : R) : state := mkState amount.

Definition setKeyFollowAmount (st : state) (amount : R) : state :=
  mkState amount.

Definition process (st : state) (midiNote : Z) : R :=
  let noteScaled := IZR (Int32.sub midiNote 36) in
  let noteScaled := if Rlt_dec noteScaled 0 then 0 else noteScaled in
  let noteScaled := noteScaled * 0.33 in
  let noteScaled := noteScaled + 36 in
  noteScaled * keyFollowAmount st.

End KeyFollow.

(* ================================================================== *)
(** * Legato detection (PortamentoFilter) *)
(* ================================================================== *)

Module PortamentoFilter.
Local Open Scope R_scope.

Record state := mkState {
  previousNote : Z;
  previousNoteActive : bool;
  previousNoteOffTime : R
}.

Definition new : state := mkState (-1) false 0.

Definition checkPortamento (st : state) (newNote : Z) (noteOn : bool)
  (currentTimeMs : R) : bool * state :=
  if noteOn then
    let triggerPortamento :=
      if (previousNoteActive st && negb (previousNote st =? newNote)%Z)%bool
      then true else false in
    (triggerPortamento, mkState newNote true (previousNoteOffTime st))
  else
    (false, mkState (previousNote st) false currentTimeMs).

(** A note event as the audio callback passes it on: note number, whether
    it is a note-on, and its time. *)
Definition event : Type := (Z * bool * R)%type.

(** The answers of [checkPortamento] over a sequence of events. *)
Fixpoint answers (st : state) (evs : list event) : list bool :=
  match evs with
  | [] => []
  | (note, on, t) :: rest =>
      let '(b, st1) := checkPortamento st note on t in
      b :: answers st1 rest
  end.

(** A reference for the answers, read off two consecutive events alone: an
    event triggers a glide when it is a note-on and the event just before
    it was a note-on of a different note. *)
Fixpoint legato_reference (prev : option event) (evs : list event)
  : list bool :=
  match evs with
  | [] => []
  | (note, on, t) :: rest =>
      (match prev with
       | Some (note', true, _) => on && negb (note' =? note)%Z
       | _ => false
       end)%bool :: legato_reference (Some (note, on, t)) rest
  end.

End PortamentoFilter.

(* ================================================================== *)
(** * Pitch glide (PortamentoPlayer) *)
(* ================================================================== *)

Module PortamentoPlayer.
Local Open Scope R_scope.

Record state := mkState {
  currentNote : Z;
  sampleRate : R;
  currentFreq : R;
  targetFreq : R;
  incrementPerSample : R;
  portamentoTimeMs : R;
  noteIsOn : bool
}.

(** The constructor; [currentNote] keeps what the memory [raw] held. *)
Definition new (raw : state) (sampleRate_ defaultPortamentoTimeMs : R)
  : state :=
  mkState (currentNote raw) sampleRate_ 0 0 0 defaultPortamentoTimeMs false.

Definition setPortamentoTime (st : state) (timeMs : R) : state :=
  mkState (currentNote st) (sampleRate st) (currentFreq st) (targetFreq st)
          (incrementPerSample st) timeMs (noteIsOn st).

Definition midiToFreq (midiNote : Z) : R :=
  440 * Rpower 2 (IZR (Int32.sub midiNote 69) / 12).

Definition noteOn (st : state) (midiNote : Z) (portamentoOn : bool)
  : state :=
  let targetFreq' := midiToFreq midiNote in
  if (negb portamentoOn
      || (if Req_dec_T (currentFreq st) 0 then true else false))%bool
  then
    mkState midiNote (sampleRate st) targetFreq' targetFreq' 0
            (portamentoTimeMs st) true
  else
    let portamentoSamples := (portamentoTimeMs st / 1000) * sampleRate st in
    mkState midiNote (sampleRate st) (currentFreq st) targetFreq'
            ((targetFreq' - currentFreq st) / portamentoSamples)
            (portamentoTimeMs st) true.

Definition noteOff (st : state) : state :=
  mkState (currentNote st) (sampleRate st) (currentFreq st) (targetFreq st)
          (incrementPerSample st) (portamentoTimeMs st) false.

Definition interpolateFrequency (st : state) : R * state :=
  if Req_dec_T (incrementPerSample st) 0 then (currentFreq st, st)
  else if Rle_dec (Rabs (targetFreq st - currentFreq st))
                  (Rabs (incrementPerSample st))
  then
    (targetFreq st,
     mkState (currentNote st) (sampleRate st) (targetFreq st) (targetFreq st)
             0 (portamentoTimeMs st) (noteIsOn st))
  else
    (currentFreq st + incrementPerSample st,
     mkState (currentNote st) (sampleRate st)
             (currentFreq st + incrementPerSample st) (targetFreq st)
             (incrementPerSample st) (portamentoTimeMs st) (noteIsOn st)).

Definition getCurrentNote (st : state) : Z := currentNote st.
Definition getCurrentFreq (st : state) : R := currentFreq st.

Definition process (st : state) : R * state :=
  if (noteIsOn st
      || (if Req_dec_T (currentFreq st) (targetFreq st) then false else true))%bool
  then interpolateFrequency st
  else (currentFreq st, st).

(** The player after [n] calls of [process]. *)
Definition after (n : nat) (st : state) : state :=
  Nat.iter n (fun s => snd (process s)) st.

End PortamentoPlayer.

(* ================================================================== *)
(** * Delayed MIDI queue (MidiHandler) *)
(* ================================================================== *)

Module MidiHandler.
Local Open Scope R_scope.

Record MidiNoteMessage := mkMessage {
  noteNumber : Z;
  velocity : Z;
  timestamp : R
}.

(** The two [std::queue]s are lists, front first. *)
Record state := mkState {
  sampleRate : R;
  delayTimeMs : R;
  incomingMessages : list MidiNoteMessage;
  delayedMessages : list MidiNoteMessage
}.

Definition new (sampleRate_ delayMs : R) : state :=
  mkState sampleRate_ delayMs [] [].

Definition processMidiMessage (st : state) (noteNumber_ velocity_ : Z)
  (currentTimeMs : R) : state :=
  let msg := mkMessage noteNumber_ velocity_ currentTimeMs in
  mkState (sampleRate st) (delayTimeMs st)
          (incomingMessages st ++ [msg]) (delayedMessages st).

(** The loop of [update] on the two queues. *)
Fixpoint update_loop (delay currentTimeMs : R)
  (incoming delayed : list MidiNoteMessage)
  : list MidiNoteMessage * list MidiNoteMessage :=
  match incoming with
  | [] => ([], delayed)
  | msg :: rest =>
      if Rge_dec (currentTimeMs - timestamp msg) delay
      then update_loop delay currentTimeMs rest (delayed ++ [msg])
      else (incoming, delayed)
  end.

Definition update (st : state) (currentTimeMs : R) : state :=
  let '(incoming, delayed) :=
    update_loop (delayTimeMs st) currentTimeMs
                (incomingMessages st) (delayedMessages st) in
  mkState (sampleRate st) (delayTimeMs st) incoming delayed.

Definition hasDelayedMessage (st : state) : bool :=
  match delayedMessages st with [] => false | _ => true end.

Definition popDelayedMessage (st : state) : MidiNoteMessage * state :=
  match delayedMessages st with
  | [] => (mkMessage (-1) (-1) (-1), st)
  | msg :: rest =>
      (msg, mkState (sampleRate st) (delayTimeMs st)
                    (incomingMessages st) rest)
  end.

(** A message is due when it has waited for the whole delay. *)
Definition due (st : state) (currentTimeMs : R) (msg : MidiNoteMessage)
  : Prop :=
  currentTimeMs - timestamp msg >= delayTimeMs st.

End MidiHandler.

(* ================================================================== *)
(** * Bilinear-transform ladder (DEV/BilinearTransformMoogLadderFilter) *)
(* ================================================================== *)

Module MoogLadderFilter.
Local Open Scope R_scope.

Record state := mkState {
  sampleRate : R;
  cutoff : R;
  resonance : R;
  tuning : R;
  feedback : R;
  y : nat -> R
}.

Definition updateCoefficients (st : state) : state :=
  let fc := cutoff st / sampleRate st in
  mkState (sampleRate st) (cutoff st) (resonance st)
          (tan (PI * fc)) (resonance st * 4) (y st).

(** The constructor; [y] carries a zero initialiser, and both coefficients
    are written by [updateCoefficients]. *)
Definition new (rate : R) : state :=
  updateCoefficients (mkState rate 1000 0.5 0 0 (fun _ => 0)).

Definition setSampleRate (st : state) (rate : R) : state :=
  updateCoefficients
    (mkState rate (cutoff st) (resonance st) (tuning st) (feedback st)
             (y st)).

Definition setCutoff (st : state) (cutoffHz : R) : state :=
  updateCoefficients
    (mkState (sampleRate st)
             (Rmin (Rmax cutoffHz 5) (0.45 * sampleRate st))
             (resonance st) (tuning st) (feedback st) (y st)).

Definition setResonance (st : state) (res : R) : state :=
  updateCoefficients
    (mkState (sampleRate st) (cutoff st) (Rmin (Rmax res 0) 1)
             (tuning st) (feedback st) (y st)).

Definition process (st : state) (input : R) : R * state :=
  let upd := ZDFMoogLadderFilter.upd in
  let x := input - feedback st * y st 3%nat in
  let y_ :=
    upd (y st) 0%nat
        (y st 0%nat + tuning st * (tanh x - tanh (y st 0%nat))) in
  let y_ :=
    upd y_ 1%nat (y_ 1%nat + tuning st * (tanh (y_ 0%nat) - tanh (y_ 1%nat))) in
  let y_ :=
    upd y_ 2%nat (y_ 2%nat + tuning st * (tanh (y_ 1%nat) - tanh (y_ 2%nat))) in
  let y_ :=
    upd y_ 3%nat (y_ 3%nat + tuning st * (tanh (y_ 2%nat) - tanh (y_ 3%nat))) in
  (y_ 3%nat,
   mkState (sampleRate st) (cutoff st) (resonance st) (tuning st)
           (feedback st) y_).

(** The outputs of feeding an input sequence. *)
Fixpoint outputs (st : state) (ins : list R) : list R :=
  match ins with
  | [] => []
  | x :: rest => fst (process st x) :: outputs (snd (process st x)) rest
  end.

End MoogLadderFilter.

(* ================================================================== *)
(** * Proof automation *)
(* ================================================================== *)

(** Name the next local definition of [H : q = let x := v in ...] as the
    context definition [y]. *)
Ltac next_local H y :=
  match type of H with
  | ?q = (let x := ?v in @?b x) =>
      pose (y := v); change (q = b y) in H; cbv beta in H
  end.

(* ================================================================== *)
(** * Facts about 32-bit arithmetic *)
(* ================================================================== *)

Module Int32Facts.
Import Int32.
Local Open Scope Z_scope.

Lemma wrap_range x : in_range (wrap x).
Proof.
  unfold in_range, wrap, min_int, max_int.
  pose proof (Z.mod_pos_bound (x + 2 ^ 31) (2 ^ 32) ltac:(lia)). lia.
Qed.

Lemma wrap_small x : in_range x -> wrap x = x.
Proof.
  unfold in_range, wrap, min_int, max_int. intros H.
  rewrite Z.mod_small by lia. lia.
Qed.

Lemma shr_16 a : shr a 16 = a / 65536.
Proof. unfold shr. rewrite Z.shiftr_div_pow2 by lia. reflexivity. Qed.

Lemma shl_16 a : shl a 16 = wrap (a * 65536).
Proof. unfold shl. rewrite Z.shiftl_mul_pow2 by lia. reflexivity. Qed.

(** Truncating division by a positive divisor shrinks the magnitude. *)
Lemma quot_abs_bound a b c :
  0 < b -> Z.abs a <= c * b -> Z.abs (Z.quot a b) <= c.
Proof.
  intros Hb Ha.
  rewrite <- Z.quot_abs by lia.
  rewrite (Z.abs_eq b) by lia.
  rewrite Z.quot_div_nonneg by lia.
  apply Z.div_le_upper_bound; lia.
Qed.

End Int32Facts.

Section FixedPointFacts.
Import Int32 Int32Facts MoogLadderFilterFixedPoint.
Local Open Scope Z_scope.

Lemma clamp_int_range x lo hi : lo <= hi -> lo <= clamp_int x lo hi <= hi.
Proof.
  intros H. unfold clamp_int.
  destruct (x <? lo) eqn:E1; [lia|].
  destruct (x >? hi) eqn:E2; [lia|].
  apply Z.ltb_ge in E1. rewrite Z.gtb_ltb in E2. apply Z.ltb_ge in E2. lia.
Qed.

(** The normalised frequency never exceeds one half in Q16, whether or not
    the left shift wrapped. *)
Lemma normFreq_bound sr f :
  40 <= sr <= max_int ->
  let fc' := clamp_int f 20 (div sr 2) in
  Z.abs (div (shl fc' 16) sr) <= 32768.
Proof.
  intros Hsr fc'. unfold max_int in Hsr.
  assert (Hhalf : div sr 2 = Z.quot sr 2).
  { unfold div. apply wrap_small. unfold in_range, min_int, max_int.
    pose proof (Z.quot_pos sr 2 ltac:(lia) ltac:(lia)).
    pose proof (Z.quot_le_upper_bound sr 2 sr ltac:(lia) ltac:(lia)). lia. }
  assert (Hq : 2 * Z.quot sr 2 <= sr /\ 20 <= Z.quot sr 2).
  { rewrite Z.quot_div_nonneg by lia.
    pose proof (Z.mul_div_le sr 2 ltac:(lia)).
    pose proof (Z.div_le_lower_bound sr 2 20 ltac:(lia) ltac:(lia)). lia. }
  assert (Hfc : 20 <= fc' <= Z.quot sr 2).
  { subst fc'. rewrite Hhalf. apply clamp_int_range. lia. }
  rewrite shl_16.
  assert (Hin : Z.abs (Z.quot (wrap (fc' * 65536)) sr) <= 32768).
  { apply quot_abs_bound; [lia|].
    destruct (Z_lt_le_dec fc' 32768) as [Hs|Hl].
    - rewrite wrap_small by (unfold in_range, min_int, max_int; lia). lia.
    - pose proof (wrap_range (fc' * 65536)) as Hw.
      unfold in_range, min_int, max_int in Hw. lia. }
  unfold div. rewrite wrap_small; [exact Hin|].
  unfold in_range, min_int, max_int. lia.
Qed.

Lemma setCutoff_coefficients_zero st f :
  40 <= sampleRate st <= max_int ->
  alpha (setCutoff st f) = 0 /\ feedbackAmount (setCutoff st f) = 0.
Proof.
  intros Hsr. pose proof (normFreq_bound (sampleRate st) f Hsr) as Hn.
  cbv zeta in Hn. unfold setCutoff. cbn [alpha feedbackAmount].
  set (nf := div (shl (clamp_int f 20 (div (sampleRate st) 2)) 16)
                 (sampleRate st)) in *.
  assert (Hsq : 0 <= nf * nf <= 1073741824) by nia.
  assert (Hg : 0 <= shr (mul nf nf) 16 <= 16384).
  { unfold mul. rewrite wrap_small
      by (unfold in_range, min_int, max_int; lia).
    rewrite shr_16. split.
    - apply Z.div_pos; lia.
    - apply Z.div_le_upper_bound; lia. }
  set (g := shr (mul nf nf) 16) in *.
  assert (Ha : div g (add 1 g) = 0).
  { unfold div, add. rewrite (wrap_small (1 + g))
      by (unfold in_range, min_int, max_int; lia).
    rewrite Z.quot_small by lia. reflexivity. }
  rewrite Ha. split; reflexivity.
Qed.

Lemma mul_0_r a : mul a 0 = 0.
Proof. unfold mul. rewrite Z.mul_0_r. reflexivity. Qed.

Lemma mul_0_l a : mul 0 a = 0.
Proof. unfold mul. rewrite Z.mul_0_l. reflexivity. Qed.

(** With both coefficients at zero every stage, and so the output, is 0,
    whatever the input and the stored stages. *)
Lemma process_zero_coefficients st x :
  alpha st = 0 -> feedbackAmount st = 0 ->
  fst (process st x) = 0 /\
  alpha (snd (process st x)) = 0 /\
  feedbackAmount (snd (process st x)) = 0 /\
  s (snd (process st x)) = [0; 0; 0; 0].
Proof.
  intros Ha Hf. unfold process. cbn [fst snd alpha feedbackAmount s].
  rewrite Ha, Hf. rewrite !mul_0_r, !mul_0_l.
  repeat split; reflexivity.
Qed.

Lemma run_zero_coefficients ins : forall st,
  alpha st = 0 -> feedbackAmount st = 0 ->
  Forall (fun y => y = 0) (fst (run st ins)).
Proof.
  induction ins as [|x rest IH]; intros st Ha Hf; cbn [run].
  - constructor.
  - destruct (process st x) as [y st1] eqn:Ep.
    pose proof (process_zero_coefficients st x Ha Hf) as (Hy & Ha1 & Hf1 & _).
    rewrite Ep in Hy, Ha1, Hf1. cbn [fst snd] in Hy, Ha1, Hf1.
    specialize (IH st1 Ha1 Hf1).
    destruct (run st1 rest) as [ys st2]. cbn [fst] in *.
    constructor; assumption.
Qed.

(** C10 (amended).  For every frequency argument and every sample rate of
    at least 40 Hz (so that the clamp range [20, sampleRate/2] is not
    empty), setCutoff leaves alpha = 0 and feedbackAmount = 0, because
    alpha = g/(1+g) is an integer division with 0 <= g < 1+g; consequently,
    starting from the reset state, process returns 0 for every input
    sequence. *)
Theorem fixed_setCutoff_alpha_zero_silence st f ins :
  40 <= sampleRate st <= max_int ->
  alpha (setCutoff (reset st) f) = 0 /\
  feedbackAmount (setCutoff (reset st) f) = 0 /\
  Forall (fun y => y = 0) (fst (run (setCutoff (reset st) f) ins)).
Proof.
  intros Hsr.
  destruct (setCutoff_coefficients_zero (reset st) f Hsr) as [Ha Hf].
  repeat split; auto using run_zero_coefficients.
Qed.

(** The statement above at 44.1 kHz, setCutoff(1000) and three inputs. *)
Lemma fixed_setCutoff_alpha_zero_silence_witness :
  alpha (setCutoff (reset (new zero_mem 44100)) 1000) = 0 /\
  feedbackAmount (setCutoff (reset (new zero_mem 44100)) 1000) = 0 /\
  Forall (fun y => y = 0)
    (fst (run (setCutoff (reset (new zero_mem 44100)) 1000) [5; -3; 100000])).
Proof.
  apply (fixed_setCutoff_alpha_zero_silence (new zero_mem 44100) 1000
           [5; -3; 100000]).
  vm_compute. split; discriminate.
Defined.

(** C10, as stated, fails for small sample rates: at 9 Hz the clamp range is
    empty, the cutoff is forced to 20, the square of the normalised
    frequency wraps to a negative number and alpha becomes 1; process then
    returns -1 on the input -65537. *)
Lemma fixed_alpha_nonzero_at_9Hz :
  0 < 9 /\
  alpha (setCutoff (new zero_mem 9) 0) = 1 /\
  fst (process (setCutoff (new zero_mem 9) 0) (-65537)) = -1.
Proof. vm_compute. repeat split. Qed.

(** C9 (amended).  process(in) forms input = in + 1 (32-bit wrap-around)
    before any filtering, and the feedback term and the four stages are
    computed from that offset input.  The offset does not keep the
    recursion away from zero: from the reset state, process(-1) returns 0
    and leaves the state unchanged, whatever the coefficients. *)
Theorem fixed_process_offset_input st x :
  let input := add x 1 in
  let feedback := tanh_approx (mul (rc st) (sub (nth 3 (s st) 0) input)) in
  let pole u si :=
    add (shr (mul u (alpha st)) 16) (shr (mul (feedbackAmount st) si) 16) in
  let s1 := pole (sub input feedback) (nth 0 (s st) 0) in
  let s2 := pole s1 (nth 1 (s st) 0) in
  let s3 := pole s2 (nth 2 (s st) 0) in
  let s4 := pole s3 (nth 3 (s st) 0) in
  fst (process st x) = s4 /\
  s (snd (process st x)) = [s1; s2; s3; s4] /\
  process (reset st) (-1) = (0, reset st).
Proof.
  cbv zeta. repeat split.
  unfold process, reset. cbn [s rc alpha feedbackAmount sampleRate fc prevIn nth].
  change (add (-1) 1) with 0. change (sub 0 0) with 0.
  rewrite mul_0_r. change (tanh_approx 0) with 0. change (sub 0 0) with 0.
  rewrite !mul_0_l, !mul_0_r. reflexivity.
Qed.

(** C9, as stated, fails: the recursion does settle at the exact zero
    state.  With non-zero coefficients left in the object, process(-1) from
    the reset state yields 0 and keeps every stage at 0; and after
    setCutoff(1000) at 44100 Hz the input 5 does the same. *)
Lemma fixed_process_settles_at_zero :
  let st := new (mkState 0 32768 16384 1000 10 0 []) 44100 in
  let st' := setResonance (setCutoff (new zero_mem 44100) 1000) 128 in
  (fst (process st (-1)) = 0 /\ s (snd (process st (-1))) = [0; 0; 0; 0]) /\
  (fst (process st' 5) = 0 /\ s (snd (process st' 5)) = [0; 0; 0; 0]).
Proof. vm_compute. repeat split. Qed.

End FixedPointFacts.

(* ================================================================== *)
(** * Facts about the zero-delay-feedback ladder *)
(* ================================================================== *)

Section ZDFFacts.
Import ZDFMoogLadderFilter.
Local Open Scope R_scope.

Lemma tanh_lt_1 x : tanh x < 1.
Proof.
  unfold tanh, sinh, cosh.
  pose proof (exp_pos x) as Hp. pose proof (exp_pos (- x)) as Hn.
  apply Rmult_lt_reg_r with ((exp x + exp (- x)) / 2); [lra|].
  unfold Rdiv at 1. rewrite Rmult_assoc, Rinv_l by lra. lra.
Qed.

Lemma clamp_float_inside x lo hi : lo <= x <= hi -> clamp_float x lo hi = x.
Proof.
  intros H. unfold clamp_float.
  destruct (Rlt_dec x lo); [lra|]. destruct (Rgt_dec x hi); lra.
Qed.



(** The stage loop, written out for the four indices. *)
Lemma ladder_unrolled g u sg zz :
  fold_left (ladder_stage g) (seq 0 4) (u, sg, zz) =
  let v0 := (u - zz 0%nat) / (1 + g) in let y0 := v0 + zz 0%nat in
  let v1 := (y0 - zz 1%nat) / (1 + g) in let y1 := v1 + zz 1%nat in
  let v2 := (y1 - zz 2%nat) / (1 + g) in let y2 := v2 + zz 2%nat in
  let v3 := (y2 - zz 3%nat) / (1 + g) in let y3 := v3 + zz 3%nat in
  (y3,
   upd (upd (upd (upd sg 0 y0) 1 y1) 2 y2) 3 y3,
   upd (upd (upd (upd zz 0 (y0 + v0)) 1 (y1 + v1)) 2 (y2 + v2)) 3 (y3 + v3)).
Proof. reflexivity. Qed.

Lemma quarter_rate_fields d :
  0 <= d <= 1 ->
  G (quarter_rate d) = 1 /\ feedbackGain (quarter_rate d) = 4 /\
  drive (quarter_rate d) = d /\ mode (quarter_rate d) = LP24 /\
  stage (quarter_rate d) 3%nat = 0 /\
  z (quarter_rate d) 0%nat = 0 /\ z (quarter_rate d) 1%nat = 0 /\
  z (quarter_rate d) 2%nat = 0 /\ z (quarter_rate d) 3%nat = 0.
Proof.
  intros Hd.
  cbv [quarter_rate new reset setDrive setResonance setCutoff
       G feedbackGain drive mode stage z sampleRate resonance
       fold_left seq fst snd upd Nat.eqb zero_mem].
  rewrite (clamp_float_inside 11025) by lra.
  rewrite (clamp_float_inside 1) by lra.
  rewrite (clamp_float_inside d) by lra.
  replace (PI * 11025 / 44100) with (PI / 4) by field.
  rewrite tan_PI4. repeat split; try reflexivity; lra.
Qed.

(** One call of [process] in the linear regime follows [dyadic_step]. *)
Lemma represents_step d st x :
  represents d st ->
  represents (dyadic_step d x) (snd (process st (IZR x))).
Proof.
  intros (Hden & Hdr & HG & Hk & Hs3 & Hz0 & Hz1 & Hz2 & Hz3).
  assert (HD : IZR (den d) <> 0) by (apply not_0_IZR; lia).
  unfold represents, process.
  destruct (Rgt_dec (drive st) 0.001) as [Hgt|_]; [contradiction|].
  rewrite ladder_unrolled. cbv zeta.
  cbn [snd drive G feedbackGain stage z dyadic_step den num_stage3
       num_z0 num_z1 num_z2 num_z3].
  unfold upd. cbn [Nat.eqb].
  rewrite HG, Hk, Hs3, Hz0, Hz1, Hz2, Hz3.
  repeat rewrite ?plus_IZR, ?minus_IZR, ?mult_IZR.
  repeat split; try assumption; try lia; field; assumption.
Qed.

Lemma represents_run ins : forall d st,
  represents d st ->
  represents (fold_left dyadic_step ins d) (run st (map IZR ins)).
Proof.
  induction ins as [|x rest IH]; intros d st H; cbn [fold_left map].
  - exact H.
  - unfold run. cbn [fold_left]. apply IH. apply represents_step. exact H.
Qed.

Lemma quarter_rate_represents :
  represents (mkDyadic 1 0 0 0 0 0) (quarter_rate 0).
Proof.
  destruct (quarter_rate_fields 0 ltac:(lra))
    as (HG & Hk & Hd & _ & Hs & H0 & H1 & H2 & H3).
  unfold represents. cbn [den num_stage3 num_z0 num_z1 num_z2 num_z3].
  rewrite HG, Hk, Hd, Hs, H0, H1, H2, H3.
  repeat split; try lia; lra.
Qed.

Lemma impulse_bounded n :
  Forall (fun x => Rabs x <= 1) (map IZR (impulse n)).
Proof.
  apply Forall_forall. intros x Hx. apply in_map_iff in Hx.
  destruct Hx as (k & <- & Hk). unfold impulse in Hk.
  destruct Hk as [<-|Hk].
  - rewrite Rabs_R1. lra.
  - apply repeat_spec in Hk. subst k. rewrite Rabs_R0. lra.
Qed.

Lemma FLT_MAX_lt_pow128 : FLT_MAX < IZR (2 ^ 128).
Proof.
  unfold FLT_MAX.
  change (2 ^ 128)%Z with (2 * 2 ^ Z.of_nat 127)%Z.
  rewrite mult_IZR, <- pow_IZR.
  assert (0 < 2 ^ 127) by (apply pow_lt; lra).
  assert (0 < / 2 ^ 23) by (apply Rinv_0_lt_compat, pow_lt; lra).
  nra.
Qed.

(** The integer image after a unit impulse and 375 samples of silence:
    the numerator of stage[3] is below -2^128 times the denominator. *)
Lemma dyadic_run_375 :
  (0 < den (dyadic_run (impulse 375)))%Z /\
  (2 ^ 128 * den (dyadic_run (impulse 375))
   <= - num_stage3 (dyadic_run (impulse 375)))%Z.
Proof. vm_compute. split; [reflexivity | discriminate]. Qed.

(** C2 (failing input).  At 44.1 kHz with setCutoff(11025), setResonance(1)
    and setDrive(0) the feedback is not saturated; fed a unit impulse and
    then 375 samples of silence, an input bounded by 1, the filter leaves
    stage[3] with a magnitude above the largest finite float. *)
Theorem zdf_linear_regime_exceeds_float_range :
  Forall (fun x => Rabs x <= 1) (map IZR (impulse 375)) /\
  FLT_MAX <
  Rabs (stage (run (quarter_rate 0) (map IZR (impulse 375))) 3%nat).
Proof.
  split; [apply impulse_bounded|].
  pose proof (represents_run (impulse 375) _ _ quarter_rate_represents) as H.
  pose proof dyadic_run_375 as Hd. unfold dyadic_run in Hd.
  revert H Hd.
  generalize (fold_left dyadic_step (impulse 375) (mkDyadic 1 0 0 0 0 0)).
  intros d H [Hpos Hbig].
  destruct H as (_ & _ & _ & _ & Hs3 & _). rewrite Hs3.
  assert (HD : 0 < IZR (den d)) by (apply IZR_lt; exact Hpos).
  assert (Hle : IZR (2 ^ 128) <= - (IZR (num_stage3 d) / IZR (den d))).
  { apply Rmult_le_reg_r with (IZR (den d)); [exact HD|].
    replace (- (IZR (num_stage3 d) / IZR (den d)) * IZR (den d))
      with (IZR (- num_stage3 d)) by (rewrite opp_IZR; field; lra).
    rewrite <- mult_IZR. apply IZR_le. exact Hbig. }
  pose proof FLT_MAX_lt_pow128 as Hmax.
  pose proof (Rle_abs (- (IZR (num_stage3 d) / IZR (den d)))) as Habs.
  rewrite Rabs_Ropp in Habs.
  eapply Rlt_le_trans; [exact Hmax|].
  eapply Rle_trans; [exact Hle | exact Habs].
Qed.

Lemma process_keeps_parameters st x :
  sampleRate (snd (process st x)) = sampleRate st /\
  resonance (snd (process st x)) = resonance st /\
  feedbackGain (snd (process st x)) = feedbackGain st /\
  G (snd (process st x)) = G st /\
  drive (snd (process st x)) = drive st /\
  mode (snd (process st x)) = mode st.
Proof.
  unfold process. rewrite ladder_unrolled. cbv zeta. cbn [snd].
  repeat split.
Qed.

(** C1 (amended).  One call of process(x) takes the feedback sample
    fb = stage[3], replaced by tanh(stage[3]*drive) when drive > 0.001;
    forms u = x - feedbackGain*fb; updates the four stages in order by
    v = (u - z[i])/(1+G), stage[i] = v + z[i], z[i] = stage[i] + v,
    u = stage[i]; and returns stage[3] in LP24 mode, stage[2] - stage[3]
    in BP12 mode, x - stage[3] in HP24 mode and stage[3] for any other
    mode value.  This holds for every state, reachable or not. *)
Theorem zdf_process_stages_and_output st x :
  let fb := if Rgt_dec (drive st) 0.001
            then tanh (stage st 3%nat * drive st) else stage st 3%nat in
  let u0 := x - feedbackGain st * fb in
  let v0 := (u0 - z st 0%nat) / (1 + G st) in let y0 := v0 + z st 0%nat in
  let v1 := (y0 - z st 1%nat) / (1 + G st) in let y1 := v1 + z st 1%nat in
  let v2 := (y1 - z st 2%nat) / (1 + G st) in let y2 := v2 + z st 2%nat in
  let v3 := (y2 - z st 3%nat) / (1 + G st) in let y3 := v3 + z st 3%nat in
  let st' := snd (process st x) in
  (stage st' 0%nat = y0 /\ stage st' 1%nat = y1 /\
   stage st' 2%nat = y2 /\ stage st' 3%nat = y3) /\
  (z st' 0%nat = y0 + v0 /\ z st' 1%nat = y1 + v1 /\
   z st' 2%nat = y2 + v2 /\ z st' 3%nat = y3 + v3) /\
  fst (process st x) =
    (if (mode st =? LP24)%Z then y3
     else if (mode st =? BP12)%Z then y2 - y3
     else if (mode st =? HP24)%Z then x - y3
     else y3).
Proof.
  cbv zeta. unfold process. rewrite ladder_unrolled. cbv zeta.
  cbn [fst snd stage z]. unfold upd. cbn [Nat.eqb].
  split; [repeat split|]. split; [repeat split|].
  unfold select_output, LP24, BP12, HP24.
  destruct (mode st) as [|p|p]; [reflexivity| |reflexivity].
  destruct p as [p|p|]; [destruct p; reflexivity | | reflexivity].
  destruct p; reflexivity.
Qed.

(** C1, as stated, fails for a drive in (0, 0.001]: after setDrive(0.0005)
    and one call process(16), which leaves stage[3] = 1, the next call
    feeds back stage[3] itself, not its saturated value, and the output
    differs from the one the specification's wording gives. *)
Lemma zdf_small_drive_feedback_not_saturated :
  let st := snd (process (quarter_rate 0.0005) 16) in
  0 < drive st /\ fst (process st 0) <> fst (process_spec st 0).
Proof.
  cbv zeta.
  destruct (quarter_rate_fields 0.0005 ltac:(lra))
    as (HG & Hk & Hd & Hm & Hs & H0 & H1 & H2 & H3).
  destruct (process_keeps_parameters (quarter_rate 0.0005) 16)
    as (_ & _ & Hk' & HG' & Hd' & Hm').
  rewrite Hk in Hk'. rewrite HG in HG'. rewrite Hd in Hd'. rewrite Hm in Hm'.
  assert (Hst : stage (snd (process (quarter_rate 0.0005) 16)) 3%nat = 1 /\
                z (snd (process (quarter_rate 0.0005) 16)) 0%nat = 16 /\
                z (snd (process (quarter_rate 0.0005) 16)) 1%nat = 8 /\
                z (snd (process (quarter_rate 0.0005) 16)) 2%nat = 4 /\
                z (snd (process (quarter_rate 0.0005) 16)) 3%nat = 2).
  { unfold process.
    destruct (Rgt_dec (drive (quarter_rate 0.0005)) 0.001) as [Hgt|_];
      [rewrite Hd in Hgt; lra|].
    rewrite ladder_unrolled. cbv zeta. cbn [snd stage z].
    unfold upd. cbn [Nat.eqb].
    rewrite HG, Hk, Hs, H0, H1, H2, H3. repeat split; lra. }
  destruct Hst as (Hs' & H0' & H1' & H2' & H3').
  set (st := snd (process (quarter_rate 0.0005) 16)) in *.
  split; [rewrite Hd'; lra|].
  unfold process, process_spec.
  destruct (Rgt_dec (drive st) 0.001) as [Hgt|_]; [rewrite Hd' in Hgt; lra|].
  destruct (Rgt_dec (drive st) 0) as [_|Hn]; [|rewrite Hd' in Hn; lra].
  rewrite !ladder_unrolled. cbv zeta. cbn [fst].
  rewrite Hm'. unfold select_output, LP24, upd. cbn [Nat.eqb].
  rewrite HG', Hk', Hs', H0', H1', H2', H3'.
  pose proof (tanh_lt_1 (1 * drive st)) as Ht.
  intros E. lra.
Qed.

End ZDFFacts.

(* ================================================================== *)
(** * Facts about the nonlinear dual-iteration model *)
(* ================================================================== *)

Section NonlinearFacts.
Import MoogLadderFilterBase.
Local Open Scope R_scope.

Lemma clamp_inside x a b : a <= x <= b -> clamp x a b = x.
Proof.
  intros H. unfold clamp.
  rewrite Rmax_left by lra. rewrite Rmin_left by lra. reflexivity.
Qed.

Lemma clamp_above x a b : a <= b -> b <= x -> clamp x a b = b.
Proof.
  intros H1 H2. unfold clamp.
  rewrite Rmax_left by lra. rewrite Rmin_right by lra. reflexivity.
Qed.

Lemma clamp_below x a b : a <= b -> x <= a -> clamp x a b = a.
Proof.
  intros H1 H2. unfold clamp.
  rewrite Rmax_right by lra. rewrite Rmin_left by lra. reflexivity.
Qed.

Lemma fixdenorm_0 : fixdenorm 0 = 0.
Proof. unfold fixdenorm. destruct (Rlt_dec (Rabs 0) 1e-30); reflexivity. Qed.

Lemma fixdenorm_big v : 1e-30 <= v -> fixdenorm v = v.
Proof.
  intros H. unfold fixdenorm.
  destruct (Rlt_dec (Rabs v) 1e-30) as [Hlt|]; [|reflexivity].
  rewrite Rabs_right in Hlt by lra. lra.
Qed.

(** Resolve every clamp, max and denormal guard whose argument is a closed
    number. *)
Ltac settle_guards :=
  repeat match goal with
  | |- context [fixdenorm 0] => rewrite fixdenorm_0
  | |- context [fixdenorm ?v] => rewrite (fixdenorm_big v) by lra
  | |- context [Rmax ?x ?y] =>
      first [ rewrite (Rmax_left x y) by lra
            | rewrite (Rmax_right x y) by lra ]
  | |- context [clamp ?x ?a ?b] =>
      first [ rewrite (clamp_inside x a b) by lra
            | rewrite (clamp_above x a b) by lra
            | rewrite (clamp_below x a b) by lra ]
  end.

Import MoogLadderFilterScalar.

(** From rest, the first iteration produces zeros only. *)
Lemma first_iteration_at_rest st c :
  at_rest st -> section4 st c = mkFirst 0 0 0 0 0 0 0 0.
Proof.
  intros (H1 & H2 & H3 & H4 & H5 & _ & _ & _ & Hl & Hp).
  remember (section4 st c) as p eqn:Hq.
  cbv beta delta [section4] in Hq.
  rewrite H1, H2, H3, H4, H5, Hl, Hp, fixdenorm_0 in Hq.
  next_local Hq e12. assert (E12 : e12 = 0) by (subst e12; ring).
  next_local Hq e13. assert (E13 : e13 = 0).
  { subst e13. rewrite E12. rewrite clamp_inside by lra. ring. }
  next_local Hq e14. assert (E14 : e14 = 0) by (subst e14; rewrite E12; ring).
  next_local Hq e15. assert (E15 : e15 = 0) by (subst e15; rewrite E14; ring).
  next_local Hq a22. assert (A22 : a22 = 0) by (subst a22; rewrite E15; ring).
  next_local Hq e23. assert (E23 : e23 = 0) by (subst e23; rewrite A22; ring).
  next_local Hq a27. assert (A27 : a27 = 0) by (subst a27; rewrite E23; ring).
  next_local Hq c28. assert (C28 : c28 = 0).
  { subst c28. rewrite A27. apply clamp_inside. lra. }
  next_local Hq e29. assert (E29 : e29 = 0) by (subst e29; rewrite C28; ring).
  next_local Hq e30. assert (E30 : e30 = 0) by (subst e30; rewrite E29; ring).
  next_local Hq a31. assert (A31 : a31 = 0) by (subst a31; rewrite E30; ring).
  next_local Hq e32. assert (E32 : e32 = 0) by (subst e32; rewrite A31; ring).
  next_local Hq a33. assert (A33 : a33 = 0) by (subst a33; rewrite E32; ring).
  rewrite Hq, E12, E13, E14, E15, E23, E30, E32, A33. reflexivity.
Qed.

(** The coefficients for fc = 1, rc = 0 (the values [reset] leaves) under
    a resonance control of 1. *)
Lemma coefficients_after_reset st :
  rc st = 0 -> fc st = 1 ->
  1.2 <= expr6 (section3 st 1) <= 1.3 /\
  0.18 <= expr8 (section3 st 1) <= 0.25.
Proof.
  intros Hrc Hfc. cbv [section3 expr6 expr8]. rewrite Hrc, Hfc.
  settle_guards. lra.
Qed.

(** From rest and with coefficients in the range above, the second
    iteration on the input 1 yields these stage values. *)
Lemma second_iteration_from_rest c :
  1.2 <= expr6 c <= 1.3 -> 0.18 <= expr8 c <= 0.25 ->
  let q := section5 c (mkFirst 0 0 0 0 0 0 0 0) 1 in
  0.2 <= expr37 q /\
  0.25 <= add40 q /\
  0.3 <= add50 q <= 0.72.
Proof.
  intros H6 H8. cbv zeta.
  remember (section5 c (mkFirst 0 0 0 0 0 0 0 0) 1) as q eqn:Hq.
  cbv beta iota delta
    [section5 expr13 expr15 expr23 expr30 expr32 add33] in Hq.
  set (e6 := expr6 c) in *. set (e8 := expr8 c) in *.
  set (e7 := expr7 c) in *. set (r9 := rsub9 c) in *.
  clearbody e6 e7 e8 r9.
  next_local Hq e34.
  assert (B34 : 0.18 <= e34 <= 0.25) by (subst e34; lra).
  clearbody e34.
  next_local Hq e35.
  assert (B35 : 0 <= e35 <= 0.004).
  { subst e35. rewrite clamp_inside by nra. nra. }
  clearbody e35.
  next_local Hq e36.
  assert (B36 : 0.179 <= e36 <= 0.2501) by (subst e36; nra).
  clearbody e36.
  next_local Hq e37.
  assert (B37 : 0.2148 <= e37 <= 0.3252) by (subst e37; nra).
  clearbody e37.
  next_local Hq a38.
  assert (B38 : 0.2148 <= a38 <= 0.3252) by (subst a38; lra).
  clearbody a38.
  next_local Hq e39.
  assert (B39 : 0.2577 <= e39 <= 0.4228) by (subst e39; nra).
  clearbody e39.
  next_local Hq a40.
  assert (B40 : 0.2577 <= a40 <= 0.4228) by (subst a40; lra).
  clearbody a40.
  next_local Hq c42.
  assert (B42 : 0.2577 <= c42 <= 0.4228).
  { subst c42. rewrite clamp_inside by lra. lra. }
  clearbody c42.
  next_local Hq e43.
  assert (B43 : 0.2423 <= e43 <= 0.4228) by (subst e43; nra).
  clearbody e43.
  next_local Hq e44.
  assert (B44 : 0.2907 <= e44 <= 0.5497) by (subst e44; nra).
  clearbody e44.
  next_local Hq a48.
  assert (B48 : 0.2907 <= a48 <= 0.5497) by (subst a48; lra).
  clearbody a48.
  next_local Hq e49.
  assert (B49 : 0.3488 <= e49 <= 0.7147) by (subst e49; nra).
  clearbody e49.
  next_local Hq a50.
  assert (B50 : 0.3488 <= a50 <= 0.7147) by (subst a50; lra).
  clearbody a50.
  rewrite Hq. cbn [expr37 add40 add50]. lra.
Qed.

Lemma new_at_rest : at_rest (new zero_mem 44100).
Proof. unfold at_rest, new, reset. cbn. repeat split. Qed.

Lemma setParams_at_rest st cutoffHz resonanceVal modeSel :
  at_rest st -> at_rest (setParams st cutoffHz resonanceVal modeSel).
Proof. unfold at_rest, setParams. cbn. tauto. Qed.

(** setParams(1, 0, m) on the constructed filter: the mode is stored as
    given, cutoff and resonance keep their reset values. *)
Lemma setParams_fields m :
  let st := setParams (new zero_mem 44100) 1 0 m in
  mode st = m /\ rc st = 0 /\ fc st = 1.
Proof.
  cbv zeta. unfold setParams. cbn [mode rc fc].
  rewrite clamp_inside by lra. rewrite fixdenorm_big by lra.
  repeat split.
Qed.

(** One call from rest: the output and the stored stage values in terms of
    the second iteration. *)
Lemma process_from_rest st in1 in2 in3 in4 :
  at_rest st ->
  let c := section3 st in3 in
  let p := mkFirst 0 0 0 0 0 0 0 0 in
  let q := section5 c p (in1 + 1e-11 * in4) in
  section4 st c = p /\
  fst (process st in1 in2 in3 in4) =
    section7 (mode st) q (section6 st p q) /\
  expr51 (section6 st p q) = 0.19 * add50 q.
Proof.
  intros Hrest. cbv zeta.
  pose proof (first_iteration_at_rest st (section3 st in3) Hrest) as Hp.
  destruct Hrest as (_ & _ & _ & _ & _ & H6 & H7 & H8 & _ & _).
  unfold process. cbn [fst]. rewrite Hp.
  repeat split. unfold section6. cbn [expr51 add33].
  rewrite H6, H7, H8. ring.
Qed.

(** What [process] commits: s1 is taken from the first iteration, s2..s4
    from the second; nothing passes through [fixdenorm]. *)
Lemma process_commits st in1 in2 in3 in4 :
  let c := section3 st in3 in
  let p := section4 st c in
  let q := section5 c p (in1 + 1e-11 * in4) in
  let st' := snd (process st in1 in2 in3 in4) in
  s1 st' = expr15 p /\ s2 st' = expr39 q /\
  s3 st' = expr44 q /\ s4 st' = expr49 q /\
  previn st' = in1 + 1e-11 * in4.
Proof. cbv zeta. unfold process. cbn [snd s1 s2 s3 s4 previn]. tauto. Qed.

(** C3 (failing input).  In the scalar backend the first call after
    construction, process(1, 0, 1, 0), stores in s1 the first iteration's
    provisional stage value expr15 = 0, although the second iteration
    computed the corrected stage-1 value expr37 >= 0.2; s2, s3 and s4 are
    stored from the second iteration. *)
Theorem scalar_commits_first_pass_stage1 :
  let st := new zero_mem 44100 in
  let c := section3 st 1 in
  let p := section4 st c in
  let q := section5 c p (1 + 1e-11 * 0) in
  let st' := snd (process st 1 0 1 0) in
  s1 st' = expr15 p /\ expr15 p = 0 /\ 0.2 <= expr37 q /\
  s1 st' <> expr37 q /\
  s2 st' = expr39 q /\ s3 st' = expr44 q /\ s4 st' = expr49 q.
Proof.
  cbv zeta.
  destruct (process_commits (new zero_mem 44100) 1 0 1 0)
    as (E1 & E2 & E3 & E4 & _).
  cbv zeta in E1, E2, E3, E4.
  destruct (process_from_rest (new zero_mem 44100) 1 0 1 0 new_at_rest)
    as (Hp & _ & _).
  cbv zeta in Hp.
  assert (Hc : 1.2 <= expr6 (section3 (new zero_mem 44100) 1) <= 1.3 /\
               0.18 <= expr8 (section3 (new zero_mem 44100) 1) <= 0.25)
    by (apply coefficients_after_reset; reflexivity).
  destruct Hc as [H6 H8].
  pose proof (second_iteration_from_rest _ H6 H8) as (B37 & _ & _).
  rewrite E1, E2, E3, E4, Hp. cbn [expr15].
  replace (1 + 1e-11 * 0) with 1 by lra.
  repeat split; try assumption. lra.
Qed.

(** C5 (failing input).  The scalar backend stores its state without the
    denormal guard: after process(1e-35, 0, 1, 0) on the constructed filter
    the stored previous input is 1e-35, neither zero nor at least 1e-30 in
    magnitude. *)
Theorem scalar_stores_unguarded_previous_input :
  let st' := snd (process (new zero_mem 44100) 1e-35 0 1 0) in
  previn st' = 1e-35 /\ previn st' <> 0 /\ Rabs (previn st') < 1e-30.
Proof.
  cbv zeta.
  destruct (process_commits (new zero_mem 44100) 1e-35 0 1 0)
    as (_ & _ & _ & _ & E).
  cbv zeta in E. rewrite E.
  replace (1e-35 + 1e-11 * 0) with 1e-35 by lra.
  rewrite Rabs_right by lra. repeat split; lra.
Qed.

(** The first output of the constructed filter after setParams(1, 0, m),
    on the input (1, 0, 1, 0): the mode switch applied to the second
    iteration from rest. *)
Lemma scalar_first_output m :
  let q := section5 (section3 (new zero_mem 44100) 1)
                    (mkFirst 0 0 0 0 0 0 0 0) 1 in
  exists mo,
    fst (process (setParams (new zero_mem 44100) 1 0 m) 1 0 1 0) =
      section7 m q mo /\
    expr51 mo = 0.19 * add50 q.
Proof.
  cbv zeta.
  destruct (setParams_fields m) as (Hm & Hrc & Hfc). cbv zeta in Hm, Hrc, Hfc.
  destruct (process_from_rest (setParams (new zero_mem 44100) 1 0 m)
              1 0 1 0 (setParams_at_rest _ _ _ _ new_at_rest))
    as (_ & Hout & H51).
  cbv zeta in Hout, H51.
  assert (Hc : section3 (setParams (new zero_mem 44100) 1 0 m) 1 =
               section3 (new zero_mem 44100) 1).
  { unfold section3. rewrite Hrc, Hfc. reflexivity. }
  rewrite Hc, Hm in Hout. rewrite Hc in H51.
  replace (1 + 1e-11 * 0) with 1 in Hout, H51 by lra.
  eexists. split; [exact Hout | exact H51].
Qed.

(** C7 (failing input).  setParams stores the invalid mode 7 as given, and
    process then returns add40, the LP18 output of mode 3, which differs
    from the LP24 output expr51 of mode 0 on the same input. *)
Theorem scalar_invalid_mode_selects_LP18 :
  let out m :=
    fst (process (setParams (new zero_mem 44100) 1 0 m) 1 0 1 0) in
  mode (setParams (new zero_mem 44100) 1 0 7) = 7%Z /\
  out 7%Z = out 3%Z /\
  0.25 <= out 7%Z /\ out 0%Z <= 0.14 /\
  out 7%Z <> out 0%Z.
Proof.
  cbv zeta.
  assert (Hc : 1.2 <= expr6 (section3 (new zero_mem 44100) 1) <= 1.3 /\
               0.18 <= expr8 (section3 (new zero_mem 44100) 1) <= 0.25)
    by (apply coefficients_after_reset; reflexivity).
  destruct Hc as [H6 H8].
  pose proof (second_iteration_from_rest _ H6 H8) as (_ & B40 & B50).
  cbv zeta in B40, B50.
  destruct (scalar_first_output 7) as (m7 & E7 & _).
  destruct (scalar_first_output 3) as (m3 & E3 & _).
  destruct (scalar_first_output 0) as (m0 & E0 & H0).
  cbv zeta in E7, E3, E0, H0. cbn [section7] in E7, E3, E0.
  rewrite E7, E3, E0, H0.
  split; [apply (setParams_fields 7)|].
  repeat split; lra.
Qed.

End NonlinearFacts.

Section VectorFacts.
Import MoogLadderFilterBase MoogLadderFilterSIMD.
Local Open Scope R_scope.

(** The per-lane hardware reciprocal estimate. *)
Variable recpe : R -> R.

(** Unfold the lane-wise intrinsics on explicit registers. *)
Ltac lanes :=
  cbv [vaddq_f32 vsubq_f32 vmulq_f32 vmaxq_f32 vminq_f32 vmlaq_f32
       clamp_f32x4 lane_map2 vdupq_n_f32].

Ltac split_lanes v :=
  let a := fresh "lane" in let b := fresh "lane" in
  let c := fresh "lane" in let d := fresh "lane" in
  destruct v as [[[a b] c] d].

Lemma zero_lane_clamped : Rmax (Rmin 0 1) (-1) = 0.
Proof. rewrite Rmin_left by lra. rewrite Rmax_left by lra. reflexivity. Qed.

(** The first output of the constructed four-lane filter is zero in every
    lane, whatever the inputs and the reciprocal estimate: it is the first
    iteration's third stage, computed from the zero memory only. *)
Lemma simd_first_output in1 in2 in3 in4 :
  fst (process recpe (new zero_mem 44100) in1 in2 in3 in4) = vdupq_n_f32 0.
Proof.
  remember (process recpe (new zero_mem 44100) in1 in2 in3 in4) as r eqn:Hr.
  assert (Hf : previn (new zero_mem 44100) = vdupq_n_f32 0 /\
               slim (new zero_mem 44100) = vdupq_n_f32 0 /\
               s1 (new zero_mem 44100) = vdupq_n_f32 0 /\
               s2 (new zero_mem 44100) = vdupq_n_f32 0 /\
               s3 (new zero_mem 44100) = vdupq_n_f32 0 /\
               s5 (new zero_mem 44100) = vdupq_n_f32 0 /\
               mode (new zero_mem 44100) = 0%Z)
    by (repeat split; reflexivity).
  destruct Hf as (Hp & Hl & H1 & H2 & H3 & H5 & Hm).
  cbv beta delta [process] in Hr.
  rewrite Hp, Hl, H1, H2, H3, H5, Hm in Hr.
  next_local Hr e10. clearbody e10.
  next_local Hr env0. clearbody env0.
  next_local Hr env1. clearbody env1.
  next_local Hr rcm. clearbody rcm.
  next_local Hr e3. clearbody e3.
  next_local Hr e4. clearbody e4.
  next_local Hr e5. clearbody e5.
  next_local Hr e6. clearbody e6.
  next_local Hr e7. clearbody e7.
  next_local Hr e8. clearbody e8.
  next_local Hr r9. clearbody r9.
  split_lanes e6. split_lanes e7. split_lanes e8. split_lanes r9.
  next_local Hr e12.
  assert (E12 : e12 = vdupq_n_f32 0).
  { subst e12. lanes. repeat f_equal; ring. }
  clearbody e12. subst e12.
  next_local Hr e13.
  assert (E13 : e13 = vdupq_n_f32 0).
  { subst e13. lanes.
    replace (0.062 * 0 * 0 + 0.993 * 0) with 0 by ring.
    rewrite zero_lane_clamped. reflexivity. }
  clearbody e13. subst e13.
  next_local Hr e14.
  assert (E14 : e14 = vdupq_n_f32 0).
  { subst e14. lanes. repeat f_equal; ring. }
  clearbody e14. subst e14.
  next_local Hr e15.
  assert (E15 : e15 = vdupq_n_f32 0).
  { subst e15. lanes. repeat f_equal; ring. }
  clearbody e15. subst e15.
  next_local Hr e23.
  assert (E23 : e23 = vdupq_n_f32 0).
  { subst e23. lanes. repeat f_equal; ring. }
  clearbody e23. subst e23.
  next_local Hr a27.
  assert (A27 : a27 = vdupq_n_f32 0).
  { subst a27. lanes. repeat f_equal; ring. }
  clearbody a27. subst a27.
  next_local Hr c28.
  assert (C28 : c28 = vdupq_n_f32 0).
  { subst c28. lanes. rewrite zero_lane_clamped. reflexivity. }
  clearbody c28. subst c28.
  next_local Hr e29.
  assert (E29 : e29 = vdupq_n_f32 0).
  { subst e29. lanes. repeat f_equal; ring. }
  clearbody e29. subst e29.
  next_local Hr e30.
  assert (E30 : e30 = vdupq_n_f32 0).
  { subst e30. lanes. repeat f_equal; ring. }
  clearbody e30. subst e30.
  rewrite Hr. reflexivity.
Qed.

(** C4 (failing input).  Constructed at the same sample rate, left at the
    same reset parameters (cutoff 1, resonance 0, mode 0) and fed the same
    first sample (1, 0, 1, 0), the scalar backend returns its LP24 output,
    at least 0.05, while every lane of the vector backend returns 0: the
    outputs differ by far more than 1e-4. *)
Theorem scalar_and_simd_disagree_on_first_sample :
  let y :=
    fst (MoogLadderFilterScalar.process
           (MoogLadderFilterScalar.new MoogLadderFilterScalar.zero_mem 44100)
           1 0 1 0) in
  let v :=
    fst (process recpe (new zero_mem 44100)
           (vdupq_n_f32 1) (vdupq_n_f32 0) (vdupq_n_f32 1) (vdupq_n_f32 0)) in
  v = vdupq_n_f32 0 /\ 0.05 <= y /\ 1e-4 < Rabs (y - 0).
Proof.
  cbv zeta. split; [apply simd_first_output|].
  destruct (process_from_rest
              (MoogLadderFilterScalar.new MoogLadderFilterScalar.zero_mem 44100)
              1 0 1 0 new_at_rest) as (_ & Hout & H51).
  cbv zeta in Hout, H51.
  assert (Hc : 1.2 <= MoogLadderFilterScalar.expr6
                 (MoogLadderFilterScalar.section3
                    (MoogLadderFilterScalar.new
                       MoogLadderFilterScalar.zero_mem 44100) 1) <= 1.3 /\
               0.18 <= MoogLadderFilterScalar.expr8
                 (MoogLadderFilterScalar.section3
                    (MoogLadderFilterScalar.new
                       MoogLadderFilterScalar.zero_mem 44100) 1) <= 0.25)
    by (apply coefficients_after_reset; reflexivity).
  destruct Hc as [H6 H8].
  pose proof (second_iteration_from_rest _ H6 H8) as (_ & _ & B50).
  cbv zeta in B50.
  replace (1 + 1e-11 * 0) with 1 in Hout, H51 by lra.
  change (MoogLadderFilterScalar.mode
            (MoogLadderFilterScalar.new MoogLadderFilterScalar.zero_mem 44100))
    with 0%Z in Hout.
  cbn [MoogLadderFilterScalar.section7] in Hout.
  rewrite Hout, H51.
  assert (Hy : 0.05 <= 0.19 * MoogLadderFilterScalar.add50
            (MoogLadderFilterScalar.section5
               (MoogLadderFilterScalar.section3
                  (MoogLadderFilterScalar.new
                     MoogLadderFilterScalar.zero_mem 44100) 1)
               (MoogLadderFilterScalar.mkFirst 0 0 0 0 0 0 0 0) 1)) by lra.
  split; [exact Hy|].
  rewrite Rminus_0_r, Rabs_right by lra. lra.
Qed.

End VectorFacts.

Section NeonFacts.
Import MoogLadderFilterBase NeonMoogFilter.
Local Open Scope R_scope.

(** The per-lane hardware reciprocal estimate. *)
Variable recpe : R -> R.

(** Reduce an equation between registers to its four lanes. *)
Ltac lane_eq :=
  repeat match goal with |- (_, _) = (_, _) => apply f_equal2 end.

(** Each Newton-Raphson step squares the relative error of the
    reciprocal. *)
Lemma newton_raphson_error b x :
  1 - b * newton_raphson b x = (1 - b * x) ^ 2.
Proof. unfold newton_raphson. ring. Qed.

(** C8 (amended).  Both vector divisions multiply the numerator by a
    refined hardware reciprocal estimate and use no native divide.
    neon_divide_f32 refines the estimate by exactly two Newton-Raphson
    iterations x' = x*(2 - b*x), which raises the relative error of the
    estimate to the fourth power; vdivq_f32 refines it by exactly one
    iteration, which squares it. *)
Theorem vector_division_newton_raphson (a0 a1 a2 a3 b0 b1 b2 b3 : R) :
  let nr1 b := newton_raphson b (recpe b) in
  let nr2 b := newton_raphson b (nr1 b) in
  neon_divide_f32 recpe (a0, a1, a2, a3) (b0, b1, b2, b3) =
    (a0 * nr2 b0, a1 * nr2 b1, a2 * nr2 b2, a3 * nr2 b3) /\
  vdivq_f32 recpe (a0, a1, a2, a3) (b0, b1, b2, b3) =
    (a0 * nr1 b0, a1 * nr1 b1, a2 * nr1 b2, a3 * nr1 b3) /\
  1 - b0 * nr2 b0 = (1 - b0 * recpe b0) ^ 4 /\
  1 - b0 * nr1 b0 = (1 - b0 * recpe b0) ^ 2.
Proof.
  cbv zeta. repeat split.
  - unfold neon_divide_f32, vmulq_f32, vrecpsq_f32, vrecpeq_f32,
      lane_map, lane_map2, newton_raphson.
    lane_eq; ring.
  - unfold vdivq_f32, vmulq_f32, vrecpsq_f32, vrecpeq_f32,
      lane_map, lane_map2, newton_raphson.
    lane_eq; ring.
  - rewrite !newton_raphson_error. ring.
  - apply newton_raphson_error.
Qed.

(** C8, as stated, fails for vdivq_f32, the division the four-lane filter
    uses: with the estimate 341/1024 for 1/3, which is accurate to 2^-10,
    it returns 1 * x1 where x1 is the estimate after one refinement, not
    the twice-refined reciprocal. *)
Lemma vdivq_refines_once_only :
  let estimate := fun b : R => (1023 / 1024) / b in
  Rabs (3 * estimate 3 - 1) <= / 2 ^ 8 /\
  vdivq_f32 estimate (vdupq_n_f32 1) (vdupq_n_f32 3) <>
  lane_map2 (divide_spec estimate) (vdupq_n_f32 1) (vdupq_n_f32 3).
Proof.
  cbv zeta. split.
  - replace (3 * (1023 / 1024 / 3) - 1) with (- / 1024) by field.
    rewrite Rabs_Ropp, Rabs_right by lra. lra.
  - unfold vdivq_f32, vmulq_f32, vrecpsq_f32, vrecpeq_f32, vdupq_n_f32,
      lane_map, lane_map2, divide_spec, newton_raphson.
    intros E. injection E as E _ _ _. lra.
Qed.

End NeonFacts.

(* ================================================================== *)
(** * Parameter controllers *)
(* ================================================================== *)

Section ParameterFacts.
Local Open Scope R_scope.









(** An out-of-range mode is ignored by the ZDF controller: the state, and
    so every later output, is unchanged. *)
Lemma zdf_setMode_invalid_ignored st m x :
  (m < 0 \/ 2 < m)%Z ->
  ZDFMoogLadderFilter.setMode st m = st /\
  ZDFMoogLadderFilter.process (ZDFMoogLadderFilter.setMode st m) x =
  ZDFMoogLadderFilter.process st x.
Proof.
  intros H. assert (E : ZDFMoogLadderFilter.setMode st m = st).
  { unfold ZDFMoogLadderFilter.setMode.
    destruct (0 <=? m)%Z eqn:E0; destruct (m <=? 2)%Z eqn:E2;
      cbn [andb]; try reflexivity.
    apply Z.leb_le in E0. apply Z.leb_le in E2. lia. }
  rewrite E. split; reflexivity.
Qed.

End ParameterFacts.

(* ================================================================== *)
(** * The double-precision sibling of the scalar backend *)
(* ================================================================== *)

Section MSPFacts.
Import MSPMoogLadderFilter.
Local Open Scope R_scope.

Lemma fixDenormalNumbers_flushed v : flushed 1e-18 (fixDenormalNumbers v).
Proof.
  unfold flushed, fixDenormalNumbers.
  destruct (Rlt_dec (Rabs v) 1e-18) as [H|H]; [left; reflexivity|right; lra].
Qed.

(** Every value processSample stores has passed the denormal guard; the
    one register it never writes keeps its value. *)
Lemma msp_stored_state_flushed st x e r n m :
  flushed 1e-18 (finalFilterOutput st) ->
  state_flushed (snd (processSample st x e r n m)).
Proof.
  intros Hf. unfold state_flushed, processSample.
  cbn [snd previousInput cutoffFrequency resonanceCoefficient stage1State
       stage2State stage3State stage4State saturationState
       stage4DelayedOutput combinedOutput1 combinedOutput2 finalFilterOutput].
  unfold section2 at 1 2. cbn [smoothedResonanceCoeff nextCutoffFrequency].
  unfold section1 at 1.
  repeat split; try apply fixDenormalNumbers_flushed. exact Hf.
Qed.

(** The two passes of processSample: the first feedback term is built from
    the stored previous input and the stored stage-4 history, the second
    from the noisy current input and the first pass's stage-4 output, and
    the four stage registers receive the second pass's values. *)
Lemma msp_two_passes st x e r n m :
  let c := section2 st (section1 st e) r in
  let p := section3 st c in
  let q := section4 c p (x + 1e-11 * n) in
  let st' := snd (processSample st x e r n m) in
  feedbackSignal p =
    fixDenormalNumbers (previousInput st) * inputScaling c
    - feedbackStrength c * combinedOutput1 st /\
  improvedFeedback q =
    (x + 1e-11 * n) * inputScaling c
    - feedbackStrength c * stage4FinalOutput p /\
  stage1State st' = fixDenormalNumbers (updatedStage1 q) /\
  stage2State st' = fixDenormalNumbers (updatedStage2 q) /\
  stage3State st' = fixDenormalNumbers (updatedStage3 q) /\
  stage4State st' = fixDenormalNumbers (updatedStage4 q).
Proof. cbv zeta. repeat split. Qed.

Lemma section6_default m q r :
  (m < 0 \/ 5 < m)%Z -> section6 m q r = lowpass24Response r.
Proof.
  intros H. unfold section6.
  destruct (m + 1)%Z as [|p|p] eqn:E; try reflexivity.
  destruct p as [[p|p|]|[p|p|]|]; try reflexivity; try lia;
    destruct p; try reflexivity; lia.
Qed.

(** An out-of-range mode selects the LP24 response, the output of mode 0. *)
Lemma msp_invalid_mode_selects_LP24 st x e r n m :
  (m < 0 \/ 5 < m)%Z ->
  fst (processSample st x e r n m) = fst (processSample st x e r n 0).
Proof.
  intros H. unfold processSample. cbv beta zeta iota delta [fst].
  rewrite (section6_default m) by exact H. reflexivity.
Qed.

End MSPFacts.

(* ================================================================== *)
(** * The ZDF ladder over whole sessions *)
(* ================================================================== *)

Section ZDFSessionFacts.
Import ZDFMoogLadderFilter.
Local Open Scope R_scope.

Lemma tanh_at_0 : tanh 0 = 0.
Proof. unfold tanh. rewrite sinh_0. unfold Rdiv. apply Rmult_0_l. Qed.

Lemma clamp_float_range x lo hi : lo <= hi -> lo <= clamp_float x lo hi <= hi.
Proof.
  intros H. unfold clamp_float.
  destruct (Rlt_dec x lo); [lra|]. destruct (Rgt_dec x hi); lra.
Qed.

Lemma clamp_float_monotone x y lo hi :
  lo <= hi -> x <= y -> clamp_float x lo hi <= clamp_float y lo hi.
Proof.
  intros H Hxy. unfold clamp_float.
  destruct (Rlt_dec x lo); destruct (Rlt_dec y lo);
    destruct (Rgt_dec x hi); destruct (Rgt_dec y hi); lra.
Qed.

(** X1.  Whatever sequence of constructor, setter, reset and process calls
    produced a filter, its resonance and drive lie in [0,1], its feedback
    gain is four times the resonance, and its mode is one of the three
    named modes, so the default branch of the output selection is never
    taken. *)
Theorem zdf_reachable_parameters st :
  reachable st ->
  0 <= resonance st <= 1 /\
  feedbackGain st = resonance st * 4 /\
  0 <= drive st <= 1 /\
  (mode st = LP24 \/ mode st = BP12 \/ mode st = HP24).
Proof.
  induction 1 as [raw sr|st f _ IH|st r _ IH|st m _ IH|st d _ IH|st _ IH
                 |st x _ IH].
  - cbv [new setResonance setCutoff reset resonance feedbackGain drive mode].
    pose proof (clamp_float_range 0.5 0 1 ltac:(lra)).
    repeat split; try lra. left; reflexivity.
  - destruct IH as (Hr & Hf & Hd & Hm).
    cbv [setCutoff resonance feedbackGain drive mode].
    repeat split; try tauto; lra.
  - destruct IH as (Hr & Hf & Hd & Hm).
    cbv [setResonance resonance feedbackGain drive mode].
    pose proof (clamp_float_range r 0 1 ltac:(lra)).
    repeat split; try tauto; lra.
  - destruct IH as (Hr & Hf & Hd & Hm). unfold setMode.
    destruct (0 <=? m)%Z eqn:E0; destruct (m <=? 2)%Z eqn:E2;
      cbn [andb]; try (repeat split; try tauto; lra).
    cbn [resonance feedbackGain drive mode].
    apply Z.leb_le in E0. apply Z.leb_le in E2.
    repeat split; try tauto; try lra.
    unfold LP24, BP12, HP24. lia.
  - destruct IH as (Hr & Hf & Hd & Hm).
    cbv [setDrive resonance feedbackGain drive mode].
    pose proof (clamp_float_range d 0 1 ltac:(lra)).
    repeat split; try tauto; lra.
  - destruct IH as (Hr & Hf & Hd & Hm).
    cbv [reset resonance feedbackGain drive mode].
    repeat split; try tauto; lra.
  - destruct (process_keeps_parameters st x) as (_ & Er & Ef & _ & Ed & Em).
    rewrite Er, Ef, Ed, Em. exact IH.
Qed.

Lemma zdf_reachable_parameters_witness :
  reachable (new zero_mem 44100) /\
  0 <= resonance (new zero_mem 44100) <= 1 /\
  feedbackGain (new zero_mem 44100) = resonance (new zero_mem 44100) * 4 /\
  0 <= drive (new zero_mem 44100) <= 1 /\
  (mode (new zero_mem 44100) = LP24 \/ mode (new zero_mem 44100) = BP12 \/
   mode (new zero_mem 44100) = HP24).
Proof.
  split; [apply reach_new|].
  apply (zdf_reachable_parameters (new zero_mem 44100)). apply reach_new.
Defined.

(** One call of [process] reads only stage[3] and z[0..3]. *)
Lemma process_same_memory a b x :
  G a = G b -> feedbackGain a = feedbackGain b -> drive a = drive b ->
  mode a = mode b ->
  (forall i, (i < 4)%nat -> stage a i = stage b i /\ z a i = z b i) ->
  fst (process a x) = fst (process b x) /\
  (forall i, (i < 4)%nat ->
     stage (snd (process a x)) i = stage (snd (process b x)) i /\
     z (snd (process a x)) i = z (snd (process b x)) i).
Proof.
  intros HG Hf Hd Hm Hmem.
  destruct (Hmem 0%nat ltac:(lia)) as [_ Hz0].
  destruct (Hmem 1%nat ltac:(lia)) as [_ Hz1].
  destruct (Hmem 2%nat ltac:(lia)) as [_ Hz2].
  destruct (Hmem 3%nat ltac:(lia)) as [Hs3 Hz3].
  unfold process. rewrite !ladder_unrolled. cbv zeta. cbn [fst snd stage z].
  rewrite HG, Hf, Hd, Hm, Hs3, Hz0, Hz1, Hz2, Hz3.
  split.
  - unfold select_output, upd. cbn [Nat.eqb]. reflexivity.
  - intros i Hi.
    destruct i as [|[|[|[|i]]]]; try lia; unfold upd; cbn [Nat.eqb];
      split; reflexivity.
Qed.

Lemma outputs_same_memory ins : forall a b,
  G a = G b -> feedbackGain a = feedbackGain b -> drive a = drive b ->
  mode a = mode b ->
  (forall i, (i < 4)%nat -> stage a i = stage b i /\ z a i = z b i) ->
  outputs a ins = outputs b ins.
Proof.
  induction ins as [|x rest IH]; intros a b HG Hf Hd Hm Hmem;
    [reflexivity|].
  cbn [outputs].
  destruct (process_same_memory a b x HG Hf Hd Hm Hmem) as [Ho Hmem'].
  destruct (process_keeps_parameters a x) as (_ & _ & Ef & EG & Ed & Em).
  destruct (process_keeps_parameters b x) as (_ & _ & Ef' & EG' & Ed' & Em').
  rewrite Ho. f_equal. apply IH; try congruence. exact Hmem'.
Qed.

Lemma run_keeps_parameters pre : forall st,
  resonance (run st pre) = resonance st /\
  feedbackGain (run st pre) = feedbackGain st /\
  G (run st pre) = G st /\
  drive (run st pre) = drive st /\
  mode (run st pre) = mode st.
Proof.
  unfold run. induction pre as [|x rest IH]; intros st; cbn [fold_left].
  - repeat split.
  - destruct (IH (snd (process st x))) as (E1 & E2 & E3 & E4 & E5).
    destruct (process_keeps_parameters st x) as (_ & F1 & F2 & F3 & F4 & F5).
    rewrite E1, E2, E3, E4, E5. repeat split; assumption.
Qed.

(** X2.  [reset] forgets the signal history: after any input sequence
    [pre], a reset filter answers every later input sequence exactly as
    the filter that was reset before [pre] was played. *)
Theorem zdf_reset_forgets_history st pre ins :
  outputs (reset (run st pre)) ins = outputs (reset st) ins.
Proof.
  destruct (run_keeps_parameters pre st) as (_ & Ef & EG & Ed & Em).
  apply outputs_same_memory; cbn [reset G feedbackGain drive mode];
    try assumption.
  intros i Hi. cbv [reset stage z fold_left seq fst snd].
  destruct i as [|[|[|[|i]]]]; try lia; unfold upd; cbn [Nat.eqb];
    split; reflexivity.
Qed.

(** X3.  When the clamp range [20, 0.45*sampleRate] is not empty, the
    integrator gain stored by setCutoff is positive and grows with the
    requested frequency. *)
Theorem zdf_setCutoff_gain_positive_monotone st f1 f2 :
  20 <= sampleRate st * 0.45 -> f1 <= f2 ->
  0 < G (setCutoff st f1) /\ G (setCutoff st f1) <= G (setCutoff st f2).
Proof.
  intros Hsr Hf. cbv [setCutoff G].
  pose proof (clamp_float_range f1 20 (sampleRate st * 0.45) Hsr) as H1.
  pose proof (clamp_float_range f2 20 (sampleRate st * 0.45) Hsr) as H2.
  pose proof (clamp_float_monotone f1 f2 20 (sampleRate st * 0.45) Hsr Hf)
    as H12.
  set (c1 := clamp_float f1 20 (sampleRate st * 0.45)) in *.
  set (c2 := clamp_float f2 20 (sampleRate st * 0.45)) in *.
  assert (Hpos : 0 < sampleRate st) by lra.
  pose proof PI_RGT_0 as Hpi.
  assert (E1 : c1 / sampleRate st * sampleRate st = c1) by (field; lra).
  assert (E2 : c2 / sampleRate st * sampleRate st = c2) by (field; lra).
  replace (PI * c1 / sampleRate st) with (PI * (c1 / sampleRate st))
    by (field; lra).
  replace (PI * c2 / sampleRate st) with (PI * (c2 / sampleRate st))
    by (field; lra).
  set (a1 := c1 / sampleRate st) in *. set (a2 := c2 / sampleRate st) in *.
  assert (B1 : 0 < a1 <= 0.45) by (split; nra).
  assert (B2 : a1 <= a2 <= 0.45) by (split; nra).
  split.
  - apply tan_gt_0; nra.
  - destruct (Req_dec a1 a2) as [E|N]; [rewrite E; lra|].
    apply Rlt_le, tan_increasing; nra.
Qed.

Lemma zdf_setCutoff_gain_positive_monotone_witness :
  20 <= sampleRate (new zero_mem 44100) * 0.45 /\ 100 <= 1000 /\
  0 < G (setCutoff (new zero_mem 44100) 100) /\
  G (setCutoff (new zero_mem 44100) 100)
  <= G (setCutoff (new zero_mem 44100) 1000).
Proof.
  assert (H : 20 <= sampleRate (new zero_mem 44100) * 0.45)
    by (cbv [new setResonance setCutoff reset sampleRate]; lra).
  split; [exact H|]. split; [lra|].
  apply (zdf_setCutoff_gain_positive_monotone (new zero_mem 44100) 100 1000);
    [exact H | lra].
Defined.

(** One call of [process] at a fixed point of the loop. *)
Lemma process_at_equilibrium st x c :
  1 + G st <> 0 ->
  c = x - feedbackGain st *
          (if Rgt_dec (drive st) 0.001 then tanh (c * drive st) else c) ->
  stage st 3%nat = c ->
  (forall i, (i < 4)%nat -> z st i = c) ->
  fst (process st x) = select_output (mode st) (fun _ => c) x /\
  stage (snd (process st x)) 3%nat = c /\
  (forall i, (i < 4)%nat -> z (snd (process st x)) i = c).
Proof.
  intros HG Hc Hs Hz.
  pose proof (Hz 0%nat ltac:(lia)) as Hz0.
  pose proof (Hz 1%nat ltac:(lia)) as Hz1.
  pose proof (Hz 2%nat ltac:(lia)) as Hz2.
  pose proof (Hz 3%nat ltac:(lia)) as Hz3.
  unfold process. rewrite ladder_unrolled. cbv zeta. cbn [fst snd stage z].
  rewrite Hs, Hz0, Hz1, Hz2, Hz3, <- Hc.
  assert (E0 : (c - c) / (1 + G st) + c = c) by (field; exact HG).
  rewrite !E0.
  assert (E1 : c + (c - c) / (1 + G st) = c) by (field; exact HG).
  split; [|split].
  - unfold select_output, upd. cbn [Nat.eqb]. reflexivity.
  - unfold upd. cbn [Nat.eqb]. reflexivity.
  - intros i Hi.
    destruct i as [|[|[|[|i]]]]; try lia; unfold upd; cbn [Nat.eqb];
      exact E1.
Qed.

(** A fixed point of the loop is held over any number of samples. *)
Lemma outputs_at_equilibrium n : forall st x c,
  1 + G st <> 0 ->
  c = x - feedbackGain st *
          (if Rgt_dec (drive st) 0.001 then tanh (c * drive st) else c) ->
  stage st 3%nat = c ->
  (forall i, (i < 4)%nat -> z st i = c) ->
  outputs st (repeat x n) =
  repeat (if (mode st =? BP12)%Z then 0
          else if (mode st =? HP24)%Z then x - c else c) n.
Proof.
  induction n as [|n IH]; intros st x c HG Hc Hs Hz; [reflexivity|].
  cbn [repeat outputs].
  destruct (process_at_equilibrium st x c HG Hc Hs Hz) as (Ho & Hs' & Hz').
  destruct (process_keeps_parameters st x) as (_ & _ & Ef & EG & Ed & Em).
  f_equal.
  - rewrite Ho. unfold select_output, BP12, HP24.
    destruct (mode st) as [|[p|p|]|p]; cbn [Z.eqb Pos.eqb]; try reflexivity;
      try (destruct p; reflexivity).
    lra.
  - rewrite <- Em. apply IH; assumption.
Qed.

(** X4.  A steady state is held: if stage[3] and z[0..3] all hold a value c
    that solves c = x - feedbackGain*fb(c), with fb the feedback sample
    process forms (tanh(c*drive) above the bypass threshold, c below it),
    then a constant input x gives, for any number of samples, the output
    c in LP24, 0 in BP12 and x - c in HP24. *)
Theorem zdf_steady_state_held st x c n :
  1 + G st <> 0 ->
  c = x - feedbackGain st *
          (if Rgt_dec (drive st) 0.001 then tanh (c * drive st) else c) ->
  stage st 3%nat = c ->
  (forall i, (i < 4)%nat -> z st i = c) ->
  outputs st (repeat x n) =
  repeat (if (mode st =? BP12)%Z then 0
          else if (mode st =? HP24)%Z then x - c else c) n.
Proof. apply outputs_at_equilibrium. Qed.

Lemma zdf_steady_state_held_witness :
  outputs (mkState 44100 1 4 1 0 LP24 (fun _ => 1) (fun _ => 1))
          (repeat 5 3) = repeat 1 3.
Proof.
  apply (zdf_steady_state_held
           (mkState 44100 1 4 1 0 LP24 (fun _ => 1) (fun _ => 1)) 5 1 3).
  - cbn [G]. lra.
  - cbn [feedbackGain drive]. destruct (Rgt_dec 0 0.001); lra.
  - reflexivity.
  - intros i _. reflexivity.
Defined.

(** X5.  Silence in, silence out: a reset filter with 1 + G <> 0 answers
    any number of zero samples with zeros, in every mode and at every
    resonance and drive. *)
Theorem zdf_silence_from_reset st n :
  1 + G st <> 0 ->
  outputs (reset st) (repeat 0 n) = repeat 0 n.
Proof.
  intros HG.
  rewrite (outputs_at_equilibrium n (reset st) 0 0).
  - destruct (mode (reset st) =? BP12)%Z; [reflexivity|].
    destruct (mode (reset st) =? HP24)%Z; [|reflexivity].
    replace (0 - 0) with 0 by lra. reflexivity.
  - exact HG.
  - cbn [reset feedbackGain drive].
    destruct (Rgt_dec (drive st) 0.001);
      [rewrite Rmult_0_l, tanh_at_0|]; lra.
  - reflexivity.
  - intros i Hi. cbv [reset z fold_left seq fst snd].
    destruct i as [|[|[|[|i]]]]; try lia; unfold upd; cbn [Nat.eqb];
      reflexivity.
Qed.

Lemma zdf_silence_from_reset_witness :
  outputs (reset (quarter_rate 1)) (repeat 0 8) = repeat 0 8.
Proof.
  apply (zdf_silence_from_reset (quarter_rate 1) 8).
  destruct (quarter_rate_fields 1 ltac:(lra)) as (EG & _).
  rewrite EG. lra.
Defined.

End ZDFSessionFacts.

(* ================================================================== *)
(** * The earlier ZDF ladder against the later one *)
(* ================================================================== *)

Section DevZDFFacts.
Local Open Scope R_scope.

(** X6.  The pre-warping chain of the earlier setCutoff, wd = 2*pi*fc,
    T = 1/sampleRate, wa = (2/T)*tan(wd*T/2), G = wa*T/2, stores the same
    integrator gain as the later filter's direct G = tan(pi*fc/sampleRate),
    for every requested frequency and every non-zero sample rate. *)
Theorem dev_zdf_prewarp_is_direct_tan d v f :
  DEV_ZDFMoogLadderFilter.sampleRate d <> 0 ->
  ZDFMoogLadderFilter.sampleRate v = DEV_ZDFMoogLadderFilter.sampleRate d ->
  DEV_ZDFMoogLadderFilter.G (DEV_ZDFMoogLadderFilter.setCutoff d f) =
  ZDFMoogLadderFilter.G (ZDFMoogLadderFilter.setCutoff v f).
Proof.
  intros Hsr E.
  cbv [DEV_ZDFMoogLadderFilter.setCutoff DEV_ZDFMoogLadderFilter.G
       ZDFMoogLadderFilter.setCutoff ZDFMoogLadderFilter.G].
  rewrite E.
  set (sr := DEV_ZDFMoogLadderFilter.sampleRate d) in *.
  set (c := ZDFMoogLadderFilter.clamp_float f 20 (sr * 0.45)).
  replace (2 * PI * c * (1 / sr) / 2) with (PI * c / sr) by (field; exact Hsr).
  field. exact Hsr.
Qed.

Lemma dev_zdf_prewarp_is_direct_tan_witness :
  DEV_ZDFMoogLadderFilter.G
    (DEV_ZDFMoogLadderFilter.setCutoff
       (DEV_ZDFMoogLadderFilter.mkState 44100 0 0 0 (fun _ => 0) (fun _ => 0))
       1000) =
  ZDFMoogLadderFilter.G
    (ZDFMoogLadderFilter.setCutoff
       (ZDFMoogLadderFilter.new ZDFMoogLadderFilter.zero_mem 44100) 1000).
Proof.
  apply (dev_zdf_prewarp_is_direct_tan
           (DEV_ZDFMoogLadderFilter.mkState 44100 0 0 0
              (fun _ => 0) (fun _ => 0))
           (ZDFMoogLadderFilter.new ZDFMoogLadderFilter.zero_mem 44100) 1000).
  - cbn [DEV_ZDFMoogLadderFilter.sampleRate]. lra.
  - reflexivity.
Defined.

(** X7.  With the saturation bypassed (drive at most 0.001) and the mode
    LP24, the later filter is the earlier one: from equal coefficients and
    equal memory the two give the same output for every input sequence. *)
Theorem zdf_bypassed_LP24_is_dev_filter ins : forall d v,
  ~ ZDFMoogLadderFilter.drive v > 0.001 ->
  ZDFMoogLadderFilter.mode v = ZDFMoogLadderFilter.LP24 ->
  ZDFMoogLadderFilter.G v = DEV_ZDFMoogLadderFilter.G d ->
  ZDFMoogLadderFilter.feedbackGain v = DEV_ZDFMoogLadderFilter.feedbackGain d ->
  ZDFMoogLadderFilter.stage v = DEV_ZDFMoogLadderFilter.stage d ->
  ZDFMoogLadderFilter.z v = DEV_ZDFMoogLadderFilter.z d ->
  ZDFMoogLadderFilter.outputs v ins = DEV_ZDFMoogLadderFilter.outputs d ins.
Proof.
  induction ins as [|x rest IH]; intros d v Hd Hm HG Hf Hs Hz;
    [reflexivity|].
  cbn [ZDFMoogLadderFilter.outputs DEV_ZDFMoogLadderFilter.outputs].
  assert (Step :
    fst (ZDFMoogLadderFilter.process v x) =
      fst (DEV_ZDFMoogLadderFilter.process d x) /\
    ZDFMoogLadderFilter.stage (snd (ZDFMoogLadderFilter.process v x)) =
      DEV_ZDFMoogLadderFilter.stage (snd (DEV_ZDFMoogLadderFilter.process d x))
    /\
    ZDFMoogLadderFilter.z (snd (ZDFMoogLadderFilter.process v x)) =
      DEV_ZDFMoogLadderFilter.z (snd (DEV_ZDFMoogLadderFilter.process d x))).
  { unfold ZDFMoogLadderFilter.process, DEV_ZDFMoogLadderFilter.process.
    destruct (Rgt_dec (ZDFMoogLadderFilter.drive v) 0.001) as [H|_];
      [contradiction|].
    rewrite Hm, HG, Hf, Hs, Hz. rewrite !ladder_unrolled. cbv zeta.
    repeat split. }
  destruct Step as (Eo & Es & Ez).
  destruct (process_keeps_parameters v x) as (_ & _ & Ef' & EG' & Ed' & Em').
  rewrite Eo. f_equal. apply IH.
  - rewrite Ed'. exact Hd.
  - rewrite Em'. exact Hm.
  - rewrite EG'. exact HG.
  - rewrite Ef'. exact Hf.
  - exact Es.
  - exact Ez.
Qed.

Lemma zdf_bypassed_LP24_is_dev_filter_witness :
  ZDFMoogLadderFilter.outputs
    (ZDFMoogLadderFilter.mkState 44100 1 4 1 0 ZDFMoogLadderFilter.LP24
       (fun _ => 0) (fun _ => 0)) [1; 0; 0] =
  DEV_ZDFMoogLadderFilter.outputs
    (DEV_ZDFMoogLadderFilter.mkState 44100 1 4 1 (fun _ => 0) (fun _ => 0))
    [1; 0; 0].
Proof.
  apply (zdf_bypassed_LP24_is_dev_filter [1; 0; 0]
           (DEV_ZDFMoogLadderFilter.mkState 44100 1 4 1
              (fun _ => 0) (fun _ => 0))
           (ZDFMoogLadderFilter.mkState 44100 1 4 1 0 ZDFMoogLadderFilter.LP24
              (fun _ => 0) (fun _ => 0))); try reflexivity.
  cbn [ZDFMoogLadderFilter.drive]. lra.
Defined.

End DevZDFFacts.

(* ================================================================== *)
(** * Helpers shared by the backends *)
(* ================================================================== *)

Section HelperFacts.
Import MoogLadderFilterBase.
Local Open Scope R_scope.

(** X8.  The fixed-point saturator is bounded for every 32-bit argument:
    its result lies between -49152 (-0.75 in Q16.16) and 16384 (0.25), and
    never exceeds the argument clamped to [-32768, 32767]. *)
Theorem fixed_tanh_approx_bounded x :
  (-49152 <= MoogLadderFilterFixedPoint.tanh_approx x <= 16384 /\
   MoogLadderFilterFixedPoint.tanh_approx x <=
   MoogLadderFilterFixedPoint.clamp_int x (-32768) 32767)%Z.
Proof.
  unfold MoogLadderFilterFixedPoint.tanh_approx.
  pose proof (clamp_int_range x (-32768) 32767 ltac:(lia)) as Hc.
  set (c := MoogLadderFilterFixedPoint.clamp_int x (-32768) 32767) in *.
  unfold Int32.mul, Int32.sub.
  assert (Hsq : (0 <= c * c <= 1073741824)%Z) by nia.
  rewrite (Int32Facts.wrap_small (c * c))
    by (unfold Int32.in_range, Int32.min_int, Int32.max_int; lia).
  rewrite Int32Facts.shr_16.
  pose proof (Z.div_pos (c * c) 65536 ltac:(lia) ltac:(lia)) as Hq0.
  assert (Hq1 : (c * c / 65536 <= 16384)%Z)
    by (apply Z.div_le_upper_bound; lia).
  assert (Hq2 : (65536 * (c * c / 65536) <= c * c < 65536 * (c * c / 65536) + 65536)%Z).
  { pose proof (Z.div_mod (c * c) 65536 ltac:(lia)).
    pose proof (Z.mod_pos_bound (c * c) 65536 ltac:(lia)). lia. }
  rewrite Int32Facts.wrap_small
    by (unfold Int32.in_range, Int32.min_int, Int32.max_int; lia).
  repeat split; try lia.
  (* c - c*c/65536 <= 16384: 65536*(c - 16384) <= c*c *)
  assert ((c - 32768) * (c - 32768) >= 0)%Z by nia.
  nia.
Qed.

(** X9.  The scalar clamp std::min(std::max(x, a), b) returns a value of
    [a, b] when a <= b, is the identity on that interval, and returns the
    upper bound b for every x when the bounds are inverted. *)
Theorem base_clamp_bounds x a b :
  (a <= b -> a <= clamp x a b <= b /\ clamp (clamp x a b) a b = clamp x a b)
  /\ (b < a -> clamp x a b = b).
Proof.
  assert (Range : a <= b -> a <= clamp x a b <= b).
  { intros H. unfold clamp, Rmin.
    destruct (Rle_dec (Rmax x a) b) as [H1|H1];
      unfold Rmax in *; destruct (Rle_dec x a); lra. }
  split.
  - intros H. split; [exact (Range H)|].
    apply clamp_inside. exact (Range H).
  - intros H. unfold clamp, Rmin.
    destruct (Rle_dec (Rmax x a) b) as [H1|H1]; [|reflexivity].
    unfold Rmax in H1. destruct (Rle_dec x a); lra.
Qed.

Lemma base_clamp_bounds_witness :
  (0 <= clamp 5 0 1 <= 1 /\ clamp (clamp 5 0 1) 0 1 = clamp 5 0 1) /\
  clamp 5 1 0 = 0.
Proof.
  split.
  - apply (base_clamp_bounds 5 0 1). lra.
  - apply (base_clamp_bounds 5 1 0). lra.
Defined.

Lemma Rmax_Rmin_swap x lo hi :
  lo <= hi -> Rmax (Rmin x hi) lo = Rmin (Rmax x lo) hi.
Proof.
  intros H. unfold Rmin, Rmax.
  destruct (Rle_dec x hi); destruct (Rle_dec x lo);
    repeat match goal with
           | |- context [Rle_dec ?p ?q] => destruct (Rle_dec p q)
           end; lra.
Qed.

Lemma Rmin_Rmax_inverted x lo hi : hi < lo -> Rmin (Rmax x lo) hi = hi.
Proof.
  intros H. pose proof (Rmax_r x lo). apply Rmin_right. lra.
Qed.

Lemma Rmax_Rmin_inverted x lo hi : hi < lo -> Rmax (Rmin x hi) lo = lo.
Proof.
  intros H. pose proof (Rmin_r x hi). apply Rmax_right. lra.
Qed.

(** X10.  The two four-lane clamps, the free function of the shared header
    (min of max) and the member of the four-lane filter (max of min), agree
    whenever the lower bound does not exceed the upper one; with inverted
    bounds the first returns the upper bound and the second the lower bound
    in every lane. *)
Theorem clamp_f32x4_variants x lo hi :
  (lo <= hi ->
   MoogLadderFilterSIMD.clamp_f32x4 x lo hi = clamp_f32x4 x lo hi) /\
  (hi < lo ->
   clamp_f32x4 x lo hi = vdupq_n_f32 hi /\
   MoogLadderFilterSIMD.clamp_f32x4 x lo hi = vdupq_n_f32 lo).
Proof.
  destruct x as [[[x0 x1] x2] x3].
  cbv [MoogLadderFilterSIMD.clamp_f32x4 clamp_f32x4 vminq_f32 vmaxq_f32
       vdupq_n_f32 lane_map2].
  split; [intros H|intros H; split].
  - rewrite !Rmax_Rmin_swap by exact H. reflexivity.
  - rewrite !Rmin_Rmax_inverted by exact H. reflexivity.
  - rewrite !Rmax_Rmin_inverted by exact H. reflexivity.
Qed.

Lemma clamp_f32x4_variants_witness :
  MoogLadderFilterSIMD.clamp_f32x4 (vdupq_n_f32 5) (-1) 1 =
  clamp_f32x4 (vdupq_n_f32 5) (-1) 1 /\
  clamp_f32x4 (vdupq_n_f32 5) 1 (-1) = vdupq_n_f32 (-1) /\
  MoogLadderFilterSIMD.clamp_f32x4 (vdupq_n_f32 5) 1 (-1) = vdupq_n_f32 1.
Proof.
  split.
  - apply (clamp_f32x4_variants (vdupq_n_f32 5) (-1) 1). lra.
  - apply (clamp_f32x4_variants (vdupq_n_f32 5) 1 (-1)). lra.
Defined.

(** X11.  The denormal guard either keeps its argument or returns 0; its
    result is 0 or at least 1e-30 in magnitude, never larger in magnitude
    than the argument, and guarding twice is guarding once. *)
Theorem fixdenorm_flushes val :
  (fixdenorm val = 0 \/ 1e-30 <= Rabs (fixdenorm val)) /\
  Rabs (fixdenorm val) <= Rabs val /\
  fixdenorm (fixdenorm val) = fixdenorm val.
Proof.
  unfold fixdenorm.
  destruct (Rlt_dec (Rabs val) 1e-30) as [H|H].
  - rewrite Rabs_R0. destruct (Rlt_dec 0 1e-30); [|lra].
    pose proof (Rabs_pos val). repeat split; lra.
  - destruct (Rlt_dec (Rabs val) 1e-30); [contradiction|].
    repeat split; lra.
Qed.

End HelperFacts.

(* ================================================================== *)
(** * The empirically tuned ladder and its block processing *)
(* ================================================================== *)

Section MoogFilterFacts.
Import MoogLadderFilterBase.
Local Open Scope R_scope.

(** The per-lane hardware reciprocal estimate. *)
Variable recpe : R -> R.

Lemma fastTanh_den_pos x : 0 < 27 + 9 * (x * x).
Proof. nra. Qed.

(** The distance of the rational approximation from 1 is a cube. *)
Lemma fastTanh_minus_1 x :
  MoogFilter.fastTanh x - 1 = (x - 3) ^ 3 / (27 + 9 * (x * x)).
Proof.
  unfold MoogFilter.fastTanh. cbv zeta.
  pose proof (fastTanh_den_pos x). field. lra.
Qed.

Lemma fastTanh_odd x : MoogFilter.fastTanh (- x) = - MoogFilter.fastTanh x.
Proof.
  unfold MoogFilter.fastTanh. cbv zeta.
  pose proof (fastTanh_den_pos x). field. lra.
Qed.

Lemma fastTanh_le_1 x : x <= 3 -> MoogFilter.fastTanh x <= 1.
Proof.
  intros H. pose proof (fastTanh_minus_1 x) as E.
  pose proof (fastTanh_den_pos x) as D.
  assert (C : (x - 3) ^ 3 <= 0).
  { replace ((x - 3) ^ 3) with (- ((3 - x) * ((3 - x) * (3 - x)))) by ring.
    assert (0 <= (3 - x) * ((3 - x) * (3 - x))); [|lra].
    apply Rmult_le_pos; [lra|]. apply Rmult_le_pos; lra. }
  assert (M : (x - 3) ^ 3 / (27 + 9 * (x * x)) * (27 + 9 * (x * x)) =
              (x - 3) ^ 3) by (field; lra).
  set (q := (x - 3) ^ 3 / (27 + 9 * (x * x))) in *.
  assert (q <= 0) by nra. lra.
Qed.

Lemma fastTanh_gt_1 x : 3 < x -> 1 < MoogFilter.fastTanh x.
Proof.
  intros H. pose proof (fastTanh_minus_1 x) as E.
  pose proof (fastTanh_den_pos x) as D.
  assert (C : 0 < (x - 3) ^ 3).
  { replace ((x - 3) ^ 3) with ((x - 3) * ((x - 3) * (x - 3))) by ring.
    apply Rmult_lt_0_compat; [lra|]. apply Rmult_lt_0_compat; lra. }
  assert (0 < (x - 3) ^ 3 / (27 + 9 * (x * x))); [|lra].
  apply Rdiv_lt_0_compat; assumption.
Qed.

Lemma fastTanh_unit x : -3 <= x <= 3 -> -1 <= MoogFilter.fastTanh x <= 1.
Proof.
  intros H. split.
  - pose proof (fastTanh_le_1 (- x) ltac:(lra)) as E.
    rewrite fastTanh_odd in E. lra.
  - apply fastTanh_le_1. lra.
Qed.

Lemma fastTanh_increasing x y :
  x < y -> MoogFilter.fastTanh x < MoogFilter.fastTanh y.
Proof.
  intros H.
  pose proof (fastTanh_den_pos x) as Dx. pose proof (fastTanh_den_pos y) as Dy.
  assert (E : MoogFilter.fastTanh y - MoogFilter.fastTanh x =
              (y - x) * (27 * ((x - y) * (x - y))
                         + 9 * ((x * y - 9) * (x * y - 9)))
              / ((27 + 9 * (x * x)) * (27 + 9 * (y * y)))).
  { unfold MoogFilter.fastTanh. cbv zeta. field. split; lra. }
  assert (Q1 : 0 < (x - y) * (x - y)).
  { replace ((x - y) * (x - y)) with ((y - x) * (y - x)) by ring.
    apply Rmult_lt_0_compat; lra. }
  pose proof (Rle_0_sqr (x * y - 9)) as Q2. unfold Rsqr in Q2.
  assert (Q : 0 < 27 * ((x - y) * (x - y))
                  + 9 * ((x * y - 9) * (x * y - 9))) by lra.
  assert (0 < (y - x) * (27 * ((x - y) * (x - y))
                         + 9 * ((x * y - 9) * (x * y - 9)))
              / ((27 + 9 * (x * x)) * (27 + 9 * (y * y)))); [|lra].
  apply Rdiv_lt_0_compat.
  - apply Rmult_lt_0_compat; lra.
  - apply Rmult_lt_0_compat; lra.
Qed.

(** X12.  The rational tanh approximation x(27+x^2)/(27+9x^2) is odd and
    strictly increasing, and it is a saturator only on [-3, 3]: its value
    is at most 1 exactly when x <= 3 and at least -1 exactly when
    x >= -3, so beyond 3 in magnitude it leaves the range of tanh. *)
Theorem fastTanh_shape x y :
  MoogFilter.fastTanh (- x) = - MoogFilter.fastTanh x /\
  (x < y <-> MoogFilter.fastTanh x < MoogFilter.fastTanh y) /\
  (x <= 3 <-> MoogFilter.fastTanh x <= 1) /\
  (-3 <= x <-> -1 <= MoogFilter.fastTanh x).
Proof.
  split; [apply fastTanh_odd|]. split; [|split].
  - split; [apply fastTanh_increasing|].
    intros H. destruct (Rlt_le_dec x y) as [L|L]; [exact L|].
    destruct (Req_dec x y) as [E|N].
    + rewrite E in H. lra.
    + pose proof (fastTanh_increasing y x ltac:(lra)). lra.
  - split; [apply fastTanh_le_1|].
    intros H. destruct (Rle_lt_dec x 3) as [L|L]; [exact L|].
    pose proof (fastTanh_gt_1 x L). lra.
  - split.
    + intros H. pose proof (fastTanh_le_1 (- x) ltac:(lra)) as E.
      rewrite fastTanh_odd in E. lra.
    + intros H. destruct (Rle_lt_dec (-3) x) as [L|L]; [exact L|].
      pose proof (fastTanh_gt_1 (- x) ltac:(lra)) as E.
      rewrite fastTanh_odd in E. lra.
Qed.

(** X13.  At a sample rate of at least 50 Hz and with the resonance in
    [0, 1], setCutoff stores, for every requested frequency, a cutoff in
    [20, sampleRate/2.5], a stage gain p in (0, 0.67], the complementary
    gain scale = 1 - p, and a feedback gain k in [0, 4*resonance]: each
    stage mixes its input and its memory with weights that add up to 1. *)
Theorem moog_setCutoff_coefficients st frequency :
  50 <= MoogFilter.sampleRate st ->
  0 <= MoogFilter.resonance st <= 1 ->
  let st' := MoogFilter.setCutoff st frequency in
  20 <= MoogFilter.cutoff st' <= MoogFilter.sampleRate st / 2.5 /\
  0 < MoogFilter.p st' <= 0.67 /\
  MoogFilter.scale st' = 1 - MoogFilter.p st' /\
  0 <= MoogFilter.k st' <= 4 * MoogFilter.resonance st.
Proof.
  destruct st as [cutoff0 r sr fc0 f0 k0 p0 scale0 stage0 delay0].
  cbv [MoogFilter.setCutoff MoogFilter.updateCoefficients MoogFilter.cutoff
       MoogFilter.sampleRate MoogFilter.resonance MoogFilter.p
       MoogFilter.scale MoogFilter.k].
  intros Hsr Hres.
  set (c0 := if Rlt_dec frequency 20 then 20 else frequency).
  set (c := if Rgt_dec c0 (sr / 2.5) then sr / 2.5 else c0).
  assert (Hc : 20 <= c <= sr / 2.5).
  { unfold c, c0. destruct (Rlt_dec frequency 20);
      match goal with |- context [Rgt_dec ?a ?b] => destruct (Rgt_dec a b) end;
      lra. }
  assert (Ef : c / sr * sr = c) by (field; lra).
  set (q := c / sr) in *.
  assert (Hq : 0 < q <= 0.4) by (split; nra).
  set (f := q * 1.16).
  assert (Hf : 0 < f <= 0.464) by (unfold f; lra).
  assert (Hp : 0 < f * (1.8 - 0.8 * f) <= 0.67).
  { clearbody f. clear - Hf. split.
    - apply Rmult_lt_0_compat; lra.
    - assert (0 <= (0.464 - f) * (1.8 - 0.8 * (0.464 + f)))
        by (apply Rmult_le_pos; lra).
      lra. }
  assert (Hk : 0 <= 1 - 0.15 * f * f <= 1).
  { clearbody f. clear - Hf. split; nra. }
  split; [exact Hc|]. split; [exact Hp|]. split; [reflexivity|].
  set (m := 1 - 0.15 * f * f) in *. clearbody m. clear - Hres Hk.
  split; nra.
Qed.

Lemma moog_setCutoff_coefficients_witness :
  let st' := MoogFilter.setCutoff (MoogFilter.new 44100) 100000 in
  20 <= MoogFilter.cutoff st' <= MoogFilter.sampleRate (MoogFilter.new 44100) / 2.5 /\
  0 < MoogFilter.p st' <= 0.67 /\
  MoogFilter.scale st' = 1 - MoogFilter.p st' /\
  0 <= MoogFilter.k st' <= 4 * MoogFilter.resonance (MoogFilter.new 44100).
Proof.
  apply (moog_setCutoff_coefficients (MoogFilter.new 44100) 100000).
  - cbv [MoogFilter.new MoogFilter.updateCoefficients MoogFilter.sampleRate].
    lra.
  - cbv [MoogFilter.new MoogFilter.updateCoefficients MoogFilter.resonance].
    lra.
Defined.

(** One ladder stage keeps the unit range: a mix with weights p and 1 - p
    of a value of [-3, 3] and a memory of [-1, 1], then the saturator. *)
Lemma stage_unit p a d :
  0 <= p <= 1 -> -3 <= a <= 3 -> -1 <= d <= 1 ->
  -1 <= MoogFilter.fastTanh (a * p + d * (1 - p)) <= 1.
Proof. intros Hp Ha Hd. apply fastTanh_unit. split; nra. Qed.

Lemma moog_process_unit st input :
  0 <= MoogFilter.p st <= 1 ->
  MoogFilter.scale st = 1 - MoogFilter.p st ->
  0 <= MoogFilter.k st <= 2 ->
  (forall i, (i < 4)%nat -> -1 <= MoogFilter.delay st i <= 1) ->
  -1 <= input <= 1 ->
  -1 <= fst (MoogFilter.process st input) <= 1 /\
  (forall i, (i < 4)%nat ->
     -1 <= MoogFilter.delay (snd (MoogFilter.process st input)) i <= 1).
Proof.
  intros Hp Hs Hk Hd Hin.
  pose proof (Hd 0%nat ltac:(lia)) as D0. pose proof (Hd 1%nat ltac:(lia)) as D1.
  pose proof (Hd 2%nat ltac:(lia)) as D2. pose proof (Hd 3%nat ltac:(lia)) as D3.
  cbv [MoogFilter.process MoogFilter.process_with ZDFMoogLadderFilter.upd
       Nat.eqb fst snd MoogFilter.delay MoogFilter.p MoogFilter.scale
       MoogFilter.k].
  cbv [MoogFilter.p MoogFilter.scale MoogFilter.k MoogFilter.delay]
    in Hp, Hs, Hk, D0, D1, D2, D3.
  destruct st as [cutoff resonance sr fc f k p scale stage delay].
  subst scale.
  assert (X : -3 <= input - k * delay 3%nat <= 3) by (split; nra).
  pose proof (stage_unit p _ _ Hp X D0) as S0.
  set (y0 := MoogFilter.fastTanh _) in S0 |- *.
  pose proof (stage_unit p y0 _ Hp ltac:(lra) D1) as S1.
  set (y1 := MoogFilter.fastTanh _) in S1 |- *.
  pose proof (stage_unit p y1 _ Hp ltac:(lra) D2) as S2.
  set (y2 := MoogFilter.fastTanh _) in S2 |- *.
  pose proof (stage_unit p y2 _ Hp ltac:(lra) D3) as S3.
  set (y3 := MoogFilter.fastTanh _) in S3 |- *.
  split; [exact S3|].
  intros i Hi. destruct i as [|[|[|[|i]]]]; try lia; assumption.
Qed.

Lemma process_keeps_coefficients sat st input :
  MoogFilter.p (snd (MoogFilter.process_with sat st input)) = MoogFilter.p st /\
  MoogFilter.scale (snd (MoogFilter.process_with sat st input)) =
    MoogFilter.scale st /\
  MoogFilter.k (snd (MoogFilter.process_with sat st input)) = MoogFilter.k st.
Proof. repeat split. Qed.

(** X14.  Bounded input, bounded output at moderate feedback: with the
    stage weights p in [0, 1] and scale = 1 - p, a feedback gain k in
    [0, 2] and the four delays in [-1, 1], processBlock answers a block of
    samples of [-1, 1] with outputs of [-1, 1] and leaves the four delays
    in [-1, 1]. *)
Theorem moog_processBlock_bounded input : forall st,
  0 <= MoogFilter.p st <= 1 ->
  MoogFilter.scale st = 1 - MoogFilter.p st ->
  0 <= MoogFilter.k st <= 2 ->
  (forall i, (i < 4)%nat -> -1 <= MoogFilter.delay st i <= 1) ->
  Forall (fun x => -1 <= x <= 1) input ->
  Forall (fun y => -1 <= y <= 1) (fst (MoogFilter.processBlock st input)) /\
  (forall i, (i < 4)%nat ->
     -1 <= MoogFilter.delay (snd (MoogFilter.processBlock st input)) i <= 1).
Proof.
  induction input as [|x rest IH]; intros st Hp Hs Hk Hd Hin.
  - cbn [MoogFilter.processBlock fst snd]. split; [constructor|exact Hd].
  - inversion Hin as [|? ? Hx Hrest]; subst.
    cbn [MoogFilter.processBlock].
    destruct (moog_process_unit st x Hp Hs Hk Hd Hx) as [Ho Hd'].
    destruct (MoogFilter.process st x) as [y st1] eqn:E1.
    cbn [fst snd] in Ho, Hd'.
    assert (K : MoogFilter.p st1 = MoogFilter.p st /\
                MoogFilter.scale st1 = MoogFilter.scale st /\
                MoogFilter.k st1 = MoogFilter.k st).
    { replace st1 with (snd (MoogFilter.process st x)) by (rewrite E1; reflexivity).
      apply process_keeps_coefficients. }
    destruct K as (Kp & Ks & Kk).
    destruct (IH st1) as [Ho' Hd'']; try assumption.
    + rewrite Kp. exact Hp.
    + rewrite Ks, Kp. exact Hs.
    + rewrite Kk. exact Hk.
    + destruct (MoogFilter.processBlock st1 rest) as [ys st2].
      cbn [fst snd] in *. split; [constructor; assumption|assumption].
Qed.

Lemma moog_processBlock_bounded_witness :
  Forall (fun y => -1 <= y <= 1)
         (fst (MoogFilter.processBlock (MoogFilter.new 44100) [1; -1])) /\
  (forall i, (i < 4)%nat ->
     -1 <= MoogFilter.delay
             (snd (MoogFilter.processBlock (MoogFilter.new 44100) [1; -1])) i
        <= 1).
Proof.
  apply (moog_processBlock_bounded [1; -1] (MoogFilter.new 44100)).
  - cbv [MoogFilter.new MoogFilter.updateCoefficients MoogFilter.p
         MoogFilter.cutoff MoogFilter.sampleRate]. lra.
  - reflexivity.
  - cbv [MoogFilter.new MoogFilter.updateCoefficients MoogFilter.k
         MoogFilter.resonance]. lra.
  - intros i _.
    cbv [MoogFilter.new MoogFilter.updateCoefficients MoogFilter.delay]. lra.
  - repeat constructor; lra.
Defined.

(** The lanes of the four-lane saturator. *)
Lemma fastTanhSIMD_lanes x0 x1 x2 x3 :
  NeonMoogFilterBlock.fastTanhSIMD recpe (x0, x1, x2, x3) =
  (NeonMoogFilterBlock.fastTanhLane recpe x0,
   NeonMoogFilterBlock.fastTanhLane recpe x1,
   NeonMoogFilterBlock.fastTanhLane recpe x2,
   NeonMoogFilterBlock.fastTanhLane recpe x3).
Proof.
  cbv [NeonMoogFilterBlock.fastTanhSIMD NeonMoogFilterBlock.fastTanhLane
       NeonMoogFilter.neon_divide_f32 NeonMoogFilter.newton_raphson
       vmulq_f32 vaddq_f32 vrecpsq_f32 vrecpeq_f32 vdupq_n_f32
       lane_map lane_map2].
  repeat match goal with |- (_, _) = (_, _) => apply f_equal2 end; ring.
Qed.

(** X15.  Every lane of fastTanhSIMD is the scalar fastTanh of that lane,
    off by the fourth power of the relative error of the hardware
    reciprocal estimate of the denominator 27 + 9x^2; it is exact when the
    estimate is. *)
Theorem fastTanhSIMD_is_fastTanh_up_to_estimate x0 x1 x2 x3 :
  let lane x :=
    MoogFilter.fastTanh x
    * (1 - (1 - (27 + 9 * (x * x)) * recpe (27 + 9 * (x * x))) ^ 4) in
  NeonMoogFilterBlock.fastTanhSIMD recpe (x0, x1, x2, x3) =
  (lane x0, lane x1, lane x2, lane x3).
Proof.
  cbv zeta. rewrite fastTanhSIMD_lanes.
  assert (L : forall x,
    NeonMoogFilterBlock.fastTanhLane recpe x =
    MoogFilter.fastTanh x
    * (1 - (1 - (27 + 9 * (x * x)) * recpe (27 + 9 * (x * x))) ^ 4)).
  { intros x. pose proof (fastTanh_den_pos x) as D.
    unfold NeonMoogFilterBlock.fastTanhLane, MoogFilter.fastTanh,
      NeonMoogFilter.newton_raphson. cbv zeta.
    set (r := recpe (27 + 9 * (x * x))). field. lra. }
  rewrite !L. reflexivity.
Qed.

(** X16.  processBlockSIMD does not filter a group of four samples in
    sequence: each of the four outputs is what the per-sample routine
    (with the four-lane saturator) returns for that sample from the SAME
    state, the one before the group; the delays left behind are those of
    the first sample alone, the stage array is not written, and the rest
    of the block continues from there. *)
Theorem processBlockSIMD_group st x0 x1 x2 x3 rest :
  let sat := NeonMoogFilterBlock.fastTanhLane recpe in
  let out x := fst (MoogFilter.process_with sat st x) in
  let st1 :=
    MoogFilter.mkState (MoogFilter.cutoff st) (MoogFilter.resonance st)
      (MoogFilter.sampleRate st) (MoogFilter.fc st) (MoogFilter.f st)
      (MoogFilter.k st) (MoogFilter.p st) (MoogFilter.scale st)
      (MoogFilter.stage st)
      (MoogFilter.delay (snd (MoogFilter.process_with sat st x0))) in
  NeonMoogFilterBlock.processBlockSIMD recpe st (x0 :: x1 :: x2 :: x3 :: rest)
  = (out x0 :: out x1 :: out x2 :: out x3
       :: fst (NeonMoogFilterBlock.processBlockSIMD recpe st1 rest),
     snd (NeonMoogFilterBlock.processBlockSIMD recpe st1 rest)).
Proof.
  cbv zeta. cbn [NeonMoogFilterBlock.processBlockSIMD].
  cbv beta zeta iota delta
    [vdupq_n_f32 vaddq_f32 vsubq_f32 vmulq_f32 lane_map2].
  repeat (rewrite fastTanhSIMD_lanes;
          cbv beta zeta iota delta
            [NeonMoogFilterBlock.vgetq_lane_f32_0 ZDFMoogLadderFilter.upd
             Nat.eqb]).
  cbv beta zeta iota delta
    [MoogFilter.process_with ZDFMoogLadderFilter.upd Nat.eqb fst snd
     MoogFilter.delay MoogFilter.stage MoogFilter.p MoogFilter.k
     MoogFilter.scale].
  destruct st as [cutoff resonance sr fc f k p scale stage delay].
  cbv beta iota.
  match goal with
  | |- (let '(ys, st2) := ?b in _) = _ => destruct b as [ys st2]
  end.
  reflexivity.
Qed.

End MoogFilterFacts.

(* ================================================================== *)
(** * The control-rate collaborators of the audio callback *)
(* ================================================================== *)

Section ResonanceRampFacts.
Import ResonanceRamp.
Local Open Scope R_scope.

(** One call of [process] below or at the target. *)
Lemma ramp_step_up st :
  0 <= incrementPerSample st -> currentValue st <= targetValue st ->
  process st =
  (Rmin (targetValue st) (currentValue st + incrementPerSample st),
   mkState (sampleRate st)
           (Rmin (targetValue st) (currentValue st + incrementPerSample st))
           (targetValue st) (incrementPerSample st)).
Proof.
  intros Hi Hc. unfold process.
  destruct (Rlt_dec (currentValue st) (targetValue st)) as [L|L].
  - destruct (Rgt_dec (currentValue st + incrementPerSample st)
                      (targetValue st)) as [G|G].
    + rewrite Rmin_left by lra. reflexivity.
    + rewrite Rmin_right by lra. reflexivity.
  - destruct (Rgt_dec (currentValue st) (targetValue st)) as [G|G]; [lra|].
    assert (E : currentValue st = targetValue st) by lra.
    rewrite Rmin_left by lra.
    destruct st as [sr c t i]. cbn [currentValue targetValue] in E.
    cbn [sampleRate currentValue targetValue incrementPerSample].
    rewrite E. reflexivity.
Qed.

(** One call of [process] above the target. *)
Lemma ramp_step_down st :
  0 <= incrementPerSample st -> targetValue st < currentValue st ->
  process st =
  (Rmax (targetValue st) (currentValue st - incrementPerSample st),
   mkState (sampleRate st)
           (Rmax (targetValue st) (currentValue st - incrementPerSample st))
           (targetValue st) (incrementPerSample st)).
Proof.
  intros Hi Hc. unfold process.
  destruct (Rlt_dec (currentValue st) (targetValue st)) as [L|L]; [lra|].
  destruct (Rgt_dec (currentValue st) (targetValue st)) as [G|G]; [|lra].
  destruct (Rlt_dec (currentValue st - incrementPerSample st)
                    (targetValue st)) as [G'|G'].
  - rewrite Rmax_left by lra. reflexivity.
  - rewrite Rmax_right by lra. reflexivity.
Qed.

Lemma Rmin_step t a i : 0 <= i -> Rmin t (Rmin t a + i) = Rmin t (a + i).
Proof.
  intros Hi. destruct (Rle_dec t a) as [L|L].
  - rewrite (Rmin_left t a) by lra. rewrite !Rmin_left by lra. reflexivity.
  - rewrite (Rmin_right t a) by lra. reflexivity.
Qed.

Lemma Rmax_step t a i : 0 <= i -> Rmax t (Rmax t a - i) = Rmax t (a - i).
Proof.
  intros Hi. destruct (Rle_dec a t) as [L|L].
  - rewrite (Rmax_left t a) by lra. rewrite !Rmax_left by lra. reflexivity.
  - rewrite (Rmax_right t a) by lra. reflexivity.
Qed.

(** X17.  With a non-negative increment the ramp moves straight to its
    target and stays there: after n calls of process the value is
    min(target, start + n*increment) when it started at or below the
    target and max(target, start - n*increment) when it started above;
    it never overshoots, and target and increment are untouched. *)
Theorem ramp_reaches_target n st :
  0 <= incrementPerSample st ->
  targetValue (after n st) = targetValue st /\
  incrementPerSample (after n st) = incrementPerSample st /\
  currentValue (after n st) =
    if Rle_dec (currentValue st) (targetValue st)
    then Rmin (targetValue st)
              (currentValue st + INR n * incrementPerSample st)
    else Rmax (targetValue st)
              (currentValue st - INR n * incrementPerSample st).
Proof.
  intros Hi. induction n as [|n IH].
  - change (after 0 st) with st. cbn [INR].
    split; [reflexivity|]. split; [reflexivity|].
    destruct (Rle_dec (currentValue st) (targetValue st)).
    + rewrite Rmin_right by lra. ring.
    + rewrite Rmax_right by lra. ring.
  - destruct IH as (Et & Ei & Ec).
    change (after (S n) st) with (snd (process (after n st))).
    set (s := after n st) in *. rewrite S_INR.
    pose proof (pos_INR n) as Hn.
    assert (Hi' : 0 <= incrementPerSample s) by (rewrite Ei; exact Hi).
    destruct (Rle_dec (currentValue st) (targetValue st)) as [L|L].
    + assert (Hs : currentValue s <= targetValue s).
      { rewrite Ec, Et. apply Rmin_l. }
      rewrite (ramp_step_up s Hi' Hs). cbn [snd targetValue incrementPerSample
                                              currentValue].
      split; [exact Et|]. split; [exact Ei|].
      rewrite Et, Ei, Ec. rewrite Rmin_step by exact Hi. f_equal. ring.
    + assert (Hs : targetValue s <= currentValue s).
      { rewrite Ec, Et. apply Rmax_l. }
      destruct (Req_dec (currentValue s) (targetValue s)) as [E|N].
      * rewrite (ramp_step_up s Hi' ltac:(lra)).
        cbn [snd targetValue incrementPerSample currentValue].
        split; [exact Et|]. split; [exact Ei|].
        rewrite Rmin_left by lra. rewrite Et.
        rewrite Et, Ec in E. symmetry. apply Rmax_left.
        assert (currentValue st - INR n * incrementPerSample st
                <= targetValue st).
        { rewrite <- E. apply Rmax_r. }
        nra.
      * rewrite (ramp_step_down s Hi' ltac:(lra)).
        cbn [snd targetValue incrementPerSample currentValue].
        split; [exact Et|]. split; [exact Ei|].
        rewrite Et, Ei, Ec. rewrite Rmax_step by exact Hi. f_equal. ring.
Qed.

Lemma ramp_reaches_target_witness :
  let st := setTarget (new 44100 50) 1 in
  targetValue (after 3 st) = targetValue st /\
  incrementPerSample (after 3 st) = incrementPerSample st /\
  currentValue (after 3 st) =
    if Rle_dec (currentValue st) (targetValue st)
    then Rmin (targetValue st)
              (currentValue st + INR 3 * incrementPerSample st)
    else Rmax (targetValue st)
              (currentValue st - INR 3 * incrementPerSample st).
Proof.
  apply (ramp_reaches_target 3 (setTarget (new 44100 50) 1)).
  cbv [setTarget new incrementPerSample]. lra.
Defined.

End ResonanceRampFacts.

Section KeyFollowFacts.
Import KeyFollow.
Local Open Scope R_scope.

Lemma keyfollow_value st n :
  (Int32.min_int + 36 <= n <= Int32.max_int)%Z ->
  process st n = (IZR (Z.max 0 (n - 36)) * 0.33 + 36) * keyFollowAmount st.
Proof.
  intros H. unfold process, Int32.sub.
  rewrite Int32Facts.wrap_small
    by (unfold Int32.in_range, Int32.min_int, Int32.max_int in *; lia).
  destruct (Rlt_dec (IZR (n - 36)) 0) as [L|L].
  - apply lt_IZR in L. rewrite Z.max_l by lia. reflexivity.
  - apply Rnot_lt_le in L. apply le_IZR in L. rewrite Z.max_r by lia.
    reflexivity.
Qed.

(** X18.  Keyboard tracking is flat up to note 36 and rises from there:
    for a non-negative amount a higher note never gives a lower
    modulation value, and every note at or below 36 gives the same value
    36*amount. *)
Theorem keyfollow_monotone_with_floor st n1 n2 :
  (Int32.min_int + 36 <= n1)%Z -> (n1 <= n2)%Z -> (n2 <= Int32.max_int)%Z ->
  0 <= keyFollowAmount st ->
  process st n1 <= process st n2 /\
  ((n2 <= 36)%Z -> process st n1 = 36 * keyFollowAmount st /\
                   process st n2 = 36 * keyFollowAmount st).
Proof.
  intros H1 H12 H2 Ha.
  rewrite !keyfollow_value by lia.
  split.
  - assert (IZR (Z.max 0 (n1 - 36)) <= IZR (Z.max 0 (n2 - 36)))
      by (apply IZR_le; lia).
    nra.
  - intros H. rewrite !Z.max_l by lia. split; lra.
Qed.

Lemma keyfollow_monotone_with_floor_witness :
  process (new 0.5) 24 <= process (new 0.5) 30 /\
  ((30 <= 36)%Z -> process (new 0.5) 24 = 36 * keyFollowAmount (new 0.5) /\
                   process (new 0.5) 30 = 36 * keyFollowAmount (new 0.5)).
Proof.
  apply (keyfollow_monotone_with_floor (new 0.5) 24 30).
  - unfold Int32.min_int. lia.
  - lia.
  - unfold Int32.max_int. lia.
  - cbn [new keyFollowAmount]. lra.
Defined.

End KeyFollowFacts.

Section PortamentoFilterFacts.
Import PortamentoFilter.
Local Open Scope R_scope.

Lemma answers_follow_reference evs : forall st prev,
  match prev with
  | None => previousNoteActive st = false
  | Some (note', on', _) =>
      previousNoteActive st = on' /\ (on' = true -> previousNote st = note')
  end ->
  answers st evs = legato_reference prev evs.
Proof.
  induction evs as [|[[note on] t] rest IH]; intros st prev Hrel;
    [reflexivity|].
  cbn [answers legato_reference]. unfold checkPortamento.
  destruct on.
  - f_equal.
    + destruct prev as [[[note' on'] t']|].
      * destruct Hrel as [Ha Hn]. rewrite Ha. destruct on'; [|reflexivity].
        rewrite (Hn eq_refl). cbn [andb].
        destruct (negb (note' =? note)%Z); reflexivity.
      * rewrite Hrel. reflexivity.
    + apply IH. cbn [previousNoteActive previousNote]. split; reflexivity.
  - f_equal.
    + destruct prev as [[[note' [|]] t']|]; reflexivity.
    + apply IH. cbn [previousNoteActive previousNote].
      split; [reflexivity|discriminate].
Qed.

(** X19.  Over any sequence of note events fed to a fresh detector, the
    answer to an event is true exactly when it is a note-on and the event
    just before it was a note-on of a different note number: a note-off in
    between, a repeated note, or the first event never trigger a glide. *)
Theorem portamento_triggers_on_overlapping_notes evs :
  answers new evs = legato_reference None evs.
Proof. apply answers_follow_reference. reflexivity. Qed.

End PortamentoFilterFacts.

Section PortamentoPlayerFacts.
Import PortamentoPlayer.
Local Open Scope R_scope.

(** X20.  Equal temperament: note 69 is 440 Hz and twelve notes up is
    twice the frequency, for every note whose offset from 69 fits the
    int. *)
Theorem midiToFreq_octave n :
  (Int32.min_int + 69 <= n)%Z -> (n + 12 <= Int32.max_int)%Z ->
  midiToFreq 69 = 440 /\ midiToFreq (n + 12) = 2 * midiToFreq n.
Proof.
  intros H1 H2. unfold midiToFreq, Int32.sub.
  rewrite !Int32Facts.wrap_small
    by (unfold Int32.in_range, Int32.min_int, Int32.max_int in *; lia).
  split.
  - replace (IZR (69 - 69) / 12) with 0 by (simpl; lra).
    rewrite Rpower_O by lra. lra.
  - replace (IZR (n + 12 - 69) / 12) with (IZR (n - 69) / 12 + 1).
    + rewrite Rpower_plus, Rpower_1 by lra. ring.
    + replace (n + 12 - 69)%Z with ((n - 69) + 12)%Z by lia.
      rewrite plus_IZR. field.
Qed.

Lemma midiToFreq_octave_witness :
  midiToFreq 69 = 440 /\ midiToFreq (57 + 12) = 2 * midiToFreq 57.
Proof.
  apply (midiToFreq_octave 57).
  - unfold Int32.min_int. lia.
  - unfold Int32.max_int. lia.
Defined.

(** Within one increment of the target, [interpolateFrequency] returns the
    target and leaves a state that is again within one increment of it. *)
Lemma interpolate_lands st :
  Rabs (targetFreq st - currentFreq st) <= Rabs (incrementPerSample st) ->
  let st' := snd (interpolateFrequency st) in
  fst (interpolateFrequency st) = targetFreq st /\
  currentFreq st' = targetFreq st /\
  targetFreq st' = targetFreq st /\
  Rabs (targetFreq st' - currentFreq st') <= Rabs (incrementPerSample st').
Proof.
  intros H. cbv zeta. unfold interpolateFrequency.
  destruct (Req_dec_T (incrementPerSample st) 0) as [E|N].
  - assert (Ec : currentFreq st = targetFreq st).
    { rewrite E, Rabs_R0 in H.
      destruct (Req_dec (targetFreq st - currentFreq st) 0) as [Z|NZ];
        [lra|].
      pose proof (Rabs_pos_lt _ NZ). lra. }
    cbn [fst snd]. repeat split; assumption.
  - destruct (Rle_dec (Rabs (targetFreq st - currentFreq st))
                      (Rabs (incrementPerSample st))) as [_|L];
      [|contradiction].
    cbn [fst snd currentFreq targetFreq incrementPerSample].
    repeat split.
    replace (targetFreq st - targetFreq st) with 0 by ring.
    rewrite Rabs_R0. lra.
Qed.

(** The same for [process], whether the note is held or released. *)
Lemma process_lands st :
  Rabs (targetFreq st - currentFreq st) <= Rabs (incrementPerSample st) ->
  let st' := snd (process st) in
  fst (process st) = targetFreq st /\
  currentFreq st' = targetFreq st /\
  targetFreq st' = targetFreq st /\
  Rabs (targetFreq st' - currentFreq st') <= Rabs (incrementPerSample st').
Proof.
  intros H. cbv zeta. unfold process.
  destruct (noteIsOn st); cbn [orb].
  - apply interpolate_lands, H.
  - destruct (Req_dec_T (currentFreq st) (targetFreq st)) as [E|N].
    + cbn [fst snd]. repeat split; assumption.
    + apply interpolate_lands, H.
Qed.

Lemma after_lands k : forall st,
  Rabs (targetFreq st - currentFreq st) <= Rabs (incrementPerSample st) ->
  targetFreq (after k st) = targetFreq st /\
  Rabs (targetFreq (after k st) - currentFreq (after k st))
  <= Rabs (incrementPerSample (after k st)).
Proof.
  induction k as [|k IH]; intros st H.
  - change (after 0 st) with st. split; [reflexivity|exact H].
  - change (after (S k) st) with (snd (process (after k st))).
    destruct (IH st H) as [Et Hk].
    destruct (process_lands (after k st) Hk) as (_ & _ & Et' & Hk').
    split; [rewrite Et'; exact Et|exact Hk'].
Qed.

(** X21.  Arrival is exact and permanent.  Whenever the current frequency
    is within one increment of the target, the next call of process
    returns exactly the target, and so does every later call, with the
    note held or released.  In particular a note-on without portamento,
    or one given while no frequency was sounding (currentFreq == 0), is
    answered by midiToFreq(note) at every call, without any glide. *)
Theorem portamento_lands_and_holds st note portamentoOn k :
  (Rabs (targetFreq st - currentFreq st) <= Rabs (incrementPerSample st) ->
   fst (process (after k st)) = targetFreq st /\
   currentFreq (after (S k) st) = targetFreq st) /\
  (portamentoOn = false \/ currentFreq st = 0 ->
   fst (process (after k (noteOn st note portamentoOn))) = midiToFreq note /\
   currentNote (noteOn st note portamentoOn) = note).
Proof.
  assert (Land : forall s,
    Rabs (targetFreq s - currentFreq s) <= Rabs (incrementPerSample s) ->
    fst (process (after k s)) = targetFreq s /\
    currentFreq (after (S k) s) = targetFreq s).
  { intros s H. destruct (after_lands k s H) as [Et Hk].
    change (after (S k) s) with (snd (process (after k s))).
    destruct (process_lands (after k s) Hk) as (Ho & Ec & _ & _).
    rewrite Ho, Ec, Et. split; reflexivity. }
  split; [apply Land|].
  intros Hjump.
  assert (E : noteOn st note portamentoOn =
              mkState note (sampleRate st) (midiToFreq note)
                      (midiToFreq note) 0 (portamentoTimeMs st) true).
  { unfold noteOn. destruct Hjump as [Hp|Hc].
    - rewrite Hp. reflexivity.
    - destruct (Req_dec_T (currentFreq st) 0) as [_|N]; [|contradiction].
      rewrite Bool.orb_true_r. reflexivity. }
  rewrite E. split; [|reflexivity].
  apply (Land (mkState note (sampleRate st) (midiToFreq note)
                       (midiToFreq note) 0 (portamentoTimeMs st) true)).
  cbn [targetFreq currentFreq incrementPerSample].
  replace (midiToFreq note - midiToFreq note) with 0 by ring.
  rewrite Rabs_R0. lra.
Qed.

Lemma portamento_lands_and_holds_witness :
  (fst (process (after 3 (mkState 60 44100 439 440 2 100 true))) = 440 /\
   currentFreq (after 4 (mkState 60 44100 439 440 2 100 true)) = 440) /\
  (fst (process (after 3 (noteOn (mkState 60 44100 439 440 2 100 true)
                                 69 false))) = midiToFreq 69 /\
   currentNote (noteOn (mkState 60 44100 439 440 2 100 true) 69 false) = 69%Z).
Proof.
  split.
  - apply (portamento_lands_and_holds
             (mkState 60 44100 439 440 2 100 true) 69 false 3).
    cbn [targetFreq currentFreq incrementPerSample].
    replace (440 - 439) with 1 by ring.
    rewrite Rabs_R1, Rabs_right; lra.
  - apply (portamento_lands_and_holds
             (mkState 60 44100 439 440 2 100 true) 69 false 3).
    left. reflexivity.
Defined.

End PortamentoPlayerFacts.

Section MidiHandlerFacts.
Import MidiHandler.
Local Open Scope R_scope.

Lemma update_loop_moves delay t incoming : forall delayed,
  exists moved,
    snd (update_loop delay t incoming delayed) = delayed ++ moved /\
    incoming = moved ++ fst (update_loop delay t incoming delayed) /\
    Forall (fun msg => t - timestamp msg >= delay) moved /\
    match fst (update_loop delay t incoming delayed) with
    | [] => True
    | msg :: _ => ~ t - timestamp msg >= delay
    end.
Proof.
  induction incoming as [|msg rest IH]; intros delayed.
  - exists []. cbn [update_loop fst snd]. rewrite app_nil_r.
    repeat split. constructor.
  - cbn [update_loop].
    destruct (Rge_dec (t - timestamp msg) delay) as [Hd|Hd].
    + destruct (IH (delayed ++ [msg])) as (moved & E1 & E2 & F & Hhead).
      exists (msg :: moved). rewrite E1, <- app_assoc. cbn [app].
      split; [reflexivity|]. split; [f_equal; exact E2|].
      split; [constructor; assumption|exact Hhead].
    + exists []. cbn [fst snd app]. rewrite app_nil_r.
      repeat split; [constructor|exact Hd].
Qed.

(** X22.  update moves exactly the longest prefix of due messages from the
    incoming queue to the back of the delayed queue: the order of all
    queued messages is kept, every moved message has waited for the whole
    delay, and the message left at the front of the incoming queue, if
    any, has not (so it holds back everything behind it). *)
Theorem midi_update_moves_due_prefix st t :
  exists moved,
    delayedMessages (update st t) = delayedMessages st ++ moved /\
    incomingMessages st = moved ++ incomingMessages (update st t) /\
    Forall (due st t) moved /\
    match incomingMessages (update st t) with
    | [] => True
    | msg :: _ => ~ due st t msg
    end.
Proof.
  destruct (update_loop_moves (delayTimeMs st) t (incomingMessages st)
              (delayedMessages st)) as (moved & E1 & E2 & F & Hhead).
  exists moved. unfold update, due.
  destruct (update_loop (delayTimeMs st) t (incomingMessages st)
              (delayedMessages st)) as [incoming delayed].
  cbn [fst snd delayedMessages incomingMessages] in *.
  repeat split; assumption.
Qed.

(** X23.  Round trip through a fresh handler: a message handed in at time
    t0 is not available at any update time t with t - t0 below the delay
    (popping then returns the sentinel (-1, -1, -1) and changes nothing),
    and once t - t0 reaches the delay it is popped unchanged, leaving the
    delayed queue empty. *)
Theorem midi_message_round_trip sr d n v t0 t :
  let st := update (processMidiMessage (new sr d) n v t0) t in
  (t - t0 >= d ->
   hasDelayedMessage st = true /\
   fst (popDelayedMessage st) = mkMessage n v t0 /\
   hasDelayedMessage (snd (popDelayedMessage st)) = false) /\
  (~ t - t0 >= d ->
   hasDelayedMessage st = false /\
   popDelayedMessage st = (mkMessage (-1) (-1) (-1), st)).
Proof.
  cbv zeta.
  unfold update, processMidiMessage, new.
  cbn [incomingMessages delayedMessages delayTimeMs sampleRate app
       update_loop timestamp].
  destruct (Rge_dec (t - t0) d) as [H|H].
  - split; [intros _|intros N; contradiction].
    cbn. repeat split.
  - split; [intros N; contradiction|intros _].
    cbn. repeat split.
Qed.

Lemma midi_message_round_trip_witness :
  let st := update (processMidiMessage (new 44100 10) 60 100 0) 10 in
  hasDelayedMessage st = true /\
  fst (popDelayedMessage st) = mkMessage 60 100 0 /\
  hasDelayedMessage (snd (popDelayedMessage st)) = false.
Proof.
  apply (midi_message_round_trip 44100 10 60 100 0 10). lra.
Defined.

End MidiHandlerFacts.

(* ================================================================== *)
(** * The nonlinear backends at rest and under control changes *)
(* ================================================================== *)

Section ScalarRestFacts.
Import MoogLadderFilterBase MoogLadderFilterScalar.
Local Open Scope R_scope.

(** From a zero first iteration and a zero input the second iteration is
    zero, whatever the coefficients. *)
Lemma second_iteration_silent c :
  section5 c (mkFirst 0 0 0 0 0 0 0 0) 0 = mkSecond 0 0 0 0 0 0 0 0 0 0.
Proof.
  remember (section5 c (mkFirst 0 0 0 0 0 0 0 0) 0) as q eqn:Hq.
  cbv beta iota delta
    [section5 expr13 expr15 expr23 expr30 expr32 add33] in Hq.
  next_local Hq e34. assert (E34 : e34 = 0) by (subst e34; ring).
  next_local Hq e35. assert (E35 : e35 = 0).
  { subst e35. rewrite E34.
    replace (0.062 * 0 * 0 + 0.993 * 0) with 0 by ring.
    apply clamp_inside. lra. }
  next_local Hq e36. assert (E36 : e36 = 0) by (subst e36; rewrite E34; ring).
  next_local Hq e37. assert (E37 : e37 = 0) by (subst e37; rewrite E36; ring).
  next_local Hq a38. assert (A38 : a38 = 0) by (subst a38; rewrite E37; ring).
  next_local Hq e39. assert (E39 : e39 = 0) by (subst e39; rewrite A38; ring).
  next_local Hq a40. assert (A40 : a40 = 0) by (subst a40; rewrite E39; ring).
  next_local Hq c42. assert (C42 : c42 = 0).
  { subst c42. rewrite A40. apply clamp_inside. lra. }
  next_local Hq e43. assert (E43 : e43 = 0) by (subst e43; rewrite C42; ring).
  next_local Hq e44. assert (E44 : e44 = 0) by (subst e44; rewrite E43; ring).
  next_local Hq a48. assert (A48 : a48 = 0) by (subst a48; rewrite E44; ring).
  next_local Hq e49. assert (E49 : e49 = 0) by (subst e49; rewrite A48; ring).
  next_local Hq a50. assert (A50 : a50 = 0) by (subst a50; rewrite E49; ring).
  rewrite Hq, E34, E35, E37, A38, E39, A40, E44, A48, E49, A50. reflexivity.
Qed.

(** One silent sample from rest. *)
Lemma process_silent st in2 in3 :
  at_rest st ->
  fst (process st 0 in2 in3 0) = 0 /\ at_rest (snd (process st 0 in2 in3 0)).
Proof.
  intros Hrest.
  pose proof (first_iteration_at_rest st (section3 st in3) Hrest) as Hp.
  destruct Hrest as (_ & _ & _ & _ & _ & H6 & H7 & H8 & _ & _).
  unfold process. cbv zeta. replace (0 + 1e-11 * 0) with 0 by ring.
  rewrite Hp, second_iteration_silent.
  assert (M : section6 st (mkFirst 0 0 0 0 0 0 0 0)
                (mkSecond 0 0 0 0 0 0 0 0 0 0) = mkModes 0 0 0 0 0).
  { unfold section6. cbv zeta.
    cbn [add50 add33 expr14 add38 add48 add40].
    rewrite H6, H7, H8. f_equal; ring. }
  rewrite M. cbn [fst snd]. split.
  - unfold section7. cbn [expr51 expr52 expr53 expr45 expr41 add40].
    repeat match goal with
           | |- context [match ?x with _ => _ end] => destruct x
           end; reflexivity.
  - unfold at_rest.
    cbn [s1 s2 s3 s4 s5 s6 s7 s8 slim previn expr15 expr39 expr44 expr49
         add50 expr51 add33 expr35].
    repeat split.
Qed.

Lemma clamp_in_range x a b : a <= b -> a <= clamp x a b <= b.
Proof.
  intros H. unfold clamp, Rmin.
  destruct (Rle_dec (Rmax x a) b) as [H1|H1];
    unfold Rmax in *; destruct (Rle_dec x a); lra.
Qed.

(** With the resonance in [0, 1] and a normalised cutoff in [-1, 1] the
    coefficients of a call stay small, for every resonance control. *)
Lemma scalar_coefficients_bounded st in3 :
  0 <= rc st <= 1 -> -1 <= fc st <= 1 ->
  -26 <= expr6 (section3 st in3) <= 26 /\
  -2700 <= expr7 (section3 st in3) <= 2700 /\
  0.18 <= expr8 (section3 st in3) <= 2000000.
Proof.
  intros Hrc Hfc.
  remember (section3 st in3) as c eqn:Hq.
  cbv beta delta [section3] in Hq.
  set (r := rc st) in *. set (f := fc st) in *. clearbody r f.
  pose proof (clamp_in_range ((1.05 * Rmax in3 1e-5 - r) / 4) (-1) 1
                ltac:(lra)) as Hcl.
  set (cl := clamp ((1.05 * Rmax in3 1e-5 - r) / 4) (-1) 1) in *.
  clearbody cl.
  next_local Hq rcm. assert (Brcm : -1 <= rcm <= 2) by (subst rcm; lra).
  clearbody rcm.
  next_local Hq e3. assert (B3 : 0 <= e3 <= 1) by (subst e3; split; nra).
  clearbody e3.
  next_local Hq e4. assert (B4 : -2 <= e4 <= 2) by (subst e4; split; nra).
  clearbody e4.
  next_local Hq e5. assert (B5 : 0 <= e5 <= 5) by (subst e5; split; nra).
  clearbody e5.
  next_local Hq e6. assert (B6 : -26 <= e6 <= 26).
  { subst e6.
    assert (T1 : -0.75 <= -0.74375 + 0.3 * e5 <= 0.76) by lra.
    set (t1 := -0.74375 + 0.3 * e5) in *. clearbody t1.
    assert (T2 : -3.8 <= t1 * e5 <= 3.8) by (split; nra).
    set (t2 := t1 * e5) in *. clearbody t2.
    split; nra. }
  clearbody e6.
  next_local Hq e7. assert (B7 : -2700 <= e7 <= 2700).
  { subst e7.
    assert (U1 : -1.96 <= -0.164 - 0.069 * e6 <= 1.96) by lra.
    set (u1 := -0.164 - 0.069 * e6) in *. clearbody u1.
    assert (U2 : -50.96 <= u1 * e6 <= 50.96) by (split; nra).
    set (u2 := u1 * e6) in *. clearbody u2.
    assert (U3 : -51.07 <= 0.108 + u2 <= 51.07) by lra.
    set (u3 := 0.108 + u2) in *. clearbody u3.
    assert (U4 : -1327.82 <= u3 * e6 <= 1327.82) by (split; nra).
    set (u4 := u3 * e6) in *. clearbody u4.
    assert (U5 : -1329.22 <= 1.4 + u4 <= 1329.22) by lra.
    set (u5 := 1.4 + u4) in *. clearbody u5.
    split; nra. }
  clearbody e7.
  next_local Hq e8. assert (B8 : 0.18 <= e8 <= 2000000) by (subst e8; split; nra).
  clearbody e8.
  next_local Hq r9.
  rewrite Hq. cbn [expr6 expr7 expr8]. repeat split; lra.
Qed.

(** X24.  Silence in, silence out for the scalar nonlinear backend in its
    bounded-coefficient regime: with the resonance in [0, 1] and a
    normalised cutoff fc in [-1, 1] (the reset value is 1), every call has
    coefficients |expr6| <= 26, |expr7| <= 2700 and expr8 <= 2e6, far
    inside the single-precision range, and from a zero memory any number
    of calls whose audio input in1 and noise input in4 are 0 return 0, in
    every mode (valid or not) and for every envelope and resonance
    control. *)
Theorem scalar_silence_from_rest ins st :
  at_rest st ->
  0 <= rc st <= 1 -> -1 <= fc st <= 1 ->
  Forall (fun a : R * R * R * R =>
            fst (fst (fst a)) = 0 /\ snd a = 0) ins ->
  outputs st ins = repeat 0 (length ins) /\
  (forall in3,
     -26 <= expr6 (section3 st in3) <= 26 /\
     -2700 <= expr7 (section3 st in3) <= 2700 /\
     0.18 <= expr8 (section3 st in3) <= 2000000) /\
  rc (fold_left (fun s a =>
                   snd (process s (fst (fst (fst a))) (snd (fst (fst a)))
                                (snd (fst a)) (snd a))) ins st) = rc st /\
  fc (fold_left (fun s a =>
                   snd (process s (fst (fst (fst a))) (snd (fst (fst a)))
                                (snd (fst a)) (snd a))) ins st) = fc st.
Proof.
  intros Hrest Hrc Hfc Hins.
  split; [|split].
  - clear Hrc Hfc. revert st Hrest Hins.
    induction ins as [|[[[in1 in2] in3] in4] rest IH]; intros st Hrest Hins;
      [reflexivity|].
    inversion Hins as [|? ? [H1 H4] Hrest']; subst.
    cbn [fst snd] in H1, H4. subst in1 in4.
    cbn [outputs length repeat].
    destruct (process_silent st in2 in3 Hrest) as [Ho Hr].
    rewrite Ho. f_equal. apply IH; assumption.
  - intros in3. apply scalar_coefficients_bounded; assumption.
  - clear. revert st.
    induction ins as [|a rest IH]; intros st; [split; reflexivity|].
    cbn [fold_left]. destruct (IH (snd (process st (fst (fst (fst a)))
                  (snd (fst (fst a))) (snd (fst a)) (snd a)))) as [E1 E2].
    rewrite E1, E2. split; reflexivity.
Qed.

Lemma scalar_silence_from_rest_witness :
  outputs (setParams (new zero_mem 44100) 0.5 0.3 2)
          [(0, 1, 0.5, 0); (0, 0, 1, 0)] = [0; 0].
Proof.
  apply (scalar_silence_from_rest [(0, 1, 0.5, 0); (0, 0, 1, 0)]
           (setParams (new zero_mem 44100) 0.5 0.3 2)).
  - unfold at_rest, setParams, new, reset. cbn. repeat split.
  - unfold setParams. cbn [rc]. rewrite clamp_inside by lra. lra.
  - unfold setParams. cbn [fc]. rewrite fixdenorm_big by lra. lra.
  - repeat constructor.
Defined.

End ScalarRestFacts.

Section SIMDFacts.
Import MoogLadderFilterBase MoogLadderFilterSIMD.
Local Open Scope R_scope.

(** The per-lane hardware reciprocal estimate. *)
Variable recpe : R -> R.

(** X25.  What the four-lane process never does: its output does not
    depend on the audio input in1, the unused input in2 or the noise input
    in4 of the same call, nor on the mode given to setParams (every mode
    returns the first iteration's third stage), and it never writes the
    registers s4 to s8, so the feedback register s5 it reads keeps its
    value. *)
Theorem simd_process_ignores_sample_and_mode
  st cutoff resonance m m' in1 in1' in2 in2' in3 in4 in4' :
  fst (process recpe (setParams st cutoff resonance m) in1 in2 in3 in4) =
  fst (process recpe (setParams st cutoff resonance m') in1' in2' in3 in4') /\
  let st' := snd (process recpe st in1 in2 in3 in4) in
  s4 st' = s4 st /\ s5 st' = s5 st /\ s6 st' = s6 st /\ s7 st' = s7 st /\
  s8 st' = s8 st.
Proof.
  split.
  - destruct m, m'; reflexivity.
  - cbv zeta. repeat split.
Qed.

End SIMDFacts.

Section MSPRunFacts.
Import MSPMoogLadderFilter.
Local Open Scope R_scope.

Lemma new_flushed sr : state_flushed (new sr).
Proof.
  unfold state_flushed, new, flushed. cbv zeta.
  cbn [previousInput cutoffFrequency resonanceCoefficient stage1State
       stage2State stage3State stage4State saturationState
       stage4DelayedOutput combinedOutput1 combinedOutput2 finalFilterOutput].
  repeat split; try (left; reflexivity).
  right. rewrite Rabs_R1. lra.
Qed.

Lemma run_flushed ins : forall st,
  state_flushed st -> state_flushed (run st ins).
Proof.
  unfold run. induction ins as [|a rest IH]; intros st Hst; [exact Hst|].
  cbn [fold_left]. apply IH. apply msp_stored_state_flushed.
  destruct Hst as (_ & _ & _ & _ & _ & _ & _ & _ & _ & _ & _ & Hf). exact Hf.
Qed.

(** X26.  In the double-precision backend the denormal guard is an
    invariant of the whole life of a filter: after the constructor and any
    sequence of processSample calls, with any arguments, every stored
    value is 0 or at least 1e-18 in magnitude. *)
Theorem msp_memory_always_flushed sr ins :
  state_flushed (run (new sr) ins).
Proof. apply run_flushed, new_flushed. Qed.

(** X27.  Resonance smoothing: each processSample call moves the stored
    resonance coefficient a quarter of the way to its target
    1.05*min(1, max(1e-5, resonanceControl)), so the distance shrinks by
    exactly 3/4 per sample; starting in [0, 1.05] the coefficient stays in
    [0, 1.05] for every control value, and the denormal guard never cuts
    in. *)
Theorem msp_resonance_smoothing st x e r n m :
  0 <= resonanceCoefficient st <= 1.05 ->
  let target := 1.05 * Rmin 1 (Rmax 1e-05 r) in
  let st' := snd (processSample st x e r n m) in
  resonanceCoefficient st' - target =
    3 / 4 * (resonanceCoefficient st - target) /\
  0 <= resonanceCoefficient st' <= 1.05.
Proof.
  intros Hrc. cbv zeta. unfold processSample. cbv zeta.
  cbn [snd resonanceCoefficient]. unfold section2. cbv zeta.
  cbn [smoothedResonanceCoeff].
  set (rc := resonanceCoefficient st) in *.
  assert (HT : 1e-05 <= Rmin 1 (Rmax 1e-05 r) <= 1).
  { split; [|apply Rmin_l].
    apply Rmin_glb; [lra|apply Rmax_l]. }
  set (T := Rmin 1 (Rmax 1e-05 r)) in *.
  unfold fixDenormalNumbers.
  destruct (Rlt_dec (Rabs (rc + (1.05 * T - rc) / 4)) 1e-18) as [H|H].
  - rewrite Rabs_right in H by lra. lra.
  - split; lra.
Qed.

Lemma msp_resonance_smoothing_witness :
  let target := 1.05 * Rmin 1 (Rmax 1e-05 0.8) in
  let st' := snd (processSample (new 44100) 1 0 0.8 0 0) in
  resonanceCoefficient st' - target =
    3 / 4 * (resonanceCoefficient (new 44100) - target) /\
  0 <= resonanceCoefficient st' <= 1.05.
Proof.
  apply (msp_resonance_smoothing (new 44100) 1 0 0.8 0 0).
  unfold new. cbv zeta. cbn [resonanceCoefficient]. lra.
Defined.

Lemma Rmin_Rmax_0 : Rmin 1 (Rmax (-1) 0) = 0.
Proof. rewrite Rmax_right by lra. rewrite Rmin_right by lra. reflexivity. Qed.

Lemma std_clamp_0 : std_clamp 0 (-1) 1 = 0.
Proof.
  unfold std_clamp. destruct (Rlt_dec 0 (-1)); [lra|].
  destruct (Rlt_dec 1 0); [lra|reflexivity].
Qed.

Lemma fixDenormalNumbers_0 : fixDenormalNumbers 0 = 0.
Proof.
  unfold fixDenormalNumbers. destruct (Rlt_dec (Rabs 0) 1e-18); reflexivity.
Qed.

(** The first iteration of a quiet filter is zero. *)
Lemma msp_first_iteration_quiet st c :
  quiet st -> section3 st c = mkFirst 0 0 0 0 0 0 0 0.
Proof.
  intros (Hp & H1 & H2 & H3 & H4 & Hs & _ & Hc1 & _).
  remember (section3 st c) as p eqn:Hq.
  cbv beta delta [section3] in Hq.
  rewrite Hp, H1, H2, H3, H4, Hs, Hc1, fixDenormalNumbers_0 in Hq.
  next_local Hq cp.
  next_local Hq fs. assert (Efs : fs = 0) by (subst fs cp; ring).
  next_local Hq si. assert (Esi : si = 0) by (subst si; rewrite Efs; ring).
  next_local Hq cs. assert (Ecs : cs = 0)
    by (subst cs; rewrite Esi; apply Rmin_Rmax_0).
  next_local Hq sc.
  next_local Hq sf. assert (Esf : sf = 0) by (subst sf; rewrite Efs; ring).
  next_local Hq i1. assert (Ei1 : i1 = 0) by (subst i1; rewrite Esf; ring).
  next_local Hq a1. assert (Ea1 : a1 = 0) by (subst a1; ring).
  next_local Hq a3. assert (Ea3 : a3 = 0) by (subst a3; ring).
  next_local Hq a4. assert (Ea4 : a4 = 0) by (subst a4; ring).
  next_local Hq i2. assert (Ei2 : i2 = 0) by (subst i2; rewrite Ei1, Ea1; ring).
  next_local Hq o2. assert (Eo2 : o2 = 0) by (subst o2; rewrite Ei2; ring).
  next_local Hq a2. assert (Ea2 : a2 = 0) by (subst a2; ring).
  next_local Hq i3. assert (Ei3 : i3 = 0) by (subst i3; rewrite Eo2, Ea2; ring).
  next_local Hq c3. assert (Ec3 : c3 = 0)
    by (subst c3; rewrite Ei3; apply std_clamp_0).
  next_local Hq cu. assert (Ecu : cu = 0) by (subst cu; rewrite Ec3; ring).
  next_local Hq o3. assert (Eo3 : o3 = 0) by (subst o3; rewrite Ecu; ring).
  next_local Hq i4. assert (Ei4 : i4 = 0) by (subst i4; rewrite Eo3, Ea3; ring).
  next_local Hq o4. assert (Eo4 : o4 = 0) by (subst o4; rewrite Ei4; ring).
  next_local Hq f4. assert (Ef4 : f4 = 0) by (subst f4; rewrite Eo4, Ea4; ring).
  rewrite Hq, Efs, Ecs, Esf, Ei1, Eo2, Eo3, Eo4, Ef4. reflexivity.
Qed.

(** The second iteration on a zero first iteration and a zero input. *)
Lemma msp_second_iteration_quiet c :
  section4 c (mkFirst 0 0 0 0 0 0 0 0) 0 = mkSecond 0 0 0 0 0 0 0 0 0 0.
Proof.
  remember (section4 c (mkFirst 0 0 0 0 0 0 0 0) 0) as q eqn:Hq.
  cbv beta iota delta
    [section4 stage1Input stage2Output stage3Output stage4Output
     stage4FinalOutput currentSaturation] in Hq.
  next_local Hq a1. assert (Ea1 : a1 = 0) by (subst a1; ring).
  next_local Hq a2. assert (Ea2 : a2 = 0) by (subst a2; ring).
  next_local Hq fb. assert (Efb : fb = 0) by (subst fb; ring).
  next_local Hq si. assert (Esi : si = 0) by (subst si; rewrite Efb; ring).
  next_local Hq us. assert (Eus : us = 0)
    by (subst us; rewrite Esi; apply Rmin_Rmax_0).
  next_local Hq uc.
  next_local Hq uf. assert (Euf : uf = 0) by (subst uf; rewrite Efb; ring).
  next_local Hq u1. assert (Eu1 : u1 = 0) by (subst u1; rewrite Euf; ring).
  next_local Hq w1. assert (Ew1 : w1 = 0) by (subst w1; rewrite Eu1, Ea1; ring).
  next_local Hq u2. assert (Eu2 : u2 = 0) by (subst u2; rewrite Ew1; ring).
  next_local Hq w2. assert (Ew2 : w2 = 0) by (subst w2; rewrite Eu2, Ea2; ring).
  next_local Hq c2. assert (Ec2 : c2 = 0)
    by (subst c2; rewrite Ew2; apply std_clamp_0).
  next_local Hq cu. assert (Ecu : cu = 0) by (subst cu; rewrite Ec2; ring).
  next_local Hq u3. assert (Eu3 : u3 = 0) by (subst u3; rewrite Ecu; ring).
  next_local Hq a4. assert (Ea4 : a4 = 0) by (subst a4; ring).
  next_local Hq a3. assert (Ea3 : a3 = 0) by (subst a3; ring).
  next_local Hq w3. assert (Ew3 : w3 = 0) by (subst w3; rewrite Eu3, Ea3; ring).
  next_local Hq u4. assert (Eu4 : u4 = 0) by (subst u4; rewrite Ew3; ring).
  next_local Hq w4. assert (Ew4 : w4 = 0) by (subst w4; rewrite Eu4, Ea4; ring).
  rewrite Hq, Efb, Eus, Eu1, Ew1, Eu2, Ew2, Eu3, Ew3, Eu4, Ew4. reflexivity.
Qed.

(** One silent sample of a quiet filter. *)
Lemma msp_process_quiet st e r m :
  quiet st ->
  fst (processSample st 0 e r 0 m) = 0 /\
  quiet (snd (processSample st 0 e r 0 m)).
Proof.
  intros Hq.
  pose proof (msp_first_iteration_quiet st
                (section2 st (section1 st e) r) Hq) as Hp.
  destruct Hq as (_ & _ & _ & _ & _ & _ & Hd & Hc1 & Hc2).
  unfold processSample. cbv zeta. replace (0 + 1e-11 * 0) with 0 by ring.
  rewrite Hp, msp_second_iteration_quiet.
  assert (R5 : section5 st (mkFirst 0 0 0 0 0 0 0 0)
                 (mkSecond 0 0 0 0 0 0 0 0 0 0) = mkResponses 0 0 0 0 0).
  { unfold section5. cbv zeta.
    cbn [updatedStage1_withState updatedStage2_withState
         updatedStage3_withState updatedStage4_withState saturatedFeedback
         stage4FinalOutput].
    rewrite Hd, Hc1, Hc2. f_equal; ring. }
  rewrite R5. cbn [fst snd]. split.
  - unfold section6.
    cbn [lowpass24Response complexResponse1 complexResponse2 stageSum
         stageDifference updatedStage2_withState].
    repeat match goal with
           | |- context [match ?x with _ => _ end] => destruct x
           end; reflexivity.
  - unfold quiet.
    cbn [previousInput stage1State stage2State stage3State stage4State
         saturationState stage4DelayedOutput combinedOutput1 combinedOutput2
         updatedStage1 updatedStage2 updatedStage3 updatedStage4
         updatedSaturation stage4FinalOutput updatedStage4_withState
         lowpass24Response].
    rewrite fixDenormalNumbers_0. repeat split.
Qed.

Lemma new_quiet sr : quiet (new sr).
Proof. unfold quiet, new. cbv zeta. cbn. repeat split. Qed.

Lemma run_quiet ins : forall st,
  quiet st ->
  Forall (fun a => inputSignal a = 0 /\ thermalNoise a = 0) ins ->
  quiet (run st ins).
Proof.
  unfold run. induction ins as [|a rest IH]; intros st Hst Hins;
    [exact Hst|].
  inversion Hins as [|? ? [Hx Hn] Hrest]; subst.
  cbn [fold_left]. apply IH; [|exact Hrest].
  rewrite Hx, Hn. apply msp_process_quiet, Hst.
Qed.

(** X28.  Silence in, silence out for the double-precision backend: after
    the constructor and any number of calls with zero audio and zero noise
    input, a further such call returns 0, in every mode (valid or not) and
    for every envelope and resonance control along the way. *)
Theorem msp_silence_from_construction sr ins e r m :
  Forall (fun a => inputSignal a = 0 /\ thermalNoise a = 0) ins ->
  fst (processSample (run (new sr) ins) 0 e r 0 m) = 0.
Proof.
  intros Hins. apply msp_process_quiet. apply run_quiet; [|exact Hins].
  apply new_quiet.
Qed.

Lemma msp_silence_from_construction_witness :
  fst (processSample
         (run (new 44100) [mkSample 0 64 0.5 0 0; mkSample 0 100 1 0 3])
         0 64 0.5 0 1) = 0.
Proof.
  apply (msp_silence_from_construction 44100
           [mkSample 0 64 0.5 0 0; mkSample 0 100 1 0 3] 64 0.5 1).
  repeat constructor.
Defined.

End MSPRunFacts.

(* ================================================================== *)
(** * The bilinear-transform ladder *)
(* ================================================================== *)

Section BilinearFacts.
Import MoogLadderFilter.
Local Open Scope R_scope.

Lemma tanh_gt_m1 x : -1 < tanh x.
Proof.
  unfold tanh, sinh, cosh.
  pose proof (exp_pos x) as H1. pose proof (exp_pos (- x)) as H2.
  assert (D : 0 < (exp x + exp (- x)) / 2) by lra.
  assert (E : (exp x - exp (- x)) / 2 / ((exp x + exp (- x)) / 2) + 1 =
              exp x / ((exp x + exp (- x)) / 2)) by (field; lra).
  assert (0 < exp x / ((exp x + exp (- x)) / 2))
    by (apply Rdiv_lt_0_compat; lra).
  lra.
Qed.

(** One stage update moves the stage by less than twice the tuning. *)
Lemma stage_slew g a b : 0 <= g -> Rabs (b + g * (tanh a - tanh b) - b) <= 2 * g.
Proof.
  intros Hg.
  pose proof (tanh_lt_1 a). pose proof (tanh_gt_m1 a).
  pose proof (tanh_lt_1 b). pose proof (tanh_gt_m1 b).
  replace (b + g * (tanh a - tanh b) - b) with (g * (tanh a - tanh b)) by ring.
  apply Rabs_le. split; nra.
Qed.

(** X29.  The bilinear-transform ladder is slew-limited: with a
    non-negative tuning coefficient, one call of process moves each of the
    four stage values, and so the output, by at most 2*tuning, whatever
    the input and the resonance. *)
Theorem bilinear_process_slew_limited st input i :
  0 <= tuning st -> (i < 4)%nat ->
  Rabs (y (snd (process st input)) i - y st i) <= 2 * tuning st /\
  fst (process st input) = y (snd (process st input)) 3%nat.
Proof.
  intros Hg Hi. split; [|reflexivity].
  unfold process. cbv zeta. cbn [snd y].
  destruct i as [|[|[|[|i]]]]; try lia;
    unfold ZDFMoogLadderFilter.upd; cbn [Nat.eqb];
    apply stage_slew; exact Hg.
Qed.

Lemma bilinear_process_slew_limited_witness :
  Rabs (y (snd (process (mkState 44100 11025 0.5 1 2 (fun _ => 0)) 1)) 3%nat
        - y (mkState 44100 11025 0.5 1 2 (fun _ => 0)) 3%nat)
  <= 2 * tuning (mkState 44100 11025 0.5 1 2 (fun _ => 0)) /\
  fst (process (mkState 44100 11025 0.5 1 2 (fun _ => 0)) 1) =
  y (snd (process (mkState 44100 11025 0.5 1 2 (fun _ => 0)) 1)) 3%nat.
Proof.
  apply (bilinear_process_slew_limited
           (mkState 44100 11025 0.5 1 2 (fun _ => 0)) 1 3).
  - cbn [tuning]. lra.
  - lia.
Defined.

(** One call of [process] at a fixed point of the loop. *)
Lemma bilinear_process_at_equilibrium st x c :
  c = x - feedback st * c ->
  (forall i, (i < 4)%nat -> y st i = c) ->
  fst (process st x) = c /\
  (forall i, (i < 4)%nat -> y (snd (process st x)) i = c).
Proof.
  intros Hc Hy.
  pose proof (Hy 0%nat ltac:(lia)) as Y0. pose proof (Hy 1%nat ltac:(lia)) as Y1.
  pose proof (Hy 2%nat ltac:(lia)) as Y2. pose proof (Hy 3%nat ltac:(lia)) as Y3.
  unfold process. cbv zeta. cbn [fst snd y].
  unfold ZDFMoogLadderFilter.upd. cbn [Nat.eqb].
  rewrite Y0, Y1, Y2, Y3, <- Hc.
  assert (E : c + tuning st * (tanh c - tanh c) = c) by ring.
  rewrite !E. split; [reflexivity|].
  intros i Hi. destruct i as [|[|[|[|i]]]]; try lia; cbn [Nat.eqb];
    reflexivity.
Qed.

(** X30.  A steady state of the bilinear-transform ladder is held for every
    tuning: if the four stage values all equal c and c = x - feedback*c,
    a constant input x gives the output c for any number of samples; in
    particular a freshly constructed filter answers silence with
    silence. *)
Theorem bilinear_steady_state_held n : forall st x c,
  c = x - feedback st * c ->
  (forall i, (i < 4)%nat -> y st i = c) ->
  outputs st (repeat x n) = repeat c n.
Proof.
  induction n as [|n IH]; intros st x c Hc Hy; [reflexivity|].
  cbn [repeat outputs].
  destruct (bilinear_process_at_equilibrium st x c Hc Hy) as [Ho Hy'].
  rewrite Ho. f_equal. apply IH; assumption.
Qed.

Lemma bilinear_steady_state_held_witness :
  outputs (new 44100) (repeat 0 5) = repeat 0 5.
Proof.
  apply (bilinear_steady_state_held 5 (new 44100) 0 0).
  - ring.
  - intros i _. reflexivity.
Defined.

End BilinearFacts.
